(** * Workforce-intelligence agents: a shallow embedding of the TypeScript services

    The development follows the layout of the repository:

    - [JS]            the fragment of the JavaScript string library the code uses;
    - [Regex]         a backtracking matcher for the regular expressions of the sources;
    - [Runtime]       promises as a state-and-exception monad over the database tables;
    - [QueryExecutor] [src/services/queryExecutor.ts];
    - [RBAC]          [src/middleware/rbac.ts];
    - [AuditLogger]   [src/services/auditLogger.ts];
    - [Feedback], [Classifier], [Classification]
                      the classification agent and its feedback loop;
    - [Dates], [Parser], [SqlGenerator], [Chat]
                      the chat agent: dates, the query parser, the SQL
                      generator's post-processing and the handler;
    - [Words], [Described], [Fixtures]
                      reference readings of patterns and of the documented
                      behaviour, and the values the examples run on.
    - [Teams], [Edits], [Generation]
                      the rest of the SQL generator: the matching of team
                      names with its edit distance, and [generateSQL];
    - [Access], [Statements]
                      [buildRBACQuery] and the access checks of the
                      middleware, and the statements with numbered
                      placeholders of the audit log and the classifications;
    - [Orchestrator]  the orchestrator that routes requests to the agents;
    - [Samples]       more values for the examples;
    - [Guard]         the denylist and the table names of the query guard,
                      read off the text as the specification words them.

    The properties follow the definitions, grouped by service.

    Strings are sequences of 8-bit code units.  The case mappings below act on
    the ASCII letters only; on the Latin-1 range this gives the same answer as
    JavaScript for every test the sources perform (a comparison with, or a
    search for, an ASCII keyword). *)

From Stdlib Require Import String Ascii List ZArith Bool Arith Lia.
From Stdlib Require Import Floats Uint63 DecimalString.
Import ListNotations.
Local Open Scope list_scope.
Local Open Scope string_scope.
Local Open Scope nat_scope.
Local Open Scope bool_scope.
Set Warnings "-inexact-float,-abstract-large-number".

(* ------------------------------------------------------------------------- *)
(** ** JavaScript strings *)

Module JS.

Definition code (c : ascii) : nat := nat_of_ascii c.

Definition between (lo hi : nat) (c : ascii) : bool :=
  (lo <=? code c) && (code c <=? hi).

Definition is_upper : ascii -> bool := between 65 90.
Definition is_lower : ascii -> bool := between 97 122.
Definition is_digit : ascii -> bool := between 48 57.

(** [\w] *)
Definition is_word (c : ascii) : bool :=
  is_upper c || is_lower c || is_digit c || (code c =? 95).

(** [\s], which is also what [trim] strips: TAB, LF, VT, FF, CR, SP, NBSP. *)
Definition is_space (c : ascii) : bool :=
  between 9 13 c || (code c =? 32) || (code c =? 160).

Definition lower_char (c : ascii) : ascii :=
  if is_upper c then ascii_of_nat (code c + 32) else c.

Definition upper_char (c : ascii) : ascii :=
  if is_lower c then ascii_of_nat (code c - 32) else c.

Fixpoint map_chars (f : ascii -> ascii) (s : string) : string :=
  match s with
  | EmptyString => EmptyString
  | String c t => String (f c) (map_chars f t)
  end.

Definition toLowerCase : string -> string := map_chars lower_char.
Definition toUpperCase : string -> string := map_chars upper_char.

Fixpoint trimStart (s : string) : string :=
  match s with
  | EmptyString => EmptyString
  | String c t => if is_space c then trimStart t else s
  end.

Fixpoint trimEnd (s : string) : string :=
  match s with
  | EmptyString => EmptyString
  | String c t =>
      match trimEnd t with
      | EmptyString => if is_space c then EmptyString else String c EmptyString
      | t' => String c t'
      end
  end.

Definition trim (s : string) : string := trimEnd (trimStart s).

Definition startsWith (s p : string) : bool := String.prefix p s.

(** [s.includes(sub)] *)
Fixpoint includes (s sub : string) : bool :=
  String.prefix sub s ||
  match s with
  | EmptyString => false
  | String _ t => includes t sub
  end.

(** [s.indexOf(sub)], [None] for -1. *)
Fixpoint indexOf (s sub : string) : option nat :=
  if String.prefix sub s then Some 0
  else match s with
       | EmptyString => None
       | String _ t => option_map S (indexOf t sub)
       end.

(** [s.substring(n)] *)
Fixpoint drop (n : nat) (s : string) : string :=
  match n, s with
  | O, _ => s
  | S n', String _ t => drop n' t
  | S _, EmptyString => EmptyString
  end.

(** [s.substring(0, n)] *)
Definition take (n : nat) (s : string) : string := String.substring 0 n s.

(** [arr.includes(x)] on an array of strings. *)
Definition mem (x : string) (l : list string) : bool :=
  existsb (String.eqb x) l.

End JS.

(* ------------------------------------------------------------------------- *)
(** ** Regular expressions

    The matcher is the backtracking one of the language definition, written
    with continuations: alternatives are tried left to right, a greedy
    repetition tries one more iteration before it tries the rest of the
    pattern, and an iteration that consumes nothing is refused. *)

Module Regex.
Import JS.

Inductive re : Type :=
| Eps : re
| Cls : (ascii -> bool) -> re
| Cat : re -> re -> re
| Alt : re -> re -> re
| Star : bool -> re -> re          (* [Star true r] is r*, [Star false r] is r*? *)
| WordB : re                       (* \b *)
| Bol : re                         (* ^ *)
| Eol : re                         (* $ *)
| Grp : nat -> re -> re.           (* the n-th capturing group *)

Record mstate : Type := MState {
  m_prev : option ascii;           (* the character before the position *)
  m_rest : string;                 (* the input from the position on *)
  m_pos : nat;                     (* the position (lastIndex) *)
  m_caps : list (nat * string)     (* the groups that took part, latest first *)
}.

Definition word_at (o : option ascii) : bool :=
  match o with Some c => is_word c | None => false end.

Definition next_char (s : string) : option ascii :=
  match s with String c _ => Some c | EmptyString => None end.

Definition set_cap (n : nat) (v : string) (s : mstate) : mstate :=
  {| m_prev := m_prev s; m_rest := m_rest s; m_pos := m_pos s;
     m_caps := (n, v) :: m_caps s |}.

Definition eat (c : ascii) (t : string) (s : mstate) : mstate :=
  {| m_prev := Some c; m_rest := t; m_pos := S (m_pos s); m_caps := m_caps s |}.

(** The iterations of a repetition: [step] is one match of its body, [n]
    bounds the iterations by the length of the input. *)
Definition star_loop (step : (mstate -> option mstate) -> mstate -> option mstate)
           (greedy : bool) (k : mstate -> option mstate)
  : nat -> mstate -> option mstate :=
  fix loop (n : nat) (s : mstate) {struct n} : option mstate :=
    match n with
    | O => k s
    | S n' =>
        let again :=
          step (fun s' => if m_pos s <? m_pos s' then loop n' s' else None) in
        if greedy
        then match again s with Some x => Some x | None => k s end
        else match k s with Some x => Some x | None => again s end
    end.

Fixpoint run (r : re) (k : mstate -> option mstate) (s : mstate) {struct r}
  : option mstate :=
  match r with
  | Eps => k s
  | Cls p =>
      match m_rest s with
      | String c t => if p c then k (eat c t s) else None
      | EmptyString => None
      end
  | Cat a b => run a (run b k) s
  | Alt a b =>
      match run a k s with
      | Some x => Some x
      | None => run b k s
      end
  | Star greedy a =>
      star_loop (run a) greedy k (S (String.length (m_rest s))) s
  | WordB =>
      if xorb (word_at (m_prev s)) (word_at (next_char (m_rest s)))
      then k s else None
  | Bol => match m_prev s with None => k s | Some _ => None end
  | Eol => match m_rest s with EmptyString => k s | String _ _ => None end
  | Grp n a =>
      run a (fun s' => k (set_cap n (take (m_pos s' - m_pos s) (m_rest s)) s')) s
  end.

(** A match attempt at one position. *)
Definition match_at (r : re) (prev : option ascii) (rest : string) (pos : nat)
  : option mstate :=
  run r (fun s => Some s)
      {| m_prev := prev; m_rest := rest; m_pos := pos; m_caps := [] |}.

(** The leftmost match at or after a position: where it starts and how it ends. *)
Fixpoint search (r : re) (prev : option ascii) (rest : string) (pos : nat)
  : option (nat * mstate) :=
  match match_at r prev rest pos with
  | Some st => Some (pos, st)
  | None =>
      match rest with
      | EmptyString => None
      | String c t => search r (Some c) t (S pos)
      end
  end.

(** [re.test(s)] for a regular expression without the g flag. *)
Definition test (r : re) (s : string) : bool :=
  match search r None s 0 with Some _ => true | None => false end.

(** The value of a group in a match: [None] is undefined. *)
Fixpoint cap (n : nat) (caps : list (nat * string)) : option string :=
  match caps with
  | [] => None
  | (m, v) :: rest => if m =? n then Some v else cap n rest
  end.

(** All the matches of a g-flagged expression, left to right: after a match
    the search resumes where it ended ([skip] counts the characters of the
    input the last match still covers); after an empty match it resumes one
    character further. *)
Fixpoint scan (r : re) (prev : option ascii) (rest : string) (pos skip : nat)
  : list (nat * mstate) :=
  match skip with
  | S k =>
      match rest with
      | EmptyString => []
      | String c t => scan r (Some c) t (S pos) k
      end
  | O =>
      match match_at r prev rest pos with
      | Some st =>
          (pos, st) ::
          match rest with
          | EmptyString => []
          | String c t => scan r (Some c) t (S pos) (m_pos st - pos - 1)
          end
      | None =>
          match rest with
          | EmptyString => []
          | String c t => scan r (Some c) t (S pos) 0
          end
      end
  end.

Definition matchAll (r : re) (s : string) : list (nat * mstate) :=
  scan r None s 0 0.

(** *** Pattern combinators *)

Definition chr (c : ascii) : re := Cls (Ascii.eqb c).
(** a letter under the i flag *)
Definition chr_i (c : ascii) : re := Cls (fun x => Ascii.eqb (upper_char x) (upper_char c)).
Definition plus (g : bool) (r : re) : re := Cat r (Star g r).
Definition opt (r : re) : re := Alt r Eps.
Definition any : re := Cls (fun _ => true).            (* [\s\S] *)
Definition dot : re :=                                 (* . *)
  Cls (fun c => negb ((code c =? 10) || (code c =? 13))).
Definition space : re := Cls is_space.
Definition word : re := Cls is_word.
Definition digit : re := Cls is_digit.

Fixpoint lit (s : string) : re :=
  match s with
  | EmptyString => Eps
  | String c EmptyString => chr c
  | String c t => Cat (chr c) (lit t)
  end.

Fixpoint lit_i (s : string) : re :=
  match s with
  | EmptyString => Eps
  | String c EmptyString => chr_i c
  | String c t => Cat (chr_i c) (lit_i t)
  end.

Fixpoint alts (l : list re) : re :=
  match l with
  | [] => Eps
  | [r] => r
  | r :: l' => Alt r (alts l')
  end.

Fixpoint cats (l : list re) : re :=
  match l with
  | [] => Eps
  | [r] => r
  | r :: l' => Cat r (cats l')
  end.

(** *** Replacement

    [expand] is GetSubstitution: in a replacement text, [$$] is a dollar,
    [$&] the match, [$`] what precedes it, [$'] what follows it, and [$n] or
    [$nn] the n-th group when the pattern has that many. *)

Definition digit_value (c : ascii) : option nat :=
  if is_digit c then Some (code c - 48) else None.

Definition group_text (n : nat) (caps : list (nat * string)) : string :=
  match cap n caps with Some v => v | None => EmptyString end.

Fixpoint expand (groups : nat) (caps : list (nat * string))
         (matched before after template : string) {struct template} : string :=
  match template with
  | EmptyString => EmptyString
  | String c rest =>
      if negb (Ascii.eqb c "$") then
        String c (expand groups caps matched before after rest)
      else
        match rest with
        | EmptyString => "$"
        | String "$" r => String "$" (expand groups caps matched before after r)
        | String "&" r => matched ++ expand groups caps matched before after r
        | String "`" r => before ++ expand groups caps matched before after r
        | String "'" r => after ++ expand groups caps matched before after r
        | String d1 r =>
            let literal := String "$" (expand groups caps matched before after rest) in
            match digit_value d1 with
            | None => literal
            | Some n1 =>
                let one :=
                  if (1 <=? n1) && (n1 <=? groups)
                  then group_text n1 caps ++ expand groups caps matched before after r
                  else literal in
                match r with
                | EmptyString => one
                | String d2 r2 =>
                    match digit_value d2 with
                    | None => one
                    | Some n2 =>
                        if (1 <=? 10 * n1 + n2) && (10 * n1 + n2 <=? groups)
                        then group_text (10 * n1 + n2) caps
                             ++ expand groups caps matched before after r2
                        else one
                    end
                end
            end
        end
  end.

(** [s.replace(pattern, template)] for a string pattern: its first
    occurrence. *)
Definition replace_text (pattern template s : string) : string :=
  match indexOf s pattern with
  | None => s
  | Some i =>
      let before := take i s in
      let after := drop (i + String.length pattern) s in
      before ++ expand 0 [] pattern before after template ++ after
  end.

(** [s.replace(r, template)] for an expression without the g flag. *)
Definition replace (r : re) (groups : nat) (template s : string) : string :=
  match search r None s 0 with
  | None => s
  | Some (start, m) =>
      let before := take start s in
      let matched := take (m_pos m - start) (drop start s) in
      before ++ expand groups (m_caps m) matched before (m_rest m) template
             ++ m_rest m
  end.

(** [s.replace(r, template)] for an expression with the g flag: the matches
    of [scan], each replaced, the text between them kept. *)
Fixpoint replace_scan (r : re) (groups : nat) (template whole : string)
         (prev : option ascii) (rest : string) (pos skip : nat) : string :=
  match skip with
  | S k =>
      match rest with
      | EmptyString => EmptyString
      | String c t => replace_scan r groups template whole (Some c) t (S pos) k
      end
  | O =>
      match match_at r prev rest pos with
      | Some st =>
          expand groups (m_caps st) (take (m_pos st - pos) rest)
                 (take pos whole) (m_rest st) template
          ++ match rest with
             | EmptyString => EmptyString
             | String c t =>
                 if m_pos st =? pos
                 then String c (replace_scan r groups template whole (Some c) t (S pos) 0)
                 else replace_scan r groups template whole (Some c) t (S pos)
                                   (m_pos st - pos - 1)
             end
      | None =>
          match rest with
          | EmptyString => EmptyString
          | String c t =>
              String c (replace_scan r groups template whole (Some c) t (S pos) 0)
          end
      end
  end.

Definition replaceAll (r : re) (groups : nat) (template s : string) : string :=
  replace_scan r groups template s None s 0 0.

End Regex.

(* ------------------------------------------------------------------------- *)
(** ** The runtime: promises, the clock, the database and the LLM provider

    An [async] function is a computation [M A]: from a state of the world it
    produces either a value or a thrown error (its message), and the state the
    world is left in.  An error does not undo what was done before it.

    What the sources cannot decide is supplied by an environment [Env]: whether
    and how slowly the database and the LLM provider answer, the identifiers the
    database generates, the rows of tables that are not modelled, and the
    platform's conversions between text and numbers. *)

Module Runtime.

#[local] Set Warnings "-register-all".

Inductive res (A : Type) : Type :=
| Ok : A -> res A
| Throw : string -> res A.            (* an Error with this message *)
Arguments Ok {A} _.
Arguments Throw {A} _.

(** *** Values *)

Definition number : Type := PrimFloat.float.

Inductive json : Type :=
| JNull : json
| JBool : bool -> json
| JNum : number -> json
| JStr : string -> json
| JArr : list json -> json
| JObj : list (string * json) -> json.

Definition and_then {A B} (r : res A) (f : A -> res B) : res B :=
  match r with
  | Ok a => f a
  | Throw m => Throw m
  end.

(** [types/index.ts] *)
Inductive ProductivityRating : Type := productive | neutral | unproductive.
Inductive ClassificationStatus : Type := pending | approved | rejected.
Inductive AgentType : Type := chat_agent | classification_agent.

Definition rating_name (r : ProductivityRating) : string :=
  match r with
  | productive => "productive"
  | neutral => "neutral"
  | unproductive => "unproductive"
  end.

Definition rating_eqb (a b : ProductivityRating) : bool :=
  match a, b with
  | productive, productive | neutral, neutral | unproductive, unproductive => true
  | _, _ => false
  end.

Definition status_eqb (a b : ClassificationStatus) : bool :=
  match a, b with
  | pending, pending | approved, approved | rejected, rejected => true
  | _, _ => false
  end.

(** [middleware/auth.ts]: the role is whatever string the users table holds. *)
Record AuthenticatedUser : Type := {
  user_id : string;
  user_email : string;
  user_name : string;
  user_role : string;
  user_team_id : string
}.

(** *** Rows of the tables the agents write (the schema's columns that the
    sources use; a DECIMAL column holds the number it was given). *)

Record RuleRow : Type := {
  rule_id : string;
  rule_app_name : string;
  rule_classification : ProductivityRating;
  rule_confidence : number;
  rule_reasoning : option json;
  rule_created_at : Z
}.

Record PendingRow : Type := {
  pend_id : string;
  pend_app_name : string;
  pend_team_id : string;
  pend_suggested : ProductivityRating;
  pend_confidence : number;
  pend_reasoning : json;
  pend_status : ClassificationStatus;
  pend_created_at : Z
}.

Record FeedbackRow : Type := {
  fb_rule_id : string;
  fb_original : ProductivityRating;
  fb_corrected : ProductivityRating
}.

Record AuditRow : Type := {
  audit_id : string;
  audit_agent_type : AgentType;
  audit_user_id : string;
  audit_query : string;
  audit_response : option string;
  audit_sql_generated : option string;
  audit_data_accessed : list string;
  audit_execution_time_ms : option Z;
  audit_success : bool;
  audit_error_message : option string;
  audit_timestamp : Z
}.

(** *** The world *)

Record World : Type := {
  w_time : Z;                                   (* Date.now(), in ms *)
  w_statements : nat;                           (* statements sent to the pool *)
  w_llm_calls : nat;                            (* chat completions requested *)
  w_selects : list (string * list json);        (* SQL text sent by executeQuery *)
  classification_rules : list RuleRow;
  pending_classifications : list PendingRow;
  classification_feedback : list FeedbackRow;
  agent_audit_log : list AuditRow
}.

Record PgResult : Type := { rows : list json; rowCount : option nat }.

Record AppAnalysis : Type := {
  an_appName : string;
  an_totalUsageMinutes : number;
  an_uniqueUsers : number;
  an_avgDurationPerSession : number
}.

Record Env : Type := {
  (* the pool: does the n-th statement fail, and how long does it take *)
  db_error : nat -> option string;
  db_latency : nat -> Z;
  db_new_id : nat -> string;                    (* gen_random_uuid() *)
  db_select : string -> list json -> PgResult;  (* the answer to a SELECT *)
  db_usage : string -> AppAnalysis;             (* what the usage tables hold *)
  (* the provider: the n-th completion, and how long it takes *)
  llm_reply : nat -> res string;
  llm_latency : nat -> Z;
  (* the platform *)
  utc_offset : Z;               (* local time minus UTC, in minutes *)
  JSON_parse : string -> res json;
  StringToNumber : string -> number;            (* Number(text) *)
  NumberToString : number -> string;            (* String(number) *)
  Date_parse : string -> option Z               (* new Date(text); None is NaN *)
}.

(** A computation over a state [S]; [M] is the one over the world, and a
    function with mutable local variables runs over the world and them. *)
Definition ST (S A : Type) : Type := S -> res A * S.

Definition M (A : Type) : Type := ST World A.

Definition ret {S A} (a : A) : ST S A := fun s => (Ok a, s).

Definition bind {S A B} (c : ST S A) (f : A -> ST S B) : ST S B :=
  fun s =>
    match c s with
    | (Ok a, s') => f a s'
    | (Throw m, s') => (Throw m, s')
    end.

Definition throw {S A} (message : string) : ST S A := fun s => (Throw message, s).

(** [try { c } catch (error) { h error.message }] *)
Definition try_catch {S A} (c : ST S A) (h : string -> ST S A) : ST S A :=
  fun s =>
    match c s with
    | (Ok a, s') => (Ok a, s')
    | (Throw m, s') => h m s'
    end.

(** A step that does not wait: it returns or throws on the spot. *)
Definition from_res {S A} (r : res A) : ST S A := fun s => (r, s).

(** A computation over the world, run where there are locals [L] too. *)
Definition lift {L A} (c : M A) : ST (L * World) A :=
  fun s =>
    let (r, w') := c (snd s) in (r, (fst s, w')).

(** Reading and assigning the locals. *)
Definition locals {L} : ST (L * World) L := fun s => (Ok (fst s), s).

Definition assign {L} (f : L -> L) : ST (L * World) unit :=
  fun s => (Ok tt, (f (fst s), snd s)).

(** A function body with locals initialised to [l]. *)
Definition with_locals {L A} (l : L) (c : ST (L * World) A) : M A :=
  fun w =>
    let (r, s') := c (l, w) in (r, snd s').

(** [Date.now()] *)
Definition now : M Z := fun w => (Ok (w_time w), w).

Definition elapse (d : Z) (w : World) : World :=
  {| w_time := w_time w + d;
     w_statements := w_statements w;
     w_llm_calls := w_llm_calls w;
     w_selects := w_selects w;
     classification_rules := classification_rules w;
     pending_classifications := pending_classifications w;
     classification_feedback := classification_feedback w;
     agent_audit_log := agent_audit_log w |}.

Definition count_statement (w : World) : World :=
  {| w_time := w_time w;
     w_statements := S (w_statements w);
     w_llm_calls := w_llm_calls w;
     w_selects := w_selects w;
     classification_rules := classification_rules w;
     pending_classifications := pending_classifications w;
     classification_feedback := classification_feedback w;
     agent_audit_log := agent_audit_log w |}.

Definition count_llm_call (w : World) : World :=
  {| w_time := w_time w;
     w_statements := w_statements w;
     w_llm_calls := S (w_llm_calls w);
     w_selects := w_selects w;
     classification_rules := classification_rules w;
     pending_classifications := pending_classifications w;
     classification_feedback := classification_feedback w;
     agent_audit_log := agent_audit_log w |}.

(** The world once the pool has answered one more statement. *)
Definition answered (e : Env) (w : World) : World :=
  elapse (db_latency e (w_statements w)) (count_statement w).

(** [config/database.ts], [query]: one statement sent to the pool.  [f] is
    what the statement does to the tables and what it returns; it is given
    the number of the statement, by which the environment answers. *)
Definition query {A} (e : Env) (f : nat -> World -> A * World) : M A :=
  fun w =>
    match db_error e (w_statements w) with
    | Some message => (Throw message, answered e w)
    | None =>
        let (a, w2) := f (w_statements w) (answered e w) in (Ok a, w2)
    end.

(** [config/groq.ts], [chat]: one completion. *)
Definition chat (e : Env) : M string :=
  fun w =>
    let n := w_llm_calls w in
    (llm_reply e n, elapse (llm_latency e n) (count_llm_call w)).

(** *** Conversions of parsed JSON *)

Fixpoint lookup (name : string) (fields : list (string * json)) : option json :=
  match fields with
  | [] => None
  | (k, v) :: rest => if (k =? name)%string then Some v else lookup name rest
  end.

(** [value.name]: reading a property of null throws; a property that is
    not there is undefined, [None]. *)
Definition get (value : json) (name : string) : res (option json) :=
  match value with
  | JNull => Throw ("Cannot read properties of null (reading '" ++ name ++ "')")
  | JObj fields => Ok (lookup name fields)
  | _ => Ok None
  end.

(** Whether a value, or undefined, counts as true. *)
Definition truthy (v : option json) : bool :=
  match v with
  | None | Some JNull => false
  | Some (JBool b) => b
  | Some (JNum x) => negb (PrimFloat.is_zero x || PrimFloat.is_nan x)
  | Some (JStr s) => negb (s =? "")%string
  | Some (JArr _) | Some (JObj _) => true
  end.

(** [String(value)].  An object answers "[object Object]" unless a property
    of its own hides [toString], which is then not a function. *)
Fixpoint ToString (e : Env) (v : json) {struct v} : res string :=
  match v with
  | JNull => Ok "null"
  | JBool true => Ok "true"
  | JBool false => Ok "false"
  | JNum x => Ok (NumberToString e x)
  | JStr s => Ok s
  | JArr items =>
      (fix join (l : list json) : res string :=
         let item x := match x with JNull => Ok "" | _ => ToString e x end in
         match l with
         | [] => Ok ""
         | [x] => item x
         | x :: rest =>
             and_then (item x) (fun a =>
             and_then (join rest) (fun b => Ok (a ++ "," ++ b)))
         end) items
  | JObj fields =>
      match lookup "toString" fields with
      | Some _ => Throw "Cannot convert object to primitive value"
      | None => Ok "[object Object]"
      end
  end.

(** [Number(value)] *)
Definition ToNumber (e : Env) (v : json) : res number :=
  match v with
  | JNull => Ok 0%float
  | JBool true => Ok 1%float
  | JBool false => Ok 0%float
  | JNum x => Ok x
  | JStr s => Ok (StringToNumber e s)
  | JArr _ | JObj _ => and_then (ToString e v) (fun s => Ok (StringToNumber e s))
  end.

Definition Math_max (x y : number) : number :=
  if PrimFloat.is_nan x || PrimFloat.is_nan y then PrimFloat.nan
  else if (x <? y)%float then y
  else if (y <? x)%float then x
  else if PrimFloat.get_sign x then y else x.      (* +0 is above -0 *)

Definition Math_min (x y : number) : number :=
  if PrimFloat.is_nan x || PrimFloat.is_nan y then PrimFloat.nan
  else if (x <? y)%float then x
  else if (y <? x)%float then y
  else if PrimFloat.get_sign x then x else y.      (* -0 is below +0 *)

End Runtime.

Declare Scope js_scope.
Delimit Scope js_scope with js.
Notation "x <- c ;; k" := (Runtime.bind c (fun x => k))
  (at level 61, c at next level, right associativity) : js_scope.
Notation "c ;;; k" := (Runtime.bind c (fun _ => k))
  (at level 61, right associativity) : js_scope.

(* ------------------------------------------------------------------------- *)
(** ** [src/services/queryExecutor.ts] *)

Module QueryExecutor.
Import JS Regex Runtime.
Local Open Scope js_scope.

Definition ALLOWED_TABLES : list string :=
  [ "users"; "teams"; "daily_usage"; "app_usage"; "projects"; "project_time";
    "classification_rules" ].

(** [/\bWORD\b/i] *)
Definition keyword (w : string) : re := cats [WordB; lit_i w; WordB].

(** Each pattern with its [source], which the error message quotes. *)
Definition DANGEROUS_PATTERNS : list (string * re) :=
  [ ("\bDROP\b", keyword "DROP");
    ("\bDELETE\b", keyword "DELETE");
    ("\bTRUNCATE\b", keyword "TRUNCATE");
    ("\bINSERT\b", keyword "INSERT");
    ("\bUPDATE\b", keyword "UPDATE");
    ("\bALTER\b", keyword "ALTER");
    ("\bCREATE\b", keyword "CREATE");
    ("\bGRANT\b", keyword "GRANT");
    ("\bREVOKE\b", keyword "REVOKE");
    (";\s*\w", cats [chr ";"; Star true space; word]);
    ("--", lit "--");
    ("\/\*", lit "/*") ].

Record QueryValidationResult : Type := {
  valid : bool;
  error : option string;
  tablesAccessed : list string
}.

Record QueryResult : Type := {
  qr_rows : list json;
  qr_rowCount : nat;
  qr_tablesAccessed : list string;
  qr_executionTimeMs : Z
}.

(** [/\bFROM\s+(\w+)|\bJOIN\s+(\w+)/gi] *)
Definition tablePattern : re :=
  Alt (cats [WordB; lit_i "FROM"; plus true space; Grp 1 (plus true word)])
      (cats [WordB; lit_i "JOIN"; plus true space; Grp 2 (plus true word)]).

(** [(match[1] || match[2]).toLowerCase()]; one of the two groups took part
    in every match of [tablePattern], and it is not empty. *)
Definition tableName (m : mstate) : string :=
  toLowerCase
    match cap 1 (m_caps m) with
    | Some (String c t) => String c t
    | _ => match cap 2 (m_caps m) with Some v => v | None => EmptyString end
    end.

(** The table names the [while] loop goes through, in the order of the text.
    No match of [tablePattern] is empty, so the loop over [exec] visits the
    same matches as [matchAll]. *)
Definition tableNames (sql : string) : list string :=
  map (fun m => tableName (snd m)) (matchAll tablePattern sql).

(** [if (!tables.includes(tableName)) tables.push(tableName)] *)
Definition push_new (tables : list string) (t : string) : list string :=
  if mem t tables then tables else (tables ++ [t])%list.

Definition validateQuery (sql : string) : QueryValidationResult :=
  match find (fun p => test (snd p) sql) DANGEROUS_PATTERNS with
  | Some pattern =>
      {| valid := false;
         error := Some ("Query contains forbidden pattern: " ++ fst pattern);
         tablesAccessed := [] |}
  | None =>
      if negb (startsWith (toUpperCase (trim sql)) "SELECT") then
        {| valid := false;
           error := Some "Only SELECT queries are allowed";
           tablesAccessed := [] |}
      else
        let tables := fold_left push_new (tableNames sql) [] in
        match find (fun table => negb (mem table ALLOWED_TABLES)) tables with
        | Some table =>
            {| valid := false;
               error := Some ("Access to table '" ++ table ++ "' is not allowed");
               tablesAccessed := tables |}
        | None =>
            {| valid := true; error := None; tablesAccessed := tables |}
        end
  end.



Definition error_text (o : option string) : string :=
  match o with Some m => m | None => "undefined" end.


End QueryExecutor.

(* ------------------------------------------------------------------------- *)
(** ** [src/middleware/rbac.ts] *)

Module RBAC.
Import JS Runtime.

Record RBACFilter : Type := {
  userFilter : string;
  teamFilter : string;
  params : list json
}.

(** The decimal numeral of an array index or length, as a template prints it. *)
Definition decimal (n : nat) : string :=
  NilEmpty.string_of_uint (Nat.to_uint n).

Definition getRBACFilters (user : AuthenticatedUser) (paramOffset : nat)
  : res RBACFilter :=
  if (user_role user =? "admin")%string then
    Ok {| userFilter := "1=1"; teamFilter := "1=1"; params := [] |}
  else if (user_role user =? "manager")%string then
    Ok {| userFilter :=
            "user_id IN (SELECT id FROM users WHERE team_id = $"
            ++ decimal (paramOffset + 1) ++ ")";
          teamFilter := "team_id = $" ++ decimal (paramOffset + 1);
          params := [JStr (user_team_id user)] |}
  else if (user_role user =? "employee")%string then
    Ok {| userFilter := "user_id = $" ++ decimal (paramOffset + 1);
          teamFilter := "team_id = $" ++ decimal (paramOffset + 1);
          params := [JStr (user_id user)] |}
  else
    Throw ("Unknown role: " ++ user_role user).

End RBAC.

(* ------------------------------------------------------------------------- *)
(** ** [src/services/auditLogger.ts] *)

Module AuditLogger.
Import JS Runtime.

(** An absent field is [None]. *)
Record AuditLogEntry : Type := {
  agentType : AgentType;
  userId : string;
  queryText : string;
  response : option string;
  sqlGenerated : option string;
  dataAccessed : option (list string);
  executionTimeMs : option Z;
  success : option bool;
  errorMessage : option string
}.

(** [text || null] *)
Definition text_or_null (o : option string) : option string :=
  match o with
  | Some EmptyString => None
  | other => other
  end.

(** [ms || null] *)
Definition ms_or_null (o : option Z) : option Z :=
  match o with
  | Some 0%Z => None
  | other => other
  end.

Definition audit_row (id : string) (timestamp : Z) (entry : AuditLogEntry)
  : AuditRow :=
  {| audit_id := id;
     audit_agent_type := agentType entry;
     audit_user_id := userId entry;
     audit_query := queryText entry;
     audit_response := text_or_null (response entry);
     audit_sql_generated := text_or_null (sqlGenerated entry);
     audit_data_accessed :=
       match dataAccessed entry with Some l => l | None => [] end;
     audit_execution_time_ms := ms_or_null (executionTimeMs entry);
     audit_success := match success entry with Some b => b | None => true end;
     audit_error_message := text_or_null (errorMessage entry);
     audit_timestamp := timestamp |}.

Definition add_audit_row (r : AuditRow) (w : World) : World :=
  {| w_time := w_time w;
     w_statements := w_statements w;
     w_llm_calls := w_llm_calls w;
     w_selects := w_selects w;
     classification_rules := classification_rules w;
     pending_classifications := pending_classifications w;
     classification_feedback := classification_feedback w;
     agent_audit_log := (agent_audit_log w ++ [r])%list |}.

(** INSERT INTO agent_audit_log (...) VALUES ($1, ..., $9) RETURNING id *)
Definition logAgentAction (e : Env) (entry : AuditLogEntry) : M string :=
  query e (fun n w =>
    let id := db_new_id e n in
    (id, add_audit_row (audit_row id (w_time w) entry) w)).

End AuditLogger.

(* ------------------------------------------------------------------------- *)
(** ** [src/agents/classification/feedback.ts] *)

Module Feedback.
Import JS Runtime.
Local Open Scope js_scope.

Record FeedbackStats : Type := {
  totalApprovals : number;
  totalRejections : number;
  totalOverrides : number;
  approvalRate : number;
  accuracy_productive : number;
  accuracy_neutral : number;
  accuracy_unproductive : number
}.

Record Thresholds : Type := { autoApprove : number; requireReview : number }.

(** [parseInt] of the decimal text the driver returns for a COUNT, which is
    a bigint: the double nearest to it. *)
Definition count_number (n : nat) : number :=
  PrimFloat.of_uint63 (Uint63.of_Z (Z.of_nat n)).

Definition count_status (s : ClassificationStatus) (l : list PendingRow) : nat :=
  List.length (filter (fun p => status_eqb (pend_status p) s) l).

(** SELECT status, COUNT( * ) as count FROM pending_classifications
    WHERE status != 'pending' GROUP BY status
    A status with no row forms no group. *)
Definition status_counts (w : World) : list (ClassificationStatus * nat) :=
  filter (fun g => 0 <? snd g)
    [ (approved, count_status approved (pending_classifications w));
      (rejected, count_status rejected (pending_classifications w)) ].

(** SELECT COUNT( * ) as count FROM classification_feedback *)
Definition feedback_count (w : World) : nat :=
  List.length (classification_feedback w).

(** SELECT original_classification, COUNT( * ) as total,
           SUM(CASE WHEN original = corrected THEN 1 ELSE 0 END) as correct
    FROM classification_feedback GROUP BY original_classification *)
Definition accuracy_groups (w : World) : list (ProductivityRating * nat * nat) :=
  let group r :=
    let g := filter (fun f => rating_eqb (fb_original f) r)
                    (classification_feedback w) in
    (r, List.length g,
     List.length (filter (fun f => rating_eqb (fb_original f) (fb_corrected f)) g)) in
  filter (fun g => 0 <? snd (fst g)) [group productive; group neutral; group unproductive].

(** The first loop of [getFeedbackStats]. *)
Definition tally (rows : list (ClassificationStatus * nat)) : number * number :=
  fold_left
    (fun acc row =>
       match fst row with
       | approved => (count_number (snd row), snd acc)
       | rejected => (fst acc, count_number (snd row))
       | pending => acc
       end)
    rows (0%float, 0%float).

(** The second loop. *)
Definition accuracies (rows : list (ProductivityRating * nat * nat))
  : number * number * number :=
  fold_left
    (fun acc row =>
       let '(p, n, u) := acc in
       let '(classification, total, correct) := row in
       let accuracy := (count_number correct / count_number total)%float in
       match classification with
       | productive => (accuracy, n, u)
       | neutral => (p, accuracy, u)
       | unproductive => (p, n, accuracy)
       end)
    rows (1%float, 1%float, 1%float).

Definition getFeedbackStats (e : Env) : M FeedbackStats :=
  statusResult <- query e (fun _ w => (status_counts w, w)) ;;
  let '(totalApprovals, totalRejections) := tally statusResult in
  overrideResult <- query e (fun _ w => (feedback_count w, w)) ;;
  let totalOverrides := count_number overrideResult in
  accuracyResult <- query e (fun _ w => (accuracy_groups w, w)) ;;
  let '(p, n, u) := accuracies accuracyResult in
  let total := (totalApprovals + totalRejections)%float in
  let approvalRate :=
    if (0 <? total)%float then (totalApprovals / total)%float else 0%float in
  ret {| totalApprovals := totalApprovals;
         totalRejections := totalRejections;
         totalOverrides := totalOverrides;
         approvalRate := approvalRate;
         accuracy_productive := p;
         accuracy_neutral := n;
         accuracy_unproductive := u |}.

(** The thresholds chosen from the statistics. *)
Definition adjust (stats : FeedbackStats) : Thresholds :=
  let autoApprove :=
    if (50 <=? totalApprovals stats + totalRejections stats)%float then
      if (0.95 <? approvalRate stats)%float then 0.85%float
      else if (approvalRate stats <? 0.8)%float then 0.95%float
      else 0.9%float
    else 0.9%float in
  {| autoApprove := autoApprove; requireReview := 0.7%float |}.

Definition getAdjustedConfidenceThresholds (e : Env) : M Thresholds :=
  stats <- getFeedbackStats e ;;
  ret (adjust stats).

End Feedback.

(* ------------------------------------------------------------------------- *)
(** ** [src/agents/classification/classifier.ts] *)

Module Classifier.
Import JS Regex Runtime.
Local Open Scope js_scope.

Record ClassificationResult : Type := {
  classification : ProductivityRating;
  confidence : number;
  reasoning : json;
  factors : json
}.

(** The regular expression that finds a fenced block: three backquotes, an
    optional "json", [\s*], the group [([\s\S]*?)], three backquotes. *)
Definition fence : re :=
  cats [lit "```"; opt (lit "json"); Star true space;
        Grp 1 (Star false any); lit "```"].

(** [jsonStr]: the inside of the first fenced block, or the whole response. *)
Definition jsonStr (response : string) : string :=
  match search fence None response 0 with
  | Some (_, m) =>
      match cap 1 (m_caps m) with Some inside => inside | None => EmptyString end
  | None => response
  end.

(** [value?.toLowerCase()?.trim()], then the two comparisons.  Calling
    [toLowerCase] on a value that is neither a string nor null nor undefined
    throws. *)
Definition normalizeClassification (value : option json) : res ProductivityRating :=
  match value with
  | None | Some JNull => Ok neutral
  | Some (JStr s) =>
      let normalized := trim (toLowerCase s) in
      if (normalized =? "productive")%string then Ok productive
      else if (normalized =? "unproductive")%string then Ok unproductive
      else Ok neutral
  | Some _ => Throw "value?.toLowerCase is not a function"
  end.

(** [value || fallback] *)
Definition or_else (value : option json) (fallback : json) : json :=
  match value with
  | Some v => if truthy value then v else fallback
  | None => fallback
  end.

(** The body of the [try] block. *)
Definition interpret (e : Env) (response : string) : res ClassificationResult :=
  and_then (JSON_parse e (trim (jsonStr response))) (fun result =>
  and_then (get result "classification") (fun c =>
  and_then (normalizeClassification c) (fun classification =>
  and_then (get result "confidence") (fun conf =>
  and_then (ToNumber e (or_else conf (JNum 0.5%float))) (fun confidence =>
  and_then (get result "reasoning") (fun reasoning =>
  and_then (get result "factors") (fun factors =>
  Ok {| classification := classification;
        confidence := Math_min (Math_max confidence 0%float) 1%float;
        reasoning := or_else reasoning (JStr "No reasoning provided");
        factors := or_else factors (JArr []) |}))))))).

(** What the [catch] block returns. *)
Definition unparsed : ClassificationResult :=
  {| classification := neutral;
     confidence := 0.3%float;
     reasoning := JStr "Unable to classify automatically - requires manual review";
     factors := JArr [JStr "parsing_error"] |}.

(** The [try] and its [catch]: what is returned for a reply. *)
Definition classified (e : Env) (response : string) : ClassificationResult :=
  match interpret e response with
  | Ok result => result
  | Throw _ => unparsed
  end.

(** The prompt is built from the analysis; the reply is the provider's. *)
Definition classifyApp (e : Env) (analysis : AppAnalysis)
  : M ClassificationResult :=
  response <- chat e ;;
  ret (classified e response).

End Classifier.

(* ------------------------------------------------------------------------- *)
(** ** [src/agents/classification/index.ts] *)

Module Classification.
Import JS Runtime AuditLogger Feedback Classifier.
Local Open Scope js_scope.

Record ClassificationSuggestion : Type := {
  id : string;
  appName : string;
  suggestedClassification : ProductivityRating;
  suggestion_confidence : number;
  suggestion_reasoning : json;
  suggestion_factors : json;
  requiresApproval : bool;
  createdAt : Z
}.

(** SELECT * FROM classification_rules
    WHERE LOWER(app_name) = LOWER($1) LIMIT 1 *)
Definition existing_rules (appName : string) (w : World) : list RuleRow :=
  firstn 1
    (filter (fun r => (toLowerCase (rule_app_name r) =? toLowerCase appName)%string)
            (classification_rules w)).

(** [analyzer.ts], [analyzeAppUsage]: four SELECTs over the usage tables,
    which change nothing; what they find is the environment's. *)
Definition analyzeAppUsage (e : Env) (appName : string) : M AppAnalysis :=
  query e (fun _ w => (tt, w)) ;;;
  query e (fun _ w => (tt, w)) ;;;
  query e (fun _ w => (tt, w)) ;;;
  query e (fun _ w => (tt, w)) ;;;
  ret (db_usage e appName).

Definition add_pending (r : PendingRow) (w : World) : World :=
  {| w_time := w_time w;
     w_statements := w_statements w;
     w_llm_calls := w_llm_calls w;
     w_selects := w_selects w;
     classification_rules := classification_rules w;
     pending_classifications := (pending_classifications w ++ [r])%list;
     classification_feedback := classification_feedback w;
     agent_audit_log := agent_audit_log w |}.

Definition add_rule (r : RuleRow) (w : World) : World :=
  {| w_time := w_time w;
     w_statements := w_statements w;
     w_llm_calls := w_llm_calls w;
     w_selects := w_selects w;
     classification_rules := (classification_rules w ++ [r])%list;
     pending_classifications := pending_classifications w;
     classification_feedback := classification_feedback w;
     agent_audit_log := agent_audit_log w |}.

(** INSERT INTO pending_classifications
    (app_name, team_id, suggested_classification, confidence, reasoning, status)
    VALUES ($1, $2, $3, $4, $5, 'pending') RETURNING * *)
Definition insert_pending (e : Env) (appName team : string)
           (result : ClassificationResult) : M PendingRow :=
  query e (fun n w =>
    let row := {| pend_id := db_new_id e n;
                  pend_app_name := appName;
                  pend_team_id := team;
                  pend_suggested := classification result;
                  pend_confidence := confidence result;
                  pend_reasoning := reasoning result;
                  pend_status := pending;
                  pend_created_at := w_time w |} in
    (row, add_pending row w)).

(** INSERT INTO classification_rules (app_name, classification, confidence,
    reasoning) VALUES ($1, $2, $3, $4) RETURNING * *)
Definition insert_rule (e : Env) (appName : string)
           (result : ClassificationResult) : M RuleRow :=
  query e (fun n w =>
    let row := {| rule_id := db_new_id e n;
                  rule_app_name := appName;
                  rule_classification := classification result;
                  rule_confidence := confidence result;
                  rule_reasoning := Some (reasoning result);
                  rule_created_at := w_time w |} in
    (row, add_rule row w)).

Definition verdict (e : Env) (label : string) (result : ClassificationResult)
  : string :=
  label ++ rating_name (classification result)
        ++ " (confidence: " ++ NumberToString e (confidence result) ++ ")".

Definition classifyNewApp (e : Env) (appName : string) (user : AuthenticatedUser)
  : M ClassificationSuggestion :=
  startTime <- now ;;
  try_catch
    (existingRule <- query e (fun _ w => (existing_rules appName w, w)) ;;
     match existingRule with
     | rule :: _ =>
         ret {| id := rule_id rule;
                appName := rule_app_name rule;
                suggestedClassification := rule_classification rule;
                suggestion_confidence := rule_confidence rule;
                suggestion_reasoning :=
                  or_else (rule_reasoning rule) (JStr "Existing classification rule");
                suggestion_factors := JArr [JStr "existing_rule"];
                requiresApproval := false;
                createdAt := rule_created_at rule |}
     | [] =>
         analysis <- analyzeAppUsage e appName ;;
         result <- classifyApp e analysis ;;
         thresholds <- getAdjustedConfidenceThresholds e ;;
         if (confidence result <? autoApprove thresholds)%float then
           pending <- insert_pending e appName (user_team_id user) result ;;
           finished <- now ;;
           logAgentAction e
             {| agentType := classification_agent;
                userId := user_id user;
                queryText := "Classify app: " ++ appName;
                response := Some (verdict e "Suggested: " result);
                sqlGenerated := None;
                dataAccessed := None;
                executionTimeMs := Some (finished - startTime)%Z;
                success := Some true;
                errorMessage := None |} ;;;
           ret {| id := pend_id pending;
                  appName := appName;
                  suggestedClassification := classification result;
                  suggestion_confidence := confidence result;
                  suggestion_reasoning := reasoning result;
                  suggestion_factors := factors result;
                  requiresApproval := true;
                  createdAt := pend_created_at pending |}
         else
           rule <- insert_rule e appName result ;;
           finished <- now ;;
           logAgentAction e
             {| agentType := classification_agent;
                userId := user_id user;
                queryText := "Classify app: " ++ appName;
                response := Some (verdict e "Auto-approved: " result);
                sqlGenerated := None;
                dataAccessed := None;
                executionTimeMs := Some (finished - startTime)%Z;
                success := Some true;
                errorMessage := None |} ;;;
           ret {| id := rule_id rule;
                  appName := appName;
                  suggestedClassification := classification result;
                  suggestion_confidence := confidence result;
                  suggestion_reasoning := reasoning result;
                  suggestion_factors := factors result;
                  requiresApproval := false;
                  createdAt := rule_created_at rule |}
     end)
    (fun error =>
       finished <- now ;;
       logAgentAction e
         {| agentType := classification_agent;
            userId := user_id user;
            queryText := "Classify app: " ++ appName;
            response := None;
            sqlGenerated := None;
            dataAccessed := None;
            executionTimeMs := Some (finished - startTime)%Z;
            success := Some false;
            errorMessage := Some error |} ;;;
       throw error).

End Classification.

(* ------------------------------------------------------------------------- *)
(** ** JavaScript dates

    A [Date] is its time value, the milliseconds since the epoch in UTC.  The
    local-time methods see it through the offset of the process's time zone,
    which the model takes as fixed ([utc_offset], in minutes, positive east of
    Greenwich); [toISOString] prints it in UTC. *)

Module Dates.
Import Runtime.
Local Open Scope Z_scope.

Definition msPerDay : Z := 86400000.

Definition DayFromYear (y : Z) : Z :=
  365 * (y - 1970) + (y - 1969) / 4 - (y - 1901) / 100 + (y - 1601) / 400.

Definition InLeapYear (y : Z) : bool :=
  (y mod 4 =? 0) && (negb (y mod 100 =? 0) || (y mod 400 =? 0)).

(** Days of the year before the month with index [m] (0 is January). *)
Definition DaysBeforeMonth (y m : Z) : Z :=
  let leap := if InLeapYear y then 1 else 0 in
  match m with
  | 0 => 0 | 1 => 31 | 2 => 59 + leap | 3 => 90 + leap | 4 => 120 + leap
  | 5 => 151 + leap | 6 => 181 + leap | 7 => 212 + leap | 8 => 243 + leap
  | 9 => 273 + leap | 10 => 304 + leap | _ => 334 + leap
  end.

(** [MakeDay(year, month, date)]: the month may lie outside the year and the
    date outside the month. *)
Definition MakeDay (year month date : Z) : Z :=
  let ym := year + month / 12 in
  let mn := month mod 12 in
  DayFromYear ym + DaysBeforeMonth ym mn + date - 1.

Record civil : Type := { year : Z; month : Z; day : Z }.   (* month from 0 *)

(** The calendar date of a day number. *)
Definition civil_of_day (z : Z) : civil :=
  let z := z + 719468 in
  let era := z / 146097 in
  let doe := z - era * 146097 in
  let yoe := (doe - doe / 1460 + doe / 36524 - doe / 146096) / 365 in
  let doy := doe - (365 * yoe + yoe / 4 - yoe / 100) in
  let mp := (5 * doy + 2) / 153 in
  let d := doy - (153 * mp + 2) / 5 + 1 in
  let m := if mp <? 10 then mp + 3 else mp - 9 in
  {| year := yoe + era * 400 + (if m <=? 2 then 1 else 0);
     month := m - 1;
     day := d |}.

(** A test that holds of [n] consecutive day numbers. *)
Fixpoint every_day (n : nat) (from : Z) (p : Z -> bool) : bool :=
  match n with
  | O => true
  | S k => p from && every_day k (from + 1) p
  end.

Definition Day (t : Z) : Z := t / msPerDay.
Definition TimeWithinDay (t : Z) : Z := t mod msPerDay.
Definition LocalTime (e : Env) (t : Z) : Z := t + utc_offset e * 60000.
Definition UTC (e : Env) (local : Z) : Z := local - utc_offset e * 60000.

Definition getFullYear (e : Env) (t : Z) : Z := year (civil_of_day (Day (LocalTime e t))).
Definition getMonth (e : Env) (t : Z) : Z := month (civil_of_day (Day (LocalTime e t))).
Definition getDate (e : Env) (t : Z) : Z := day (civil_of_day (Day (LocalTime e t))).
(** 0 is Sunday; the epoch was a Thursday. *)
Definition getDay (e : Env) (t : Z) : Z := (Day (LocalTime e t) + 4) mod 7.

(** [new Date(y, m, d)]: local midnight; a year from 0 to 99 means 19xx. *)
Definition Date_of (e : Env) (y m d : Z) : Z :=
  let y := if (0 <=? y) && (y <=? 99) then 1900 + y else y in
  UTC e (MakeDay y m d * msPerDay).

Definition setDate (e : Env) (t d : Z) : Z :=
  UTC e (MakeDay (getFullYear e t) (getMonth e t) d * msPerDay
         + TimeWithinDay (LocalTime e t)).

Definition setMonth (e : Env) (t m : Z) : Z :=
  UTC e (MakeDay (getFullYear e t) m (getDate e t) * msPerDay
         + TimeWithinDay (LocalTime e t)).

Definition setFullYear (e : Env) (t y : Z) : Z :=
  UTC e (MakeDay y (getMonth e t) (getDate e t) * msPerDay
         + TimeWithinDay (LocalTime e t)).

Definition setHours (e : Env) (t h m s ms : Z) : Z :=
  UTC e (Day (LocalTime e t) * msPerDay + ((h * 60 + m) * 60 + s) * 1000 + ms).

(** A time value beyond 100 million days from the epoch is Invalid Date. *)
Definition valid (t : Z) : bool := Z.abs t <=? 8640000000000000.

Definition show (n : Z) : string := NilZero.string_of_int (Z.to_int n).

(** [String(n).padStart(width, "0")] *)
Definition padStart (width : nat) (s : string) : string :=
  (String.concat "" (repeat "0" (width - String.length s)) ++ s)%string.

Definition pad2 (n : Z) : string := padStart 2 (show n).

(** [date.toISOString().split("T")[0]] *)
Definition isoDate (t : Z) : string :=
  let c := civil_of_day (Day t) in
  let sign := if year c <? 0 then "-"%string else "+"%string in
  let y :=
    if (0 <=? year c) && (year c <=? 9999) then padStart 4 (show (year c))
    else String.append sign (padStart 6 (show (Z.abs (year c)))) in
  let mm := pad2 (month c + 1) in
  let dd := pad2 (day c) in
  (y ++ "-" ++ mm ++ "-" ++ dd)%string.

(** The same with the RangeError of an Invalid Date. *)
Definition toISODate (t : Z) : res string :=
  if valid t then Ok (isoDate t) else Throw "Invalid time value".

End Dates.

(* ------------------------------------------------------------------------- *)
(** ** [src/agents/chat/parser.ts] *)

Module Parser.
Import JS Regex Runtime Dates.
Local Open Scope js_scope.

Record ParsedQuery : Type := {
  intent : json;
  entity : option json;
  metrics : json;
  filters : list (string * json);
  groupBy : option json;
  orderBy : option json;
  limit : option json
}.

Record DateContext : Type := {
  ctx_today : string;
  ctx_yesterday : string;
  ctx_lastWeekStart : string;
  ctx_lastWeekEnd : string;
  ctx_thisWeekStart : string;
  ctx_lastMonthStart : string;
  ctx_lastMonthEnd : string;
  ctx_last30Days : string;
  ctx_last7Days : string
}.

Definition DateRange : Type := (string * string)%type.     (* start, end *)

(** [formatDate] *)
Definition formatDate (date : Z) : string := isoDate date.

Definition getDateContext (e : Env) (now : Z) : DateContext :=
  let today := Date_of e (getFullYear e now) (getMonth e now) (getDate e now) in
  let yesterday := setDate e today (getDate e today - 1) in
  let lastWeekEnd := setDate e today (getDate e today - getDay e today) in
  let lastWeekStart := setDate e lastWeekEnd (getDate e lastWeekEnd - 6) in
  let thisWeekStart := setDate e today (getDate e today - getDay e today + 1) in
  let lastMonthEnd := Date_of e (getFullYear e today) (getMonth e today) 0 in
  let lastMonthStart := Date_of e (getFullYear e today) (getMonth e today - 1) 1 in
  let last30Days := setDate e today (getDate e today - 30) in
  let last7Days := setDate e today (getDate e today - 7) in
  {| ctx_today := formatDate today;
     ctx_yesterday := formatDate yesterday;
     ctx_lastWeekStart := formatDate lastWeekStart;
     ctx_lastWeekEnd := formatDate lastWeekEnd;
     ctx_thisWeekStart := formatDate thisWeekStart;
     ctx_lastMonthStart := formatDate lastMonthStart;
     ctx_lastMonthEnd := formatDate lastMonthEnd;
     ctx_last30Days := formatDate last30Days;
     ctx_last7Days := formatDate last7Days |}.

Definition monthNames : list string :=
  [ "january"; "february"; "march"; "april"; "may"; "june"; "july"; "august";
    "september"; "october"; "november"; "december" ].

Fixpoint findIndex {A} (f : A -> bool) (l : list A) : option Z :=
  match l with
  | [] => None
  | x :: rest => if f x then Some 0%Z else option_map Z.succ (findIndex f rest)
  end.

(** [parseInt(digits, 10)] for a run of decimal digits. *)
Definition parseInt (digits : string) : Z :=
  let fix go (s : string) (acc : Z) : Z :=
    match s with
    | EmptyString => acc
    | String c t => go t (10 * acc + Z.of_nat (code c) - 48)%Z
    end in
  go digits 0%Z.

(** The text a match covers. *)
Definition matched (s : string) (m : nat * mstate) : string :=
  take (m_pos (snd m) - fst m) (drop (fst m) s).

Definition group (n : nat) (m : nat * mstate) : string :=
  match cap n (m_caps (snd m)) with Some v => v | None => EmptyString end.

(** "YYYY-MM-01" and "YYYY-MM-DD" as the templates build them from the
    local fields of a date. *)
Definition firstOf (e : Env) (d : Z) : string :=
  show (getFullYear e d) ++ "-" ++ pad2 (getMonth e d + 1) ++ "-01".

Definition ymd (e : Env) (d : Z) : string :=
  show (getFullYear e d) ++ "-" ++ pad2 (getMonth e d + 1) ++ "-" ++ pad2 (getDate e d).

(** The fallback of several branches: the last 30 days. *)
Definition last30 (e : Env) (today : Z) : res DateRange :=
  let from := setHours e (setDate e today (getDate e today - 30)) 0 0 0 0 in
  and_then (toISODate from) (fun s =>
  and_then (toISODate today) (fun t => Ok (s, t))).

(** [/from\s+(.+?)\s+to\s+(.+)/] *)
Definition fromTo : re :=
  cats [lit "from"; plus true space; Grp 1 (plus false dot); plus true space;
        lit "to"; plus true space; Grp 2 (plus true dot)].

Definition parseFromToRange (e : Env) (relative : string) (today : Z)
  : res DateRange :=
  let lower := toLowerCase relative in
  match search fromTo None lower 0 with
  | None => Throw ("Could not parse date range: " ++ relative)
  | Some fromMatch =>
      let fromPart := trim (group 1 fromMatch) in
      let toPart := trim (group 2 fromMatch) in
      if includes fromPart "last month" && includes toPart "this month" then
        let lastMonth := Date_of e (getFullYear e today) (getMonth e today - 1) 1 in
        and_then (toISODate today) (fun t => Ok (firstOf e lastMonth, t))
      else
        match findIndex (fun m => includes fromPart m) monthNames,
              findIndex (fun m => includes toPart m) monthNames with
        | Some fromMonthIndex, Some toMonthIndex =>
            let year := getFullYear e today in
            let fromDate := Date_of e year fromMonthIndex 1 in
            let toDate := Date_of e year (toMonthIndex + 1) 0 in
            Ok (firstOf e fromDate, ymd e toDate)
        | _, _ =>
            (* new Date(text): inside a try of its own, whose catch falls
               back to the last 30 days *)
            match Date_parse e fromPart, Date_parse e toPart with
            | Some fromDate, Some toDate =>
                match toISODate fromDate, toISODate toDate with
                | Ok s, Ok t => Ok (s, t)
                | _, _ => last30 e today
                end
            | _, _ => last30 e today
            end
        end
  end.

(** [/(?:q|quarter)\s*(\d+)/i] *)
Definition quarterNumber : re :=
  cats [Alt (lit_i "q") (lit_i "quarter"); Star true space; Grp 1 (plus true digit)].

(** [/(\d+)\s*(month|week|day|year)/] *)
Definition numberOfUnits : re :=
  cats [Grp 1 (plus true digit); Star true space;
        Grp 2 (alts [lit "month"; lit "week"; lit "day"; lit "year"])].

Definition same (a b : string) : bool := String.eqb a b.

Definition parseRelativeDate (e : Env) (now : Z) (relative : string)
  : res DateRange :=
  let today := setHours e now 23 59 59 999 in
  let lower := trim (toLowerCase relative) in
  if includes lower "from" && includes lower "to" then
    parseFromToRange e relative today
  else if same lower "last month" || same lower "previous month" then
    let lastMonth := Date_of e (getFullYear e today) (getMonth e today - 1) 1 in
    let lastDayOfLastMonth := Date_of e (getFullYear e today) (getMonth e today) 0 in
    Ok (firstOf e lastMonth, ymd e lastDayOfLastMonth)
  else if same lower "this month" || same lower "current month" then
    let firstDayOfMonth := Date_of e (getFullYear e today) (getMonth e today) 1 in
    and_then (toISODate today) (fun t => Ok (firstOf e firstDayOfMonth, t))
  else if same lower "last week" || same lower "previous week" then
    let dayOfWeek := getDay e today in
    let daysToLastMonday := (if dayOfWeek =? 0 then 6 else dayOfWeek - 1)%Z in
    let lastMonday := setDate e today (getDate e today - daysToLastMonday - 7) in
    let lastSunday :=
      setHours e (setDate e lastMonday (getDate e lastMonday + 6)) 23 59 59 999 in
    and_then (toISODate lastMonday) (fun s =>
    and_then (toISODate lastSunday) (fun t => Ok (s, t)))
  else if same lower "this week" || same lower "current week" then
    let dayOfWeek := getDay e today in
    let daysToMonday := (if dayOfWeek =? 0 then 6 else dayOfWeek - 1)%Z in
    let thisMonday :=
      setHours e (setDate e today (getDate e today - daysToMonday)) 0 0 0 0 in
    and_then (toISODate thisMonday) (fun s =>
    and_then (toISODate today) (fun t => Ok (s, t)))
  else if same lower "last quarter" || same lower "previous quarter" then
    let currentMonth := getMonth e today in
    let currentYear := getFullYear e today in
    let '(quarterStartMonth, quarterEndMonth, year) :=
      (if currentMonth <=? 2 then (9, 11, currentYear - 1)
       else if currentMonth <=? 5 then (0, 2, currentYear)
       else if currentMonth <=? 8 then (3, 5, currentYear)
       else (6, 8, currentYear))%Z in
    let from := Date_of e year quarterStartMonth 1 in
    let to := Date_of e year (quarterEndMonth + 1) 0 in
    Ok (firstOf e from, ymd e to)
  else if same lower "this quarter" || same lower "current quarter" then
    let currentMonth := getMonth e today in
    let quarterStartMonth :=
      (if currentMonth <=? 2 then 0 else if currentMonth <=? 5 then 3
       else if currentMonth <=? 8 then 6 else 9)%Z in
    let from := Date_of e (getFullYear e today) quarterStartMonth 1 in
    and_then (toISODate today) (fun t => Ok (firstOf e from, t))
  else if same lower "last year" || same lower "previous year" then
    let lastYear := (getFullYear e today - 1)%Z in
    Ok (show lastYear ++ "-01-01", show lastYear ++ "-12-31")
  else if same lower "this year" || same lower "current year" then
    and_then (toISODate today) (fun t =>
      Ok (show (getFullYear e today) ++ "-01-01", t))
  else
    let quarter :=
      match search quarterNumber None lower 0 with
      | Some m =>
          let quarterNum := parseInt (group 1 m) in
          if ((1 <=? quarterNum) && (quarterNum <=? 4))%Z then Some quarterNum
          else None
      | None => None
      end in
    match quarter with
    | Some quarterNum =>
        let currentQuarter := (getMonth e today / 3 + 1)%Z in
        let year :=
          (if currentQuarter <? quarterNum then getFullYear e today - 1
           else getFullYear e today)%Z in
        let quarterStartMonth := ((quarterNum - 1) * 3)%Z in
        let from := Date_of e year quarterStartMonth 1 in
        let to := Date_of e year (quarterStartMonth + 2 + 1) 0 in
        Ok (firstOf e from, ymd e to)
    | None =>
        match search numberOfUnits None lower 0 with
        | Some m =>
            let number := parseInt (group 1 m) in
            let unit := group 2 m in
            let from :=
              if same unit "month" then setMonth e today (getMonth e today - number)
              else if same unit "week" then setDate e today (getDate e today - number * 7)
              else if same unit "day" then setDate e today (getDate e today - number)
              else setFullYear e today (getFullYear e today - number) in
            if valid from then
              and_then (toISODate (setHours e from 0 0 0 0)) (fun s =>
              and_then (toISODate today) (fun t => Ok (s, t)))
            else Throw "Invalid time value"
        | None =>
            match findIndex (fun month => same lower month || includes lower month)
                            monthNames with
            | Some monthIndex =>
                let currentMonth := getMonth e today in
                let year :=
                  (if currentMonth <? monthIndex then getFullYear e today - 1
                   else getFullYear e today)%Z in
                let firstDay := Date_of e year monthIndex 1 in
                let lastDay := Date_of e year (monthIndex + 1) 0 in
                Ok (firstOf e firstDay, ymd e lastDay)
            | None => last30 e today
            end
        end
    end.

(** The regular expression of [extractDateRange]:
    (?:last|this|previous|current|from\s+.+?\s+to)\s+
    (?:month|week|quarter|year|\d+\s+(?:month|week|day|year)s?
      |(?:january|...|december)|q\d+|quarter\s+\d+)      with the flags gi *)
Definition relativeExpression : re :=
  cats
    [ alts [ lit_i "last"; lit_i "this"; lit_i "previous"; lit_i "current";
             cats [lit_i "from"; plus true space; plus false dot;
                   plus true space; lit_i "to"] ];
      plus true space;
      alts [ lit_i "month"; lit_i "week"; lit_i "quarter"; lit_i "year";
             cats [ plus true digit; plus true space;
                    alts [lit_i "month"; lit_i "week"; lit_i "day"; lit_i "year"];
                    opt (lit_i "s") ];
             alts (map lit_i monthNames);
             cats [lit_i "q"; plus true digit];
             cats [lit_i "quarter"; plus true space; plus true digit] ] ].

Definition extractDateRange (e : Env) (now : Z) (query : string)
           (dateCtx : DateContext) : DateRange :=
  let lowerQuery := toLowerCase query in
  if includes lowerQuery "last week" || includes lowerQuery "past week" then
    (ctx_lastWeekStart dateCtx, ctx_lastWeekEnd dateCtx)
  else if includes lowerQuery "this week" then
    (ctx_thisWeekStart dateCtx, ctx_today dateCtx)
  else if includes lowerQuery "last month" || includes lowerQuery "past month" then
    (ctx_lastMonthStart dateCtx, ctx_lastMonthEnd dateCtx)
  else if includes lowerQuery "yesterday" then
    (ctx_yesterday dateCtx, ctx_yesterday dateCtx)
  else if includes lowerQuery "today" then
    (ctx_today dateCtx, ctx_today dateCtx)
  else if includes lowerQuery "last 7 days" || includes lowerQuery "past 7 days" then
    (ctx_last7Days dateCtx, ctx_today dateCtx)
  else if includes lowerQuery "last 30 days" || includes lowerQuery "past 30 days" then
    (ctx_last30Days dateCtx, ctx_today dateCtx)
  else
    let fallback := (ctx_last30Days dateCtx, ctx_today dateCtx) in
    match search relativeExpression None lowerQuery 0 with
    | Some first =>
        match parseRelativeDate e now (trim (matched lowerQuery first)) with
        | Ok range => range
        | Throw _ => fallback
        end
    | None => fallback
    end.

Definition inferDateRange := extractDateRange.

(** [/^\d{4}-\d{2}-\d{2}$/] *)
Definition dateRegex : re :=
  cats [Bol; digit; digit; digit; digit; chr "-"; digit; digit; chr "-";
        digit; digit; Eol].

(** [dateRegex.test(value)], which converts its argument to a string. *)
Definition isDate (e : Env) (value : option json) : res bool :=
  match value with
  | None => Ok (test dateRegex "undefined")
  | Some v => and_then (ToString e v) (fun s => Ok (test dateRegex s))
  end.

(** [value?.name] *)
Definition get_opt (value : option json) (name : string) : res (option json) :=
  match value with
  | None | Some JNull => Ok None
  | Some v => get v name
  end.

(** The properties [{...value}] copies. *)
Fixpoint indexed (n : nat) (l : list json) : list (string * json) :=
  match l with
  | [] => []
  | x :: rest => (RBAC.decimal n, x) :: indexed (S n) rest
  end.

Fixpoint characters (s : string) : list json :=
  match s with
  | EmptyString => []
  | String c t => JStr (String c EmptyString) :: characters t
  end.

Definition spread (value : option json) : list (string * json) :=
  match value with
  | Some (JObj fields) => fields
  | Some (JArr items) => indexed 0 items
  | Some (JStr s) => indexed 0 (characters s)
  | _ => []
  end.

Fixpoint set_field (name : string) (v : json) (fields : list (string * json))
  : list (string * json) :=
  match fields with
  | [] => [(name, v)]
  | (k, old) :: rest =>
      if (k =? name)%string then (k, v) :: rest
      else (k, old) :: set_field name v rest
  end.

Definition range_json (r : DateRange) : json :=
  JObj [("start", JStr (fst r)); ("end", JStr (snd r))].

(** The body of the [try] block of [parseQuery]. *)
Definition readParsed (e : Env) (now : Z) (userQuery response : string)
           (dateCtx : DateContext) : res ParsedQuery :=
  and_then (JSON_parse e (trim (Classifier.jsonStr response))) (fun parsed =>
  and_then (get parsed "filters") (fun parsedFilters =>
  and_then (get_opt parsedFilters "dateRange") (fun given =>
  let inferred := range_json (inferDateRange e now userQuery dateCtx) in
  and_then
    (match given with
     | Some range =>
         if truthy given then
           and_then (get range "start") (fun s =>
           and_then (isDate e s) (fun startOk =>
           if negb startOk then Ok inferred
           else
             and_then (get range "end") (fun t =>
             and_then (isDate e t) (fun endOk =>
             if negb endOk then Ok inferred else Ok range))))
         else Ok inferred
     | None => Ok inferred
     end) (fun dateRange =>
  and_then (get parsed "intent") (fun i =>
  and_then (get parsed "entity") (fun en =>
  and_then (get parsed "metrics") (fun ms =>
  and_then (get parsed "groupBy") (fun g =>
  and_then (get parsed "orderBy") (fun o =>
  and_then (get parsed "limit") (fun l =>
  Ok {| intent := Classifier.or_else i (JStr "unknown");
        entity := en;
        metrics := Classifier.or_else ms (JArr []);
        filters := set_field "dateRange" dateRange (spread parsedFilters);
        groupBy := Some (Classifier.or_else g (JArr []));
        orderBy := o;
        limit := l |})))))))))).

Definition listOf (name : string) : ParsedQuery :=
  {| intent := JStr "list";
     entity := Some (JStr name);
     metrics := JArr [];
     filters := [];
     groupBy := None;
     orderBy := None;
     limit := None |}.

Definition unknownQuery : ParsedQuery :=
  {| intent := JStr "unknown";
     entity := None;
     metrics := JArr [];
     filters := [];
     groupBy := None;
     orderBy := None;
     limit := None |}.

(** The conversation history only feeds the prompt. *)
Definition parseQuery (e : Env) (userQuery : string) : M ParsedQuery :=
  let lowerQuery := toLowerCase userQuery in
  let direct :=
    if includes lowerQuery "list" || includes lowerQuery "show" then
      if includes lowerQuery "project" && negb (includes lowerQuery "time") then
        Some (listOf "projects")
      else if includes lowerQuery "team" && negb (includes lowerQuery "member") then
        Some (listOf "teams")
      else if includes lowerQuery "user" || includes lowerQuery "employee"
              || includes lowerQuery "member" then
        Some (listOf "users")
      else if includes lowerQuery "classification" || includes lowerQuery "rule" then
        Some (listOf "classification_rules")
      else if includes lowerQuery "app" || includes lowerQuery "application" then
        Some (listOf "apps")
      else None
    else None in
  match direct with
  | Some parsed => ret parsed
  | None =>
      current <- now ;;
      let dateCtx := getDateContext e current in
      response <- chat e ;;
      later <- now ;;
      ret match readParsed e later userQuery response dateCtx with
          | Ok parsed => parsed
          | Throw _ => unknownQuery
          end
  end.

End Parser.

(* ------------------------------------------------------------------------- *)
(** ** [src/agents/chat/sqlGenerator.ts]: what [generateSQL] does to the SQL
    the LLM returned *)

Module SqlGenerator.
Import JS Regex Runtime.

Definition globalTables : list string :=
  [ "projects"; "teams"; "classification_rules"; "pending_classifications" ].

Definition getRBACFilter (user : AuthenticatedUser) (sql : option string) : string :=
  let isGlobalQuery :=
    match sql with
    | None | Some EmptyString => false
    | Some text =>
        existsb (fun table =>
                   includes (toLowerCase text) ("from " ++ table)
                   || includes (toLowerCase text) ("from " ++ table ++ " ")
                   || includes (toLowerCase text) ("from " ++ table ++ ",")
                   || includes (toLowerCase text) ("from " ++ table ++ ")"))
                globalTables
    end in
  if isGlobalQuery then "1=1"
  else if (user_role user =? "admin")%string then "1=1"
  else if (user_role user =? "manager")%string then
    "user_id IN (SELECT id FROM users WHERE team_id = '" ++ user_team_id user ++ "')"
  else if (user_role user =? "employee")%string then
    "user_id = '" ++ user_id user ++ "'"
  else "1=0".

(** [/WHERE\s+/i] *)
Definition whereClause : re := cats [lit_i "WHERE"; plus true space].

(** [/GROUP BY/i], [/ORDER BY/i], [/LIMIT/i] *)
Definition insertPoints : list re :=
  [lit_i "GROUP BY"; lit_i "ORDER BY"; lit_i "LIMIT"].

(** The part under the comment "Apply RBAC filter". *)
Definition applyRBAC (user : AuthenticatedUser) (sql : string) : string :=
  let rbacFilter := getRBACFilter user (Some sql) in
  if includes sql "{RBAC_FILTER}" then
    replace_text "{RBAC_FILTER}" rbacFilter sql
  else if test whereClause sql then
    replace whereClause 0 ("WHERE " ++ rbacFilter ++ " AND ") sql
  else
    match find (fun point => test point sql) insertPoints with
    | Some point => replace point 0 ("WHERE " ++ rbacFilter ++ " $&") sql
    | None => trimEnd sql ++ " WHERE " ++ rbacFilter
    end.

(** [/AND\s+AND/gi] and [/WHERE\s+AND/gi] *)
Definition andAnd : re := cats [lit_i "AND"; plus true space; lit_i "AND"].
Definition whereAnd : re := cats [lit_i "WHERE"; plus true space; lit_i "AND"].

(** [SUM\((\w+)\)\s*\/\s*NULLIF\(SUM\((\w+)\),\s*0\)] *)
Definition sumRatio : list re :=
  [ lit_i "SUM("; Grp 1 (plus true word); chr ")"; Star true space; chr "/";
    Star true space; lit_i "NULLIF(SUM("; Grp 2 (plus true word); lit "),";
    Star true space; lit "0)" ].

Definition sumDivision : re := cats sumRatio.

(** [COALESCE\(] the same [,\s*0\)] *)
Definition coalescedDivision : re :=
  cats ((lit_i "COALESCE(" :: sumRatio) ++ [chr ","; Star true space; lit "0)"])%list.

(** [/::float\s*\//gi] *)
Definition floatDivision : re := cats [lit_i "::float"; Star true space; chr "/"].

Definition notClosing : re := Cls (fun c => negb (Ascii.eqb c ")")).

(** [/ROUND\(\s*\(([^)]+)\)\s*,\s*(\d+)\)/gi] *)
Definition roundCall : re :=
  cats [ lit_i "ROUND("; Star true space; chr "("; Grp 1 (plus true notClosing);
         chr ")"; Star true space; chr ","; Star true space;
         Grp 2 (plus true digit); chr ")" ].

(** [/ROUND\(\s*\(([^)]+)\s*,\s*(\d+)\)/gi] *)
Definition roundCallUnclosed : re :=
  cats [ lit_i "ROUND("; Star true space; chr "("; Grp 1 (plus true notClosing);
         Star true space; chr ","; Star true space;
         Grp 2 (plus true digit); chr ")" ].

(** The two replacements under "Clean up any double AND or syntax issues". *)
Definition cleanUp (sql : string) : string :=
  replaceAll whereAnd 0 "WHERE" (replaceAll andAnd 0 "AND" sql).

(** The replacements under "Fix integer division issues". *)
Definition fixDivision (sql : string) : string :=
  let sql := replaceAll sumDivision 2 "SUM($1)::numeric / NULLIF(SUM($2), 0)" sql in
  let sql :=
    replaceAll coalescedDivision 2
               "COALESCE(SUM($1)::numeric / NULLIF(SUM($2), 0), 0)" sql in
  replaceAll floatDivision 0 "::numeric /" sql.

(** The replacements under "Fix ROUND function parentheses". *)
Definition fixRound (sql : string) : string :=
  replaceAll roundCallUnclosed 2 "ROUND(($1), $2)"
             (replaceAll roundCall 2 "ROUND(($1), $2)" sql).

(** From [generated.sql] to the [sql] that is returned. *)
Definition postProcess (user : AuthenticatedUser) (sql : string) : string :=
  fixRound (fixDivision (cleanUp (applyRBAC user sql))).

End SqlGenerator.

(* ------------------------------------------------------------------------- *)
(** ** [src/agents/chat/index.ts] *)

Module Chat.
Import JS Runtime AuditLogger.
Local Open Scope js_scope.

Inductive QueryType : Type := data | general.

Record GeneratedSQL : Type := {
  sql : string;
  sql_params : list json;
  description : string
}.

Record Explained : Type := {
  explained_answer : string;
  summary_dateRange : option string
}.

Record Explanation : Type := {
  explanation_sql : string;
  explanation_rowCount : nat;
  explanation_dateRange : string;
  explanation_tablesAccessed : list string
}.

Record ChatResponse : Type := {
  answer : string;
  explanation : Explanation;
  confidence : number;
  isGeneralQuery : option bool
}.

(** [query.split(' ').length]: one more than the number of spaces. *)
Fixpoint spaces (s : string) : nat :=
  match s with
  | EmptyString => 0
  | String c t => (if Ascii.eqb c " " then 1 else 0) + spaces t
  end.

Definition shortConversational : list string :=
  [ "hi"; "hello"; "hey"; "thanks"; "thank you"; "ok"; "okay"; "yes"; "no"; "bye" ].

Definition classifyQueryType (e : Env) (query : string) : M QueryType :=
  let lowerQuery := trim (toLowerCase query) in
  if (spaces query + 1 <=? 2)
     && existsb (fun word => includes lowerQuery word) shortConversational then
    ret general
  else
    response <- chat e ;;
    let classification := toLowerCase (trim response) in
    if (classification =? "general")%string then ret general else ret data.

Definition handleGeneralQuery (e : Env) (query : string) (user : AuthenticatedUser)
  : M string :=
  chat e.

(** [value.length > 0] *)
Definition hasLength (e : Env) (v : json) : res bool :=
  match v with
  | JArr items => Ok (0 <? List.length items)
  | JStr s => Ok (0 <? String.length s)
  | JObj fields =>
      match lookup "length" fields with
      | Some n => and_then (ToNumber e n) (fun x => Ok (0 <? x)%float)
      | None => Ok false
      end
  | _ => Ok false
  end.

Definition calculateConfidence (e : Env) (parsedQuery : Parser.ParsedQuery)
           (result : QueryExecutor.QueryResult) : res number :=
  let confidence := 0.5%float in
  let confidence :=
    match Parser.intent parsedQuery with
    | JStr "unknown" => confidence
    | _ => (confidence + 0.2)%float
    end in
  let confidence :=
    if 0 <? QueryExecutor.qr_rowCount result then (confidence + 0.2)%float
    else confidence in
  and_then
    (if truthy (Some (Parser.metrics parsedQuery))
     then hasLength e (Parser.metrics parsedQuery) else Ok false)
    (fun specific =>
       Ok (Math_min (if specific then (confidence + 0.1)%float else confidence)
                    1%float)).

(** The variables [handleChatQuery] assigns inside its [try] and reads in
    its [catch]. *)
Record Locals : Type := {
  var_sqlGenerated : string;
  var_tablesAccessed : list string
}.

Definition failure (sqlGenerated errorMessage : string) : ChatResponse :=
  {| answer := "I couldn't process your query. " ++ errorMessage;
     explanation :=
       {| explanation_sql :=
            match sqlGenerated with EmptyString => "Not generated" | s => s end;
          explanation_rowCount := 0;
          explanation_dateRange := "N/A";
          explanation_tablesAccessed := [] |};
     confidence := 0%float;
     isGeneralQuery := None |}.

Section Handler.

(** The three collaborators whose code is not modelled: any computation
    may stand for them. *)
Variable generateSQL : Parser.ParsedQuery -> AuthenticatedUser -> M GeneratedSQL.
Variable executeQueryWithTimeout :
  string -> list json -> Z -> M QueryExecutor.QueryResult.
Variable explainResults :
  string -> string -> QueryExecutor.QueryResult -> M Explained.

(** The [try] block. *)
Definition attempt (e : Env) (userQuery : string) (user : AuthenticatedUser)
           (timeout startTime : Z) : ST (Locals * World) ChatResponse :=
  queryType <- lift (classifyQueryType e userQuery) ;;
  match queryType with
  | general =>
      generalResponse <- lift (handleGeneralQuery e userQuery user) ;;
      finished <- lift now ;;
      lift (logAgentAction e
        {| agentType := chat_agent;
           userId := user_id user;
           queryText := userQuery;
           response := Some generalResponse;
           sqlGenerated := None;
           dataAccessed := Some [];
           executionTimeMs := Some (finished - startTime)%Z;
           success := Some true;
           errorMessage := None |}) ;;;
      ret {| answer := generalResponse;
             explanation :=
               {| explanation_sql := "N/A (general conversation)";
                  explanation_rowCount := 0;
                  explanation_dateRange := "N/A";
                  explanation_tablesAccessed := [] |};
             confidence := 1%float;
             isGeneralQuery := Some true |}
  | data =>
      parsedQuery <- lift (Parser.parseQuery e userQuery) ;;
      generated <- lift (generateSQL parsedQuery user) ;;
      assign (fun l => {| var_sqlGenerated := sql generated;
                          var_tablesAccessed := var_tablesAccessed l |}) ;;;
      let validation := QueryExecutor.validateQuery (sql generated) in
      if negb (QueryExecutor.valid validation) then
        throw ("Invalid SQL: "
               ++ QueryExecutor.error_text (QueryExecutor.error validation))
      else
        assign (fun l =>
          {| var_sqlGenerated := var_sqlGenerated l;
             var_tablesAccessed := QueryExecutor.tablesAccessed validation |}) ;;;
        result <- lift (executeQueryWithTimeout
                          (sql generated) (sql_params generated) timeout) ;;
        explained <- lift (explainResults userQuery (description generated)
                                          result) ;;
        l <- locals ;;
        confidence <- from_res (calculateConfidence e parsedQuery result) ;;
        finished <- lift now ;;
        lift (logAgentAction e
          {| agentType := chat_agent;
             userId := user_id user;
             queryText := userQuery;
             response := Some (explained_answer explained);
             sqlGenerated := Some (var_sqlGenerated l);
             dataAccessed := Some (var_tablesAccessed l);
             executionTimeMs := Some (finished - startTime)%Z;
             success := Some true;
             errorMessage := None |}) ;;;
        ret {| answer := explained_answer explained;
               explanation :=
                 {| explanation_sql := sql generated;
                    explanation_rowCount := QueryExecutor.qr_rowCount result;
                    explanation_dateRange :=
                      match text_or_null (summary_dateRange explained) with
                      | Some range => range
                      | None => "Not specified"
                      end;
                    explanation_tablesAccessed := var_tablesAccessed l |};
               confidence := confidence;
               isGeneralQuery := None |}
  end.

(** The [catch] block. *)
Definition recover (e : Env) (userQuery : string) (user : AuthenticatedUser)
           (startTime : Z) (errorMessage : string)
  : ST (Locals * World) ChatResponse :=
  l <- locals ;;
  finished <- lift now ;;
  lift (logAgentAction e
    {| agentType := chat_agent;
       userId := user_id user;
       queryText := userQuery;
       response := None;
       sqlGenerated := text_or_null (Some (var_sqlGenerated l));
       dataAccessed := Some (var_tablesAccessed l);
       executionTimeMs := Some (finished - startTime)%Z;
       success := Some false;
       errorMessage := Some errorMessage |}) ;;;
  ret (failure (var_sqlGenerated l) errorMessage).

Definition handleChatQuery (e : Env) (userQuery : string)
           (user : AuthenticatedUser) (timeout : Z) : M ChatResponse :=
  startTime <- now ;;
  with_locals {| var_sqlGenerated := ""; var_tablesAccessed := [] |}
    (try_catch (attempt e userQuery user timeout startTime)
               (recover e userQuery user startTime)).

End Handler.

End Chat.

(* ------------------------------------------------------------------------- *)
(** ** Words separated by white space

    The patterns of the clean-up step are words, compared without case, with
    [\s+] between them.  This module reads such a pattern directly off the
    text; the properties show that the matcher of [Regex] does the same. *)

Module Words.
Import JS Regex.

(** The expression for the words [ws] with [\s+] between them, under the i flag. *)
Fixpoint separated (ws : list string) : list re :=
  match ws with
  | [] => []
  | [w] => [lit_i w]
  | w :: rest => lit_i w :: plus true space :: separated rest
  end.

Definition pattern (ws : list string) : re := cats (separated ws).

(** The state of a match after [n] more characters. *)
Fixpoint consume (n : nat) (s : mstate) : mstate :=
  match n with
  | O => s
  | S k =>
      match m_rest s with
      | EmptyString => s
      | String c t => consume k (eat c t s)
      end
  end.

Definition same_letter (a c : ascii) : bool :=
  Ascii.eqb (upper_char c) (upper_char a).

(** What follows the word [w] at the start of [x]. *)
Fixpoint after_word (w x : string) : option string :=
  match w with
  | EmptyString => Some x
  | String a w' =>
      match x with
      | EmptyString => None
      | String c x' => if same_letter a c then after_word w' x' else None
      end
  end.

(** What follows a run of at least one white-space character. *)
Definition after_spaces (x : string) : option string :=
  match x with
  | EmptyString => None
  | String c t => if is_space c then Some (trimStart t) else None
  end.

(** The number of characters in [p] that [x] begins with. *)
Fixpoint leading (p : ascii -> bool) (x : string) : nat :=
  match x with
  | EmptyString => 0
  | String c t => if p c then S (leading p t) else 0
  end.

(** Whether every character of [x] is in [p]. *)
Fixpoint every (p : ascii -> bool) (x : string) : bool :=
  match x with
  | EmptyString => true
  | String c t => p c && every p t
  end.

(** The number of white-space characters [x] begins with. *)
Fixpoint spaces (x : string) : nat :=
  match x with
  | EmptyString => 0
  | String c t => if is_space c then S (spaces t) else 0
  end.

(** [x] is white space and then the word [w]. *)
Definition spaced (w x : string) : bool :=
  match after_spaces x with
  | Some z => match after_word w z with Some _ => true | None => false end
  | None => false
  end.

(** Whether the letter [h] is among the letters of [u]. *)
Fixpoint has_letter (h : ascii) (u : string) : bool :=
  match u with
  | EmptyString => false
  | String a u' => same_letter a h || has_letter h u'
  end.

(** A word that begins with something else than white space. *)
Definition solid (w : string) : bool :=
  match w with
  | EmptyString => false
  | String a _ => negb (is_space (upper_char a))
  end.

(** What follows the words [ws], separated by white space. *)
Fixpoint after_words (ws : list string) (x : string) : option string :=
  match ws with
  | [] => Some x
  | [w] => after_word w x
  | w :: rest =>
      match after_word w x with
      | None => None
      | Some y =>
          match after_spaces y with
          | None => None
          | Some z => after_words rest z
          end
      end
  end.

Definition starts (ws : list string) (x : string) : bool :=
  match after_words ws x with Some _ => true | None => false end.

(** Whether the words occur somewhere in [x]. *)
Fixpoint occurs (ws : list string) (x : string) : bool :=
  starts ws x
  || match x with
     | EmptyString => false
     | String _ t => occurs ws t
     end.

(** Every occurrence met from left to right replaced by [ins]; [skip] counts
    the characters the last occurrence still covers. *)
Fixpoint collapse (ws : list string) (ins x : string) (skip : nat) : string :=
  match skip with
  | S k =>
      match x with
      | EmptyString => EmptyString
      | String _ t => collapse ws ins t k
      end
  | O =>
      match after_words ws x with
      | Some y =>
          ins ++ match x with
                 | EmptyString => EmptyString
                 | String _ t =>
                     collapse ws ins t (String.length x - String.length y - 1)
                 end
      | None =>
          match x with
          | EmptyString => EmptyString
          | String c t => String c (collapse ws ins t 0)
          end
      end
  end.

(** One pass that replaces every [w \s+ v] by [w]. *)
Definition pass (w v x : string) : string := collapse [w; v] w x 0.

End Words.

(* ------------------------------------------------------------------------- *)
(** ** What the specification describes

    Definitions that follow the words of the specification rather than the
    code; the properties compare the code with them. *)

Module Described.
Import Runtime.

Definition approvals (w : World) : number :=
  Feedback.count_number
    (Feedback.count_status approved (pending_classifications w)).

Definition rejections (w : World) : number :=
  Feedback.count_number
    (Feedback.count_status rejected (pending_classifications w)).

(** Approved over approved plus rejected, 0 when there is no review yet. *)
Definition approvalRate (w : World) : number :=
  let total := (approvals w + rejections w)%float in
  if (0 <? total)%float then (approvals w / total)%float else 0%float.

(** The auto-approval threshold in force. *)
Definition autoApprove (w : World) : number :=
  if (50 <=? approvals w + rejections w)%float then
    if (0.95 <? approvalRate w)%float then 0.85%float
    else if (approvalRate w <? 0.8)%float then 0.95%float
    else 0.9%float
  else 0.9%float.

(** A confidence within the interval from 0 to 1. *)
Definition in_unit_interval (x : number) : bool :=
  ((0 <=? x) && (x <=? 1))%float.

(** What [\w+] matches as a whole. *)
Definition identifier (x : string) : bool :=
  match x with
  | EmptyString => false
  | String _ _ => Words.every JS.is_word x
  end.

(** The division of two sums, as the model is told to write it, and with the
    cast on the numerator. *)
Definition sumOverSum (x y : string) : string :=
  "SUM(" ++ x ++ ") / NULLIF(SUM(" ++ y ++ "), 0)".

Definition castSumOverSum (x y : string) : string :=
  "SUM(" ++ x ++ ")::numeric / NULLIF(SUM(" ++ y ++ "), 0)".

(** Three ANDs in a row: [/AND\s+AND\s+AND/i]. *)
Definition tripleAnd : Regex.re := Words.pattern ["AND"; "AND"; "AND"].

(** The Monday that begins the week before the one a day lies in, by day
    number (day 0, the epoch, was a Thursday). *)
Definition previous_monday (day : Z) : Z :=
  (day - (day + 3) mod 7 - 7)%Z.

End Described.

(* ------------------------------------------------------------------------- *)
(** ** Concrete environments and worlds, for the examples *)

Module Fixtures.
Import JS Runtime.

Definition quote : string := String (ascii_of_nat 34) EmptyString.

Definition quoted (s : string) : string := quote ++ s ++ quote.

(** A reply whose confidence is a word rather than a number. *)
Definition reply_high : string :=
  "{" ++ quoted "classification" ++ ": " ++ quoted "productive" ++ ", "
      ++ quoted "confidence" ++ ": " ++ quoted "high" ++ "}".

Definition parsed_high : json :=
  JObj [("classification", JStr "productive"); ("confidence", JStr "high")].

(** A reply with a numeric confidence. *)
Definition reply_sure : string :=
  "{" ++ quoted "classification" ++ ": " ++ quoted "unproductive" ++ ", "
      ++ quoted "confidence" ++ ": 0.97, "
      ++ quoted "reasoning" ++ ": " ++ quoted "a game" ++ "}".

Definition parsed_sure : json :=
  JObj [("classification", JStr "unproductive"); ("confidence", JNum 0.97%float);
        ("reasoning", JStr "a game")].

Definition all_digits (s : string) : bool :=
  negb (s =? "")%string
  && (toLowerCase s =? toUpperCase s)%string
  && Regex.test (Regex.cats [Regex.Bol; Regex.plus true Regex.digit; Regex.Eol]) s.

(** An environment where the database and the provider always answer, the
    provider with [reply].  Its JSON parser knows the two replies above and
    its [Number] the unsigned decimal numerals. *)
Definition server (offset : Z) (reply : string) : Env :=
  {| db_error := fun _ => None;
     db_latency := fun _ => 4%Z;
     db_new_id := fun n => "row-" ++ RBAC.decimal n;
     db_select := fun _ _ => {| rows := []; rowCount := Some 0 |};
     db_usage := fun app =>
       {| an_appName := app;
          an_totalUsageMinutes := 120%float;
          an_uniqueUsers := 3%float;
          an_avgDurationPerSession := 10%float |};
     llm_reply := fun _ => Ok reply;
     llm_latency := fun _ => 250%Z;
     utc_offset := offset;
     JSON_parse := fun text =>
       if (text =? reply_high)%string then Ok parsed_high
       else if (text =? reply_sure)%string then Ok parsed_sure
       else Throw "Unexpected token";
     StringToNumber := fun text =>
       if all_digits text
       then PrimFloat.of_uint63 (Uint63.of_Z (Parser.parseInt text))
       else PrimFloat.nan;
     NumberToString := fun _ => "0.97";
     Date_parse := fun _ => None |}.

Definition alice : AuthenticatedUser :=
  {| user_id := "u-1"; user_email := "alice@example.com"; user_name := "Alice";
     user_role := "manager"; user_team_id := "t-1" |}.

Definition slack_rule : RuleRow :=
  {| rule_id := "r-1"; rule_app_name := "Slack";
     rule_classification := productive; rule_confidence := 0.9%float;
     rule_reasoning := None; rule_created_at := 0%Z |}.

(** 2025-12-17T15:00:00Z, a Wednesday; and the Sunday after it. *)
Definition wednesday : Z := (20439 * 86400000 + 15 * 3600000)%Z.
Definition sunday : Z := (20443 * 86400000 + 15 * 3600000)%Z.

Definition world (time : Z) (rules : list RuleRow) : World :=
  {| w_time := time;
     w_statements := 0;
     w_llm_calls := 0;
     w_selects := [];
     classification_rules := rules;
     pending_classifications := [];
     classification_feedback := [];
     agent_audit_log := [] |}.

Definition reviewed (status : ClassificationStatus) : PendingRow :=
  {| pend_id := "p"; pend_app_name := "Editor"; pend_team_id := "t-1";
     pend_suggested := productive; pend_confidence := 0.8%float;
     pend_reasoning := JStr "an editor"; pend_status := status;
     pend_created_at := 0%Z |}.

(** A review history of 58 approvals and 2 rejections. *)
Definition trusted_world : World :=
  {| w_time := wednesday;
     w_statements := 0;
     w_llm_calls := 0;
     w_selects := [];
     classification_rules := [];
     pending_classifications :=
       (repeat (reviewed approved) 58 ++ repeat (reviewed rejected) 2)%list;
     classification_feedback := [];
     agent_audit_log := [] |}.

(** Collaborators of [handleChatQuery] that answer at once. *)
Definition generated_ok (pq : Parser.ParsedQuery) (u : AuthenticatedUser)
  : M Chat.GeneratedSQL :=
  ret {| Chat.sql := "SELECT name FROM teams WHERE 1=1";
         Chat.sql_params := [];
         Chat.description := "All teams" |}.

Definition executed_ok (sql : string) (params : list json) (timeout : Z)
  : M QueryExecutor.QueryResult :=
  ret {| QueryExecutor.qr_rows := [];
         QueryExecutor.qr_rowCount := 0;
         QueryExecutor.qr_tablesAccessed := ["teams"];
         QueryExecutor.qr_executionTimeMs := 1%Z |}.

Definition timed_out (sql : string) (params : list json) (timeout : Z)
  : M QueryExecutor.QueryResult :=
  throw "Query timeout".

Definition explained_ok (q d : string) (r : QueryExecutor.QueryResult)
  : M Chat.Explained :=
  ret {| Chat.explained_answer := "There are no teams.";
         Chat.summary_dateRange := None |}.

End Fixtures.

(* ------------------------------------------------------------------------- *)
(** ** [src/agents/chat/sqlGenerator.ts]: matching team names

    The scores and the cells of the distance matrix are small whole numbers,
    held here as natural numbers. *)

Module Teams.
Import JS Regex Runtime.

(** [for (let x = from; x < from + n; x++) body] *)
Fixpoint for_loop {T : Type} (n from : nat) (body : nat -> T -> T) (s : T) : T :=
  match n with
  | O => s
  | S k => for_loop k (S from) body (body from s)
  end.

(** A matrix of numbers whose cells start as [null]. *)
Definition Matrix : Type := list (list (option nat)).

Definition cell (m : Matrix) (j i : nat) : option nat := nth i (nth j m []) None.

(** [null + 1] is 1: in arithmetic [null] counts as 0. *)
Definition value (c : option nat) : nat :=
  match c with Some n => n | None => 0 end.

Fixpoint set_nth {A : Type} (n : nat) (v : A) (l : list A) : list A :=
  match l, n with
  | [], _ => []
  | _ :: rest, O => v :: rest
  | x :: rest, S k => x :: set_nth k v rest
  end.

(** [matrix[j][i] = v], for indices within the matrix (the loops below stay
    within it). *)
Definition assign_cell (m : Matrix) (j i v : nat) : Matrix :=
  set_nth j (set_nth i (Some v) (nth j m [])) m.

(** [str1[i] === str2[j]] *)
Definition same_unit (str1 : string) (i : nat) (str2 : string) (j : nat) : bool :=
  match String.get i str1, String.get j str2 with
  | Some a, Some b => Ascii.eqb a b
  | None, None => true
  | _, _ => false
  end.

Definition min3 (a b c : nat) : nat := Nat.min (Nat.min a b) c.

(** A matrix of [rows] rows of [cols] cells. *)
Definition shaped (rows cols : nat) (m : Matrix) : Prop :=
  List.length m = rows /\ forall j, j < rows -> List.length (nth j m []) = cols.

(** The body of the inner loop. *)
Definition fill_cell (str1 str2 : string) (j i : nat) (matrix : Matrix) : Matrix :=
  let indicator := if same_unit str1 (i - 1) str2 (j - 1) then 0 else 1 in
  assign_cell matrix j i
    (min3 (value (cell matrix j (i - 1)) + 1)            (* deletion *)
          (value (cell matrix (j - 1) i) + 1)            (* insertion *)
          (value (cell matrix (j - 1) (i - 1)) + indicator)).   (* substitution *)

Definition fill_row (str1 str2 : string) (j : nat) (matrix : Matrix) : Matrix :=
  for_loop (String.length str1) 1 (fill_cell str1 str2 j) matrix.

Definition first_row (n1 : nat) (matrix : Matrix) : Matrix :=
  for_loop (S n1) 0 (fun i m => assign_cell m 0 i i) matrix.

Definition first_column (n2 : nat) (matrix : Matrix) : Matrix :=
  for_loop (S n2) 0 (fun j m => assign_cell m j 0 j) matrix.

Definition levenshteinDistance (str1 str2 : string) : nat :=
  let n1 := String.length str1 in
  let n2 := String.length str2 in
  let matrix : Matrix := repeat (repeat None (S n1)) (S n2) in
  let matrix := first_row n1 matrix in
  let matrix := first_column n2 matrix in
  let matrix := for_loop n2 1 (fill_row str1 str2) matrix in
  value (cell matrix n2 n1).

(** [s.split(r)] for an expression without groups: the text between the
    matches.  [piece] is the text since the last match, [skip] counts the
    characters the last match still covers; a match that is empty where the
    last one ended is passed over. *)
Fixpoint split_scan (r : re) (prev : option ascii) (rest : string)
         (pos skip : nat) (piece : string) : list string :=
  match skip with
  | S k =>
      match rest with
      | EmptyString => [piece]
      | String c t => split_scan r (Some c) t (S pos) k piece
      end
  | O =>
      match rest with
      | EmptyString => [piece]
      | String c t =>
          match match_at r prev rest pos with
          | None =>
              split_scan r (Some c) t (S pos) 0 (piece ++ String c EmptyString)
          | Some st =>
              if m_pos st =? pos then
                if (piece =? "")%string
                then split_scan r (Some c) t (S pos) 0 (String c EmptyString)
                else piece :: split_scan r (Some c) t (S pos) 0 (String c EmptyString)
              else piece :: split_scan r (Some c) t (S pos) (m_pos st - pos - 1) ""
          end
      end
  end.

Definition split (r : re) (s : string) : list string :=
  match s with
  | EmptyString =>
      match match_at r None "" 0 with Some _ => [] | None => [""] end
  | _ => split_scan r None s 0 0 ""
  end.

(** [/\s+/] *)
Definition blanks : re := plus true space.

(** [arr.sort((a, b) => b.score - a.score)]: the sort is stable. *)
Fixpoint insert_by_score (x : string * nat) (l : list (string * nat))
  : list (string * nat) :=
  match l with
  | [] => [x]
  | y :: rest =>
      if snd x <? snd y then y :: insert_by_score x rest else x :: y :: rest
  end.

Fixpoint sort_by_score (l : list (string * nat)) : list (string * nat) :=
  match l with
  | [] => []
  | x :: rest => insert_by_score x (sort_by_score rest)
  end.

(** A list in the order of falling scores. *)
Fixpoint falling (l : list (string * nat)) : Prop :=
  match l with
  | [] => True
  | x :: rest => (forall y, In y rest -> snd y <= snd x) /\ falling rest
  end.

(** The number of words of the input, of three characters or more, that are
    part of a word of the team's name or have one as a part. *)
Definition wordMatches (inputWords teamWords : list string) : nat :=
  List.length
    (filter (fun inputWord =>
               (3 <=? String.length inputWord)
               && existsb (fun teamWord =>
                             includes teamWord inputWord || includes inputWord teamWord)
                          teamWords)
            inputWords).

(** [toLowerCase] for the names, which are compared with each other and not
    with an ASCII keyword: besides A to Z it maps the capital letters of the
    Latin-1 range, U+00C0 to U+00DE without the multiplication sign U+00D7,
    to the small letters 32 further on, as JavaScript does. *)
Definition lower_unit (c : ascii) : ascii :=
  if is_upper c || (between 192 222 c && negb (code c =? 215))
  then ascii_of_nat (code c + 32)
  else c.

Definition toLowerCase : string -> string := map_chars lower_unit.

(** The score the loop of [findBestTeamMatches] gives a team. *)
Definition score (input team : string) : nat :=
  let teamLower := toLowerCase team in
  let score := 0 in
  let score :=
    if includes teamLower input then
      let score := score + 100 in
      let score := if startsWith teamLower input then score + 50 else score in
      if (3 <=? String.length input) && includes teamLower input
      then score + 25 else score
    else score in
  let matched := wordMatches (split blanks input) (split blanks teamLower) in
  let score := if 0 <? matched then score + matched * 20 else score in
  let distance := levenshteinDistance input teamLower in
  if (distance <=? 2) && (3 <? String.length input)
  then score + (3 - distance) * 10 else score.

Definition candidates (input : string) (availableTeams : list string)
  : list (string * nat) :=
  flat_map (fun team => if 0 <? score input team then [(team, score input team)] else [])
           availableTeams.

Definition findBestTeamMatches (inputTeam : string) (availableTeams : list string)
  : list string :=
  let input := trim (toLowerCase inputTeam) in
  firstn 3 (map fst (sort_by_score (candidates input availableTeams))).

(** The teams filter, when there is one to process: the test
    [!parsedQuery.filters?.teams || parsedQuery.filters.teams.length === 0]. *)
Definition lengthIsZero (v : json) : bool :=
  match v with
  | JArr [] => true
  | JObj fields =>
      match lookup "length" fields with
      | Some (JNum x) => PrimFloat.is_zero x
      | _ => false
      end
  | _ => false
  end.

(** What [for (const teamName of teams)] goes through; a value that cannot
    be iterated throws. *)
Definition iterate (teams : json) : res (list json) :=
  match teams with
  | JArr items => Ok items
  | JStr s => Ok (Parser.characters s)
  | _ => Throw "teams is not iterable"
  end.

(** One turn of the loop; a name that is not a string has no [toLowerCase]. *)
Definition processTeam (availableTeams : list string) (teamName : json) : res string :=
  match teamName with
  | JStr name =>
      if mem name availableTeams then Ok name
      else
        match findBestTeamMatches name availableTeams with
        | best :: _ => Ok best
        | [] => Ok name
        end
  | _ => Throw "teamName.toLowerCase is not a function"
  end.

Fixpoint processTeams (availableTeams : list string) (teams : list json)
  : res (list string) :=
  match teams with
  | [] => Ok []
  | teamName :: rest =>
      and_then (processTeam availableTeams teamName) (fun name =>
      and_then (processTeams availableTeams rest) (fun names => Ok (name :: names)))
  end.

Section Pool.
Local Open Scope js_scope.

(** [pool.query('SELECT name FROM teams ORDER BY name')], then the name of
    each row: the pool of this file is its own. *)
Variable teamNames : M (list string).

Definition preprocessTeamNames (parsedQuery : Parser.ParsedQuery)
  : M Parser.ParsedQuery :=
  match lookup "teams" (Parser.filters parsedQuery) with
  | None => ret parsedQuery
  | Some teams =>
      if negb (truthy (Some teams)) || lengthIsZero teams then ret parsedQuery
      else
        try_catch
          (availableTeams <- teamNames ;;
           processedTeams <-
             from_res (and_then (iterate teams) (processTeams availableTeams)) ;;
           ret {| Parser.intent := Parser.intent parsedQuery;
                  Parser.entity := Parser.entity parsedQuery;
                  Parser.metrics := Parser.metrics parsedQuery;
                  Parser.filters :=
                    Parser.set_field "teams" (JArr (map JStr processedTeams))
                                     (Parser.filters parsedQuery);
                  Parser.groupBy := Parser.groupBy parsedQuery;
                  Parser.orderBy := Parser.orderBy parsedQuery;
                  Parser.limit := Parser.limit parsedQuery |})
          (fun _ => ret parsedQuery)
  end.

End Pool.

End Teams.

(** ** Edit scripts *)

Module Edits.

(** [edits a b n]: [a] becomes [b] by [n] insertions, deletions and
    substitutions of one character. *)
Inductive edits : string -> string -> nat -> Prop :=
| edits_done : edits "" "" 0
| edits_keep (c : ascii) (a b : string) (n : nat) :
    edits a b n -> edits (String c a) (String c b) n
| edits_substitute (c d : ascii) (a b : string) (n : nat) :
    edits a b n -> edits (String c a) (String d b) (S n)
| edits_delete (c : ascii) (a b : string) (n : nat) :
    edits a b n -> edits (String c a) b (S n)
| edits_insert (d : ascii) (a b : string) (n : nat) :
    edits a b n -> edits a (String d b) (S n).

(** The recurrence of Wagner and Fischer, read from the front. *)
Fixpoint lev (a : string) : string -> nat :=
  fix inner (b : string) : nat :=
    match a, b with
    | EmptyString, _ => String.length b
    | _, EmptyString => String.length a
    | String c a', String d b' =>
        Teams.min3 (lev a' b + 1) (inner b' + 1)
                   (lev a' b' + if Ascii.eqb c d then 0 else 1)
    end.

Fixpoint reverse (s : string) : string :=
  match s with
  | EmptyString => EmptyString
  | String c t => reverse t ++ String c EmptyString
  end.

(** The recurrence between the first [i] characters of [a] and the first [j]
    of [b], the last character first. *)
Definition dist (a b : string) (i j : nat) : nat :=
  lev (reverse (JS.take i a)) (reverse (JS.take j b)).

End Edits.

(* ------------------------------------------------------------------------- *)
(** ** [src/middleware/rbac.ts]: the checks and the query builder *)

Module Access.
Import JS Regex Runtime RBAC.
Local Open Scope js_scope.

Section Pool.

(** [pool.query(text, params)], the pool being an argument. *)
Variable pool : string -> list json -> M PgResult.

Definition canAccessUserData (requestingUser : AuthenticatedUser)
           (targetUserId : string) : M bool :=
  if (user_role requestingUser =? "admin")%string then ret true
  else if (user_role requestingUser =? "employee")%string then
    ret (user_id requestingUser =? targetUserId)%string
  else
    result <- pool "SELECT 1 FROM users WHERE id = $1 AND team_id = $2"
                   [JStr targetUserId; JStr (user_team_id requestingUser)] ;;
    ret match rowCount result with
        | Some n => 0 <? n
        | None => false               (* null > 0 *)
        end.

End Pool.

(** [None] is null, which means all teams. *)
Definition getAccessibleTeamIds (user : AuthenticatedUser) : option (list string) :=
  if (user_role user =? "admin")%string then None
  else if (user_role user =? "manager")%string
          || (user_role user =? "employee")%string
  then Some [user_team_id user]
  else Some [].

(** [/WHERE|$/] *)
Definition whereOrEnd : re := Alt (lit "WHERE") Eol.

Definition buildRBACQuery (baseQuery : string) (user : AuthenticatedUser)
           (additionalParams : list json) : res (string * list json) :=
  and_then (getRBACFilters user (List.length additionalParams)) (fun filters =>
  let hasWhere := includes (toLowerCase baseQuery) "where" in
  let connector := if hasWhere then " AND " else " WHERE " in
  let modifiedQuery :=
    if includes baseQuery "user_id"
    then replace whereOrEnd 0 (connector ++ userFilter filters ++ " ") baseQuery
    else baseQuery in
  Ok (modifiedQuery, (additionalParams ++ params filters)%list)).

End Access.

(* ------------------------------------------------------------------------- *)
(** ** The statements built with numbered placeholders

    [getAuditLogs] of [src/services/auditLogger.ts], and
    [getPendingClassifications] and [getClassificationRules] of
    [src/agents/classification/index.ts]: the text and the parameters each
    of them hands to [query]. *)

Module Statements.
Import JS Runtime.

(** A line break of a template, and the indentation the sources have. *)
Definition nl : string := String (ascii_of_nat 10) "     ".

(** [conditions.join(' AND ')] *)
Fixpoint join (separator : string) (items : list string) : string :=
  match items with
  | [] => ""
  | [x] => x
  | x :: rest => x ++ separator ++ join separator rest
  end.

(** The local variables [conditions], [params] and [paramIndex]. *)
Record Building : Type := {
  conditions : list string;
  params : list json;
  paramIndex : nat
}.

Definition start : Building := {| conditions := []; params := []; paramIndex := 1 |}.

(** [if (value) { conditions.push(text(paramIndex++)); params.push(value); }] *)
Definition condition (value : option json) (text : string -> string) (b : Building)
  : Building :=
  match value with
  | Some v =>
      if truthy value then
        {| conditions := (conditions b ++ [text (RBAC.decimal (paramIndex b))])%list;
           params := (params b ++ [v])%list;
           paramIndex := S (paramIndex b) |}
      else b
  | None => b
  end.

Definition whereClause (b : Building) : string :=
  match conditions b with
  | [] => ""
  | _ :: _ => "WHERE " ++ join " AND " (conditions b)
  end.

(** [LIMIT $${paramIndex++} OFFSET $${paramIndex++}] *)
Definition limitOffset (b : Building) : string :=
  "LIMIT $" ++ RBAC.decimal (paramIndex b)
  ++ " OFFSET $" ++ RBAC.decimal (S (paramIndex b)).

Record AuditLogOptions : Type := {
  agentType : option json;
  userId : option json;
  startDate : option json;
  endDate : option json;
  audit_limit : option json;
  audit_offset : option json
}.

Definition getAuditLogs (options : AuditLogOptions) : string * list json :=
  let b := condition (agentType options) (fun n => "agent_type = $" ++ n) start in
  let b := condition (userId options) (fun n => "user_id = $" ++ n) b in
  let b := condition (startDate options) (fun n => "timestamp >= $" ++ n) b in
  let b := condition (endDate options) (fun n => "timestamp <= $" ++ n) b in
  let limit := Classifier.or_else (audit_limit options) (JNum 100%float) in
  let offset := Classifier.or_else (audit_offset options) (JNum 0%float) in
  ("SELECT * FROM agent_audit_log" ++ nl ++ whereClause b ++ nl
   ++ "ORDER BY timestamp DESC" ++ nl ++ limitOffset b,
   (params b ++ [limit; offset])%list).

Record RulesOptions : Type := {
  teamId : option json;
  classification : option json;
  rules_limit : option json;
  rules_offset : option json
}.

Definition getClassificationRules (options : RulesOptions) : string * list json :=
  let b := condition (teamId options)
                     (fun n => "(team_id = $" ++ n ++ " OR team_id IS NULL)") start in
  let b := condition (classification options) (fun n => "classification = $" ++ n) b in
  ("SELECT * FROM classification_rules" ++ nl ++ whereClause b ++ nl
   ++ "ORDER BY app_name" ++ nl ++ limitOffset b,
   (params b ++ [Classifier.or_else (rules_limit options) (JNum 100%float);
                 Classifier.or_else (rules_offset options) (JNum 0%float)])%list).

(** [const { limit = 50, offset = 0 } = options] *)
Definition or_default (value : option json) (fallback : json) : json :=
  match value with Some v => v | None => fallback end.

(** [None] when no statement is sent: an employee gets the empty list. *)
Definition getPendingClassifications (user : AuthenticatedUser)
           (limit offset : option json) : option (string * list json) :=
  let params := [or_default limit (JNum 50%float); or_default offset (JNum 0%float)] in
  let statement teamFilter :=
    "SELECT * FROM pending_classifications" ++ nl
    ++ "WHERE status = 'pending' " ++ teamFilter ++ nl
    ++ "ORDER BY created_at DESC" ++ nl ++ "LIMIT $1 OFFSET $2" in
  if (user_role user =? "manager")%string then
    Some (statement "AND team_id = $3", (params ++ [JStr (user_team_id user)])%list)
  else if (user_role user =? "employee")%string then None
  else Some (statement "", params).

(** The numbers of the placeholders [$n] of a statement, in the order of the
    text. *)
Inductive reading : Type := Text | Dollar | Number (n : nat).

Fixpoint placeholders_in (m : reading) (s : string) : list nat :=
  match s with
  | EmptyString => match m with Number n => [n] | _ => [] end
  | String c t =>
      let next := if Ascii.eqb c "$" then Dollar else Text in
      match m with
      | Number n =>
          if is_digit c then placeholders_in (Number (10 * n + (code c - 48))) t
          else n :: placeholders_in next t
      | Dollar =>
          if is_digit c then placeholders_in (Number (code c - 48)) t
          else placeholders_in next t
      | Text => placeholders_in next t
      end
  end.

Definition placeholders (s : string) : list nat := placeholders_in Text s.

End Statements.

(* ------------------------------------------------------------------------- *)
(** ** The orchestrator of the agents

    The orchestrator only routes: the agents it calls are the variables of
    the section, so that what is shown of it holds whatever they do.  Their
    arguments are read off a payload of any shape; [None] is undefined. *)

Module Orchestrator.
Import JS Regex Runtime.
Local Open Scope js_scope.

Record OrchestratorRequest : Type := {
  type : string;
  action : string;
  payload : json;
  user : AuthenticatedUser
}.

Record OrchestratorResponse : Type := {
  success : bool;
  data : option json;
  error : option string;
  agentUsed : string;
  executionTimeMs : Z
}.

(** A double or a single quote, and any other character. *)
Definition is_quote (c : ascii) : bool := (code c =? 34) || (code c =? 39).
Definition quote : re := Cls is_quote.
Definition notQuote : re := Cls (fun c => negb (is_quote c)).

(** The two patterns an application name is looked for with: one or more
    characters between two quotes, the group; and "classify", white space
    and a word, the group, whatever the case. *)
Definition quotedName : re := cats [quote; Grp 1 (plus true notQuote); quote].
Definition classifyWord : re :=
  cats [lit_i "classify"; plus true space; Grp 1 (plus true word)].

(** [message.match(a) || message.match(b)]: a match is an array, which
    counts as true. *)
Definition appNameMatch (message : string) : option mstate :=
  match search quotedName None message 0 with
  | Some (_, m) => Some m
  | None =>
      match search classifyWord None message 0 with
      | Some (_, m) => Some m
      | None => None
      end
  end.

(** [{ appName: appNameMatch[1] }]; a group that took no part is undefined,
    which reads as a property that is not there. *)
Definition appNamePayload (m : mstate) : json :=
  JObj match cap 1 (m_caps m) with
       | Some name => [("appName", JStr name)]
       | None => []
       end.

Definition classificationIntents : list string :=
  [ "classify"; "categorize"; "mark as productive"; "mark as unproductive" ].

Section Agents.

Variable handleChatQuery :
  option json -> AuthenticatedUser -> option json -> M json.
Variable classifyNewApp : option json -> AuthenticatedUser -> M json.
Variable getPendingClassifications : AuthenticatedUser -> json -> M json.
Variable approveClassification :
  option json -> AuthenticatedUser -> option json -> M unit.
Variable rejectClassification :
  option json -> AuthenticatedUser -> option json -> M unit.
Variable getClassificationRules : json -> M json.

Definition handleChatRequest (request : OrchestratorRequest) : M json :=
  if (action request =? "query")%string then
    query <- from_res (get (payload request) "query") ;;
    options <- from_res (get (payload request) "options") ;;
    handleChatQuery query (user request) options
  else throw ("Unknown chat action: " ++ action request).

Definition handleClassificationRequest (request : OrchestratorRequest) : M json :=
  if (action request =? "classify")%string then
    appName <- from_res (get (payload request) "appName") ;;
    classifyNewApp appName (user request)
  else if (action request =? "getPending")%string then
    getPendingClassifications (user request) (payload request)
  else if (action request =? "approve")%string then
    id <- from_res (get (payload request) "id") ;;
    options <- from_res (get (payload request) "options") ;;
    approveClassification id (user request) options ;;;
    ret (JObj [("message", JStr "Classification approved")])
  else if (action request =? "reject")%string then
    id <- from_res (get (payload request) "id") ;;
    reason <- from_res (get (payload request) "reason") ;;
    rejectClassification id (user request) reason ;;;
    ret (JObj [("message", JStr "Classification rejected")])
  else if (action request =? "getRules")%string then
    getClassificationRules (payload request)
  else throw ("Unknown classification action: " ++ action request).

(** The [switch] on the type of the request. *)
Definition route (request : OrchestratorRequest) : M json :=
  if (type request =? "chat")%string then handleChatRequest request
  else if (type request =? "classification")%string then
    handleClassificationRequest request
  else throw ("Unknown agent type: " ++ type request).

Definition orchestrate (request : OrchestratorRequest) : M OrchestratorResponse :=
  startTime <- now ;;
  try_catch
    (data <- route request ;;
     finished <- now ;;
     ret {| success := true;
            data := Some data;
            error := None;
            agentUsed := type request;
            executionTimeMs := (finished - startTime)%Z |})
    (fun message =>
       finished <- now ;;
       ret {| success := false;
              data := None;
              error := Some message;
              agentUsed := type request;
              executionTimeMs := (finished - startTime)%Z |}).

Definition detectAndRoute (message : string) (user : AuthenticatedUser)
  : M OrchestratorResponse :=
  let lowerMessage := toLowerCase message in
  let chatRequest :=
    {| type := "chat"; action := "query";
       payload := JObj [("query", JStr message)]; user := user |} in
  if existsb (includes lowerMessage) classificationIntents then
    match appNameMatch message with
    | Some m =>
        orchestrate {| type := "classification"; action := "classify";
                       payload := appNamePayload m; user := user |}
    | None => orchestrate chatRequest
    end
  else orchestrate chatRequest.

End Agents.

End Orchestrator.

(* ------------------------------------------------------------------------- *)
(** ** [src/agents/chat/sqlGenerator.ts], [generateSQL]

    The whole of [generateSQL]: the direct statements for the simple lists,
    and, for the rest, the team names, the completion and the reading of the
    reply, which ends in [SqlGenerator.postProcess].  The reply is parsed
    JSON of any shape. *)

Module Generation.
Import JS Regex Runtime.
Local Open Scope js_scope.

(** The [params] that are returned: the value of the reply, or the array
    [[dateRange.start, dateRange.end]], whose elements may be undefined. *)
Inductive Params : Type :=
| Replied (params : json)
| DateRange (start finish : option json).

Record GeneratedSQL : Type := {
  sql : string;
  params : Params;
  description : json
}.

Definition direct (text description : string) : option GeneratedSQL :=
  Some {| sql := text;
          params := Replied (JArr []);
          description := JStr description |}.

(** [parsedQuery.intent === 'list'] *)
Definition isList (intent : json) : bool :=
  match intent with
  | JStr s => (s =? "list")%string
  | _ => false
  end.

Definition generateEntitySQL (parsedQuery : Parser.ParsedQuery)
           (user : AuthenticatedUser) : option GeneratedSQL :=
  if isList (Parser.intent parsedQuery) && negb (truthy (Parser.entity parsedQuery))
  then None
  else if negb (truthy (Parser.entity parsedQuery)) then None
  else
    let rbacFilter := SqlGenerator.getRBACFilter user None in
    match Parser.entity parsedQuery with
    | Some (JStr entity) =>
        if (entity =? "projects")%string then
          direct ("SELECT name, billable FROM projects WHERE " ++ rbacFilter
                  ++ " ORDER BY name")
                 "List all projects with their billable status"
        else if (entity =? "teams")%string then
          direct ("SELECT name, department FROM teams WHERE " ++ rbacFilter
                  ++ " ORDER BY department, name")
                 "List all teams grouped by department"
        else if (entity =? "users")%string then
          direct ("SELECT name, email, role FROM users WHERE " ++ rbacFilter
                  ++ " ORDER BY role, name")
                 "List users with their roles and email addresses"
        else if (entity =? "classification_rules")%string then
          direct ("SELECT app_name, classification, confidence FROM classification_rules WHERE "
                  ++ rbacFilter ++ " ORDER BY app_name")
                 "List all app classification rules"
        else None
    | _ => None
    end.

(** A value in a template literal; undefined prints as such. *)
Definition inTemplate (e : Env) (value : option json) : res string :=
  match value with
  | Some v => ToString e v
  | None => Ok "undefined"
  end.

(** [value.name] of a value that is neither null nor undefined. *)
Definition field (value : json) (name : string) : option json :=
  match value with
  | JObj fields => lookup name fields
  | _ => None
  end.

(** The body of the [try] block.  The reply's [sql] goes on only when it is
    a string: of any other value either [toLowerCase] or [includes] is
    missing, and the call throws. *)
Definition readReply (e : Env) (user : AuthenticatedUser)
           (processedQuery : Parser.ParsedQuery) (response : string)
  : res GeneratedSQL :=
  and_then (JSON_parse e (trim (Classifier.jsonStr response))) (fun generated =>
  and_then (get generated "sql") (fun replied =>
  match replied with
  | Some (JStr text) =>
      let sql := SqlGenerator.postProcess user text in
      and_then (get generated "params") (fun params =>
      let params := Classifier.or_else params (JArr []) in
      let params :=
        if includes sql "$1" && includes sql "$2" && Teams.lengthIsZero params
        then
          match lookup "dateRange" (Parser.filters processedQuery) with
          | Some dateRange =>
              if truthy (Some dateRange)
              then DateRange (field dateRange "start") (field dateRange "end")
              else Replied params
          | None => Replied params
          end
        else Replied params in
      and_then (get generated "description") (fun description =>
      Ok {| sql := sql;
            params := params;
            description :=
              Classifier.or_else description (JStr "Query generated") |}))
  | _ => Throw "sql.includes is not a function"
  end)).

Section Pool.

(** The names of the teams, as [Teams.preprocessTeamNames] reads them. *)
Variable teamNames : M (list string).

(** The first statement logs the intent and the entity in a template
    literal, which converts them to strings. *)
Definition generateSQL (e : Env) (parsedQuery : Parser.ParsedQuery)
           (user : AuthenticatedUser) : M GeneratedSQL :=
  from_res (ToString e (Parser.intent parsedQuery)) ;;;
  from_res (inTemplate e (Parser.entity parsedQuery)) ;;;
  match generateEntitySQL parsedQuery user with
  | Some directSQL => ret directSQL
  | None =>
      processedQuery <- Teams.preprocessTeamNames teamNames parsedQuery ;;
      response <- chat e ;;
      try_catch (from_res (readReply e user processedQuery response))
                (fun _ => throw "Failed to generate SQL query")
  end.

End Pool.

End Generation.

(* ------------------------------------------------------------------------- *)
(** ** More values for the examples *)

Module Samples.
Import Runtime.

(** A summary for the team Support. *)
Definition support_query : Parser.ParsedQuery :=
  {| Parser.intent := JStr "summary";
     Parser.entity := None;
     Parser.metrics := JArr [];
     Parser.filters := [("teams", JArr [JStr "Support"])];
     Parser.groupBy := None;
     Parser.orderBy := None;
     Parser.limit := None |}.

(** Agents that answer at once. *)
Definition chatAgent (query : option json) (user : AuthenticatedUser)
           (options : option json) : M json := ret (JStr "answer").
Definition classifier (appName : option json) (user : AuthenticatedUser) : M json :=
  ret (JObj []).
Definition pendingList (user : AuthenticatedUser) (options : json) : M json :=
  ret (JArr []).
Definition reviewer (id : option json) (user : AuthenticatedUser)
           (more : option json) : M unit := ret tt.
Definition ruleList (options : json) : M json := ret (JArr []).

(** A reply of the provider with a statement in it, the value it parses
    to, and a server that gives the reply and parses it. *)
Definition statement : string :=
  "SELECT date FROM daily_usage WHERE {RBAC_FILTER} AND date BETWEEN $1 AND $2".

Definition statement_reply : string :=
  "{" ++ Fixtures.quoted "sql" ++ ": " ++ Fixtures.quoted statement ++ "}".

Definition statement_server : Env :=
  {| db_error := db_error (Fixtures.server 0 statement_reply);
     db_latency := db_latency (Fixtures.server 0 statement_reply);
     db_new_id := db_new_id (Fixtures.server 0 statement_reply);
     db_select := db_select (Fixtures.server 0 statement_reply);
     db_usage := db_usage (Fixtures.server 0 statement_reply);
     llm_reply := llm_reply (Fixtures.server 0 statement_reply);
     llm_latency := llm_latency (Fixtures.server 0 statement_reply);
     utc_offset := 0;
     JSON_parse := fun text =>
       if (text =? statement_reply)%string
       then Ok (JObj [("sql", JStr statement)])
       else Throw "Unexpected token";
     StringToNumber := StringToNumber (Fixtures.server 0 statement_reply);
     NumberToString := NumberToString (Fixtures.server 0 statement_reply);
     Date_parse := Date_parse (Fixtures.server 0 statement_reply) |}.

(** A summary of the first half of December 2025. *)
Definition december_query : Parser.ParsedQuery :=
  {| Parser.intent := JStr "summary";
     Parser.entity := None;
     Parser.metrics := JArr [];
     Parser.filters :=
       [("dateRange", JObj [("start", JStr "2025-12-01");
                            ("end", JStr "2025-12-15")])];
     Parser.groupBy := None;
     Parser.orderBy := None;
     Parser.limit := None |}.

(** A server whose provider refuses every completion. *)
Definition silent_server : Env :=
  {| db_error := db_error (Fixtures.server 0 "");
     db_latency := db_latency (Fixtures.server 0 "");
     db_new_id := db_new_id (Fixtures.server 0 "");
     db_select := db_select (Fixtures.server 0 "");
     db_usage := db_usage (Fixtures.server 0 "");
     llm_reply := fun _ => Throw "Rate limit exceeded";
     llm_latency := llm_latency (Fixtures.server 0 "");
     utc_offset := 0;
     JSON_parse := JSON_parse (Fixtures.server 0 "");
     StringToNumber := StringToNumber (Fixtures.server 0 "");
     NumberToString := NumberToString (Fixtures.server 0 "");
     Date_parse := Date_parse (Fixtures.server 0 "") |}.

End Samples.

(* ------------------------------------------------------------------------- *)
(** ** What the specification says of the query guard

    The denylist, the tables that follow FROM or JOIN and the distinct ones
    among them, read directly off the text of a statement, without the
    matcher; the properties compare [QueryExecutor.validateQuery] with
    them. *)

Module Guard.
Import JS Regex Words.






(** The table named where [x] begins: FROM or JOIN in any case, with no word
    character before it, then white space, then the name, which is all the
    letters, digits and underscores that follow.  The name is given in small
    letters, with the number of characters from the F or J to its end. *)
Definition table_at (prev : option ascii) (x : string) : option (string * nat) :=
  if word_at prev then None
  else
    match (match after_word "FROM" x with
           | Some rest => Some rest
           | None => after_word "JOIN" x
           end) with
    | Some rest =>
        match after_spaces rest with
        | Some z =>
            match leading is_word z with
            | O => None
            | S n =>
                Some (toLowerCase (take (S n) z),
                      String.length x - String.length z + S n)
            end
        | None => None
        end
    | None => None
    end.

(** The tables named in [x], from left to right; [skip] counts the
    characters that the last one found still covers. *)
Fixpoint tables_from (prev : option ascii) (x : string) (skip : nat)
  : list string :=
  match skip with
  | S k =>
      match x with
      | EmptyString => []
      | String c t => tables_from (Some c) t k
      end
  | O =>
      match table_at prev x with
      | Some (name, covered) =>
          name :: match x with
                  | EmptyString => []
                  | String c t => tables_from (Some c) t (covered - 1)
                  end
      | None =>
          match x with
          | EmptyString => []
          | String c t => tables_from (Some c) t 0
          end
      end
  end.

Definition tables (sql : string) : list string := tables_from None sql 0.


End Guard.

(* ========================================================================= *)
(** * Properties *)

Section RuntimeFacts.
Import Runtime.

Lemma bind_Ok {S A B} (c : ST S A) (f : A -> ST S B) (w w' : S) (a : A) :
  c w = (Ok a, w') -> bind c f w = f a w'.
Proof. intros H. unfold bind. now rewrite H. Qed.

Lemma bind_Throw {S A B} (c : ST S A) (f : A -> ST S B) (w w' : S) (m : string) :
  c w = (Throw m, w') -> bind c f w = (Throw m, w').
Proof. intros H. unfold bind. now rewrite H. Qed.

Lemma query_Ok {A} (e : Env) (f : nat -> World -> A * World) (w : World) :
  db_error e (w_statements w) = None ->
  query e f w =
  (Ok (fst (f (w_statements w) (answered e w))),
   snd (f (w_statements w) (answered e w))).
Proof.
  intros H. unfold query. rewrite H.
  now destruct (f (w_statements w) (answered e w)).
Qed.

Lemma query_Throw {A} (e : Env) (f : nat -> World -> A * World) (w : World)
      (m : string) :
  db_error e (w_statements w) = Some m ->
  query e f w = (Throw m, answered e w).
Proof. intros H. unfold query. now rewrite H. Qed.

Lemma answered_statements (e : Env) (w : World) :
  w_statements (answered e w) = S (w_statements w).
Proof. reflexivity. Qed.

Lemma try_catch_Ok {S A} (c : ST S A) (h : string -> ST S A) (w w' : S) (a : A) :
  c w = (Ok a, w') -> try_catch c h w = (Ok a, w').
Proof. intros H. unfold try_catch. now rewrite H. Qed.

Lemma try_catch_Throw {S A} (c : ST S A) (h : string -> ST S A) (w w' : S)
      (m : string) :
  c w = (Throw m, w') -> try_catch c h w = h m w'.
Proof. intros H. unfold try_catch. now rewrite H. Qed.

(** A statement that only reads. *)
Lemma read_Ok {A} (e : Env) (g : World -> A) (w : World) :
  db_error e (w_statements w) = None ->
  query e (fun _ w0 => (g w0, w0)) w = (Ok (g (answered e w)), answered e w).
Proof. intros H. unfold query. now rewrite H. Qed.

Lemma chat_run (e : Env) (w : World) :
  chat e w =
  (llm_reply e (w_llm_calls w),
   elapse (llm_latency e (w_llm_calls w)) (count_llm_call w)).
Proof. reflexivity. Qed.

End RuntimeFacts.


(* ------------------------------------------------------------------------- *)
(** ** The query validator *)

Section QueryExecutorFacts.
Import JS Regex Runtime QueryExecutor.







End QueryExecutorFacts.

(* ------------------------------------------------------------------------- *)
(** ** The row-level access filter *)

(** C2.  [getRBACFilters u off] returns, for an admin, the predicates 1=1 and
    1=1 with no parameter; for a manager, a [userFilter] that keeps the
    [user_id]s of the users of the manager's team and a [teamFilter] on the
    team, both with the placeholder numbered [off + 1] and the team as the only
    parameter; for an employee, the [userFilter] "user_id = $(off+1)" (and the
    fallback [teamFilter] "team_id = $(off+1)") with the user's id as the only
    parameter; and it throws "Unknown role: ..." for any other role. *)
Theorem getRBACFilters_by_role :
  forall (u : Runtime.AuthenticatedUser) (off : nat),
    (Runtime.user_role u = "admin" ->
       RBAC.getRBACFilters u off =
       Runtime.Ok {| RBAC.userFilter := "1=1"; RBAC.teamFilter := "1=1";
                     RBAC.params := [] |}) /\
    (Runtime.user_role u = "manager" ->
       RBAC.getRBACFilters u off =
       Runtime.Ok
         {| RBAC.userFilter :=
              "user_id IN (SELECT id FROM users WHERE team_id = $"
              ++ RBAC.decimal (off + 1) ++ ")";
            RBAC.teamFilter := "team_id = $" ++ RBAC.decimal (off + 1);
            RBAC.params := [Runtime.JStr (Runtime.user_team_id u)] |}) /\
    (Runtime.user_role u = "employee" ->
       RBAC.getRBACFilters u off =
       Runtime.Ok
         {| RBAC.userFilter := "user_id = $" ++ RBAC.decimal (off + 1);
            RBAC.teamFilter := "team_id = $" ++ RBAC.decimal (off + 1);
            RBAC.params := [Runtime.JStr (Runtime.user_id u)] |}) /\
    (Runtime.user_role u <> "admin" ->
     Runtime.user_role u <> "manager" ->
     Runtime.user_role u <> "employee" ->
       RBAC.getRBACFilters u off =
       Runtime.Throw ("Unknown role: " ++ Runtime.user_role u)).
Proof.
  intros u off. unfold RBAC.getRBACFilters.
  repeat split.
  - intros ->. reflexivity.
  - intros ->. reflexivity.
  - intros ->. reflexivity.
  - intros Ha Hm He.
    apply String.eqb_neq in Ha, Hm, He. now rewrite Ha, Hm, He.
Qed.

(** The placeholder is the decimal numeral of [off + 1]. *)
Example getRBACFilters_manager_after_two_params :
  RBAC.getRBACFilters
    {| Runtime.user_id := "u-7"; Runtime.user_email := "m@example.com";
       Runtime.user_name := "M"; Runtime.user_role := "manager";
       Runtime.user_team_id := "t-3" |} 2
  = Runtime.Ok
      {| RBAC.userFilter := "user_id IN (SELECT id FROM users WHERE team_id = $3)";
         RBAC.teamFilter := "team_id = $3";
         RBAC.params := [Runtime.JStr "t-3"] |}.
Proof. reflexivity. Qed.

(* ------------------------------------------------------------------------- *)
(** ** Confidence thresholds from the review history *)

Section FeedbackFacts.
Import Runtime Feedback.

Lemma count_number_0 : count_number 0 = 0%float.
Proof. reflexivity. Qed.

(** The first loop reads the two counts off the grouped rows, and a status
    without a group keeps its initial 0. *)
Lemma tally_status_counts (w : World) :
  tally (status_counts w) = (Described.approvals w, Described.rejections w).
Proof.
  unfold status_counts, Described.approvals, Described.rejections.
  destruct (count_status approved (pending_classifications w)) as [| a];
    destruct (count_status rejected (pending_classifications w)) as [| r];
    reflexivity.
Qed.

Lemma adjust_range (stats : FeedbackStats) :
  autoApprove (adjust stats) = 0.85%float \/
  autoApprove (adjust stats) = 0.9%float \/
  autoApprove (adjust stats) = 0.95%float.
Proof.
  unfold adjust. cbn [autoApprove].
  destruct (50 <=? _)%float; [| tauto].
  destruct (0.95 <? _)%float; [tauto |].
  destruct (_ <? 0.8)%float; tauto.
Qed.

Lemma getFeedbackStats_run (e : Env) (w : World) :
  db_error e (w_statements w) = None ->
  db_error e (S (w_statements w)) = None ->
  db_error e (S (S (w_statements w))) = None ->
  exists stats,
    getFeedbackStats e w = (Ok stats, answered e (answered e (answered e w))) /\
    totalApprovals stats = Described.approvals w /\
    totalRejections stats = Described.rejections w /\
    approvalRate stats = Described.approvalRate w.
Proof.
  intros H0 H1 H2. unfold getFeedbackStats.
  rewrite (bind_Ok _ _ _ _ _ (read_Ok e _ w H0)).
  rewrite tally_status_counts.
  rewrite (bind_Ok _ _ _ _ _ (read_Ok e _ (answered e w) H1)).
  rewrite (bind_Ok _ _ _ _ _ (read_Ok e _ (answered e (answered e w)) H2)).
  destruct (accuracies _) as [[p n] u].
  unfold ret. eexists. split; [reflexivity |]. repeat split.
Qed.

Lemma getAdjustedConfidenceThresholds_run (e : Env) (w : World) :
  db_error e (w_statements w) = None ->
  db_error e (S (w_statements w)) = None ->
  db_error e (S (S (w_statements w))) = None ->
  exists th,
    getAdjustedConfidenceThresholds e w =
      (Ok th, answered e (answered e (answered e w))) /\
    requireReview th = 0.7%float /\
    autoApprove th = Described.autoApprove w /\
    (autoApprove th = 0.85%float \/ autoApprove th = 0.9%float \/
     autoApprove th = 0.95%float).
Proof.
  intros H0 H1 H2.
  destruct (getFeedbackStats_run e w H0 H1 H2) as (stats & Hrun & Ha & Hr & Hrate).
  unfold getAdjustedConfidenceThresholds.
  rewrite (bind_Ok _ _ _ _ _ Hrun). unfold ret.
  exists (adjust stats).
  split; [reflexivity |]. split; [reflexivity |].
  split; [| apply adjust_range].
  unfold adjust, Described.autoApprove. cbn [autoApprove].
  now rewrite Ha, Hr, Hrate.
Qed.

End FeedbackFacts.

(** C5.  When its three statements are answered, [getAdjustedConfidenceThresholds]
    returns [requireReview] = 0.7 and [autoApprove] = 0.9, unless the approved
    and the rejected pending classifications number at least 50 together: then
    [autoApprove] is 0.85 when the approval rate (approved over approved plus
    rejected) exceeds 0.95, 0.95 when the rate is below 0.8, and 0.9 otherwise.
    So [autoApprove] is one of 0.85, 0.9 and 0.95.  The numbers are the doubles
    the code computes with; the tables are left as they were. *)
Theorem getAdjustedConfidenceThresholds_spec :
  forall (e : Runtime.Env) (w : Runtime.World),
    Runtime.db_error e (Runtime.w_statements w) = None ->
    Runtime.db_error e (S (Runtime.w_statements w)) = None ->
    Runtime.db_error e (S (S (Runtime.w_statements w))) = None ->
    exists (th : Feedback.Thresholds) (w' : Runtime.World),
      Feedback.getAdjustedConfidenceThresholds e w = (Runtime.Ok th, w') /\
      Runtime.pending_classifications w' = Runtime.pending_classifications w /\
      Feedback.requireReview th = 0.7%float /\
      Feedback.autoApprove th =
        (if (50 <=? Described.approvals w + Described.rejections w)%float then
           if (0.95 <? Described.approvalRate w)%float then 0.85%float
           else if (Described.approvalRate w <? 0.8)%float then 0.95%float
           else 0.9%float
         else 0.9%float) /\
      (Feedback.autoApprove th = 0.85%float \/
       Feedback.autoApprove th = 0.9%float \/
       Feedback.autoApprove th = 0.95%float).
Proof.
  intros e w H0 H1 H2.
  destruct (getAdjustedConfidenceThresholds_run e w H0 H1 H2)
    as (th & Hrun & Hreview & Hauto & Hrange).
  exists th. eexists. split; [exact Hrun |].
  split; [reflexivity |]. split; [exact Hreview |].
  split; [exact Hauto | exact Hrange].
Qed.


(** With 58 approvals in 60 reviews the threshold is lowered to 0.85. *)
Lemma getAdjustedConfidenceThresholds_spec_witness :
  exists (th : Feedback.Thresholds) (w' : Runtime.World),
    Feedback.getAdjustedConfidenceThresholds
      (Fixtures.server 0 "") Fixtures.trusted_world = (Runtime.Ok th, w') /\
    Feedback.requireReview th = 0.7%float /\
    Feedback.autoApprove th = 0.85%float.
Proof.
  destruct (getAdjustedConfidenceThresholds_spec
              (Fixtures.server 0 "") Fixtures.trusted_world
              eq_refl eq_refl eq_refl)
    as (th & w' & Hrun & _ & Hreview & Hauto & _).
  exists th, w'. split; [exact Hrun |]. split; [exact Hreview |].
  rewrite Hauto. reflexivity.
Defined.

(* ------------------------------------------------------------------------- *)
(** ** Classification of a new application *)

Section ClassificationFacts.
Import Runtime Classification.

Lemma analyzeAppUsage_run (e : Env) (appName : string) (w : World) :
  (forall n, db_error e n = None) ->
  analyzeAppUsage e appName w =
  (Ok (db_usage e appName), answered e (answered e (answered e (answered e w)))).
Proof.
  intros H. unfold analyzeAppUsage.
  rewrite (bind_Ok _ _ _ _ _ (read_Ok e _ w (H _))).
  rewrite (bind_Ok _ _ _ _ _ (read_Ok e _ (answered e w) (H _))).
  rewrite (bind_Ok _ _ _ _ _ (read_Ok e _ (answered e (answered e w)) (H _))).
  rewrite (bind_Ok _ _ _ _ _
             (read_Ok e _ (answered e (answered e (answered e w))) (H _))).
  reflexivity.
Qed.

Lemma classifyApp_run (e : Env) (analysis : AppAnalysis) (w : World)
      (response : string) :
  llm_reply e (w_llm_calls w) = Ok response ->
  Classifier.classifyApp e analysis w =
  (Ok (Classifier.classified e response),
   elapse (llm_latency e (w_llm_calls w)) (count_llm_call w)).
Proof.
  intros H. unfold Classifier.classifyApp.
  unfold bind. rewrite chat_run, H. reflexivity.
Qed.

Lemma insert_pending_run (e : Env) (appName team : string)
      (result : Classifier.ClassificationResult) (w : World) :
  db_error e (w_statements w) = None ->
  exists row,
    insert_pending e appName team result w =
      (Ok row, add_pending row (answered e w)) /\
    pend_status row = pending /\
    pend_app_name row = appName /\
    pend_suggested row = Classifier.classification result /\
    pend_confidence row = Classifier.confidence result.
Proof.
  intros H. unfold insert_pending. rewrite (query_Ok e _ w H). cbn [fst snd].
  eexists. split; [reflexivity |]. repeat split.
Qed.

Lemma insert_rule_run (e : Env) (appName : string)
      (result : Classifier.ClassificationResult) (w : World) :
  db_error e (w_statements w) = None ->
  exists row,
    insert_rule e appName result w = (Ok row, add_rule row (answered e w)) /\
    rule_app_name row = appName /\
    rule_classification row = Classifier.classification result /\
    rule_confidence row = Classifier.confidence result.
Proof.
  intros H. unfold insert_rule. rewrite (query_Ok e _ w H). cbn [fst snd].
  eexists. split; [reflexivity |]. repeat split.
Qed.

Lemma logAgentAction_run (e : Env) (entry : AuditLogger.AuditLogEntry) (w : World) :
  db_error e (w_statements w) = None ->
  AuditLogger.logAgentAction e entry w =
  (Ok (db_new_id e (w_statements w)),
   AuditLogger.add_audit_row
     (AuditLogger.audit_row (db_new_id e (w_statements w))
                            (w_time (answered e w)) entry)
     (answered e w)).
Proof.
  intros H. unfold AuditLogger.logAgentAction. now rewrite (query_Ok e _ w H).
Qed.

Lemma bind_now {A} (f : Z -> M A) (w : World) : bind now f w = f (w_time w) w.
Proof. reflexivity. Qed.

End ClassificationFacts.

(** C3.  For an application that no rule names, when the database and the
    provider answer, [classifyNewApp] compares the confidence of the
    classification with the auto-approval threshold in force.  When it is
    strictly below, a row with status pending is added to
    pending_classifications and [requiresApproval] is true; otherwise a row is
    added to classification_rules and [requiresApproval] is false.  Either way
    the suggestion carries the classification, the confidence and the
    reasoning of the classification. *)
Theorem classifyNewApp_routes_by_confidence :
  forall (e : Runtime.Env) (appName : string) (user : Runtime.AuthenticatedUser)
         (w : Runtime.World) (response : string),
    (forall n, Runtime.db_error e n = None) ->
    Classification.existing_rules appName w = [] ->
    Runtime.llm_reply e (Runtime.w_llm_calls w) = Runtime.Ok response ->
    let result := Classifier.classified e response in
    let review :=
      (Classifier.confidence result <? Described.autoApprove w)%float in
    exists (s : Classification.ClassificationSuggestion) (w' : Runtime.World),
      Classification.classifyNewApp e appName user w = (Runtime.Ok s, w') /\
      Classification.requiresApproval s = review /\
      Classification.suggestedClassification s = Classifier.classification result /\
      Classification.suggestion_confidence s = Classifier.confidence result /\
      Classification.suggestion_reasoning s = Classifier.reasoning result /\
      if review then
        (exists row,
            Runtime.pending_classifications w' =
              (Runtime.pending_classifications w ++ [row])%list /\
            Runtime.pend_status row = Runtime.pending /\
            Runtime.pend_app_name row = appName /\
            Runtime.pend_suggested row = Classifier.classification result /\
            Runtime.pend_confidence row = Classifier.confidence result) /\
        Runtime.classification_rules w' = Runtime.classification_rules w
      else
        (exists row,
            Runtime.classification_rules w' =
              (Runtime.classification_rules w ++ [row])%list /\
            Runtime.rule_app_name row = appName /\
            Runtime.rule_classification row = Classifier.classification result /\
            Runtime.rule_confidence row = Classifier.confidence result) /\
        Runtime.pending_classifications w' = Runtime.pending_classifications w.
Proof.
  intros e appName user w response Hdb Hnone Hllm result review.
  unfold Classification.classifyNewApp.
  unfold Runtime.bind at 1. unfold Runtime.now at 1.
  set (w5 := Runtime.answered e (Runtime.answered e (Runtime.answered e
               (Runtime.answered e (Runtime.answered e w))))).
  set (w6 := Runtime.elapse (Runtime.llm_latency e (Runtime.w_llm_calls w5))
               (Runtime.count_llm_call w5)).
  destruct (getAdjustedConfidenceThresholds_run e w6 (Hdb _) (Hdb _) (Hdb _))
    as (th & Hth & _ & Hauto & _).
  change (Described.autoApprove w6) with (Described.autoApprove w) in Hauto.
  set (w9 := Runtime.answered e (Runtime.answered e (Runtime.answered e w6))) in Hth.
  match goal with
  | |- exists s w', Runtime.try_catch ?body ?handler w = _ /\ _ =>
      assert (Hbody : exists s w', body w = (Runtime.Ok s, w') /\
        Classification.requiresApproval s = review /\
        Classification.suggestedClassification s = Classifier.classification result /\
        Classification.suggestion_confidence s = Classifier.confidence result /\
        Classification.suggestion_reasoning s = Classifier.reasoning result /\
        if review then
          (exists row,
              Runtime.pending_classifications w' =
                (Runtime.pending_classifications w ++ [row])%list /\
              Runtime.pend_status row = Runtime.pending /\
              Runtime.pend_app_name row = appName /\
              Runtime.pend_suggested row = Classifier.classification result /\
              Runtime.pend_confidence row = Classifier.confidence result) /\
          Runtime.classification_rules w' = Runtime.classification_rules w
        else
          (exists row,
              Runtime.classification_rules w' =
                (Runtime.classification_rules w ++ [row])%list /\
              Runtime.rule_app_name row = appName /\
              Runtime.rule_classification row = Classifier.classification result /\
              Runtime.rule_confidence row = Classifier.confidence result) /\
          Runtime.pending_classifications w' = Runtime.pending_classifications w)
  end.
  { rewrite (bind_Ok _ _ _ _ _ (read_Ok e _ w (Hdb _))).
    change (Classification.existing_rules appName (Runtime.answered e w))
      with (Classification.existing_rules appName w).
    rewrite Hnone.
    rewrite (bind_Ok _ _ _ _ _ (analyzeAppUsage_run e appName _ Hdb)).
    rewrite (bind_Ok _ _ _ _ _ (classifyApp_run e _ w5 response Hllm)).
    fold w6. rewrite (bind_Ok _ _ _ _ _ Hth).
    rewrite Hauto. fold result. fold review.
    destruct review.
    - destruct (insert_pending_run e appName (Runtime.user_team_id user) result w9
                                   (Hdb _)) as (row & Hrow & Hprops).
      rewrite (bind_Ok _ _ _ _ _ Hrow). rewrite bind_now.
      rewrite (bind_Ok _ _ _ _ _ (logAgentAction_run e _ _ (Hdb _))).
      unfold Runtime.ret. eexists. eexists. split; [reflexivity |].
      repeat split; try reflexivity.
      exists row. split; [reflexivity | exact Hprops].
    - destruct (insert_rule_run e appName result w9 (Hdb _))
        as (row & Hrow & Hprops).
      rewrite (bind_Ok _ _ _ _ _ Hrow). rewrite bind_now.
      rewrite (bind_Ok _ _ _ _ _ (logAgentAction_run e _ _ (Hdb _))).
      unfold Runtime.ret. eexists. eexists. split; [reflexivity |].
      repeat split; try reflexivity.
      exists row. split; [reflexivity | exact Hprops]. }
  destruct Hbody as (s & w' & Hrun & Hprops).
  exists s, w'. split; [| exact Hprops].
  now apply try_catch_Ok.
Qed.

(** A confident reply for an unknown application: the rule is created at once. *)
Lemma classifyNewApp_routes_by_confidence_witness :
  exists (s : Classification.ClassificationSuggestion) (w' : Runtime.World),
    Classification.classifyNewApp
      (Fixtures.server 0 Fixtures.reply_sure) "Steam" Fixtures.alice
      (Fixtures.world Fixtures.wednesday []) = (Runtime.Ok s, w') /\
    Classification.requiresApproval s = false /\
    Classification.suggestedClassification s = Runtime.unproductive /\
    Classification.suggestion_confidence s = 0.97%float.
Proof.
  destruct (classifyNewApp_routes_by_confidence
              (Fixtures.server 0 Fixtures.reply_sure) "Steam" Fixtures.alice
              (Fixtures.world Fixtures.wednesday []) Fixtures.reply_sure
              (fun _ => eq_refl) eq_refl eq_refl)
    as (s & w' & Hrun & Hreq & Hclass & Hconf & _).
  exists s, w'. split; [exact Hrun |].
  rewrite Hreq, Hclass, Hconf. repeat split; vm_compute; reflexivity.
Defined.

(* ------------------------------------------------------------------------- *)
(** ** The audit log *)

(** C4.  An invocation of [classifyNewApp] for an application that already has
    a rule returns the rule as its suggestion and adds no row to
    agent_audit_log, although the statement that looked the rule up was
    answered: this path returns before any call of [logAgentAction], so not
    every invocation is logged. *)
Theorem classifyNewApp_existing_rule_not_logged :
  forall (e : Runtime.Env) (appName : string) (user : Runtime.AuthenticatedUser)
         (w : Runtime.World) (rule : Runtime.RuleRow) (others : list Runtime.RuleRow),
    Runtime.db_error e (Runtime.w_statements w) = None ->
    Classification.existing_rules appName w = rule :: others ->
    exists (s : Classification.ClassificationSuggestion) (w' : Runtime.World),
      Classification.classifyNewApp e appName user w = (Runtime.Ok s, w') /\
      Classification.id s = Runtime.rule_id rule /\
      Classification.requiresApproval s = false /\
      Runtime.agent_audit_log w' = Runtime.agent_audit_log w.
Proof.
  intros e appName user w rule others Hdb Hrule.
  unfold Classification.classifyNewApp. rewrite bind_now.
  eexists. eexists. split.
  - apply try_catch_Ok.
    rewrite (bind_Ok _ _ _ _ _ (read_Ok e _ w Hdb)).
    change (Classification.existing_rules appName (Runtime.answered e w))
      with (Classification.existing_rules appName w).
    rewrite Hrule. reflexivity.
  - repeat split.
Qed.

(** Asking about "slack" when a rule for Slack exists leaves the log empty. *)
Lemma classifyNewApp_existing_rule_not_logged_witness :
  exists (s : Classification.ClassificationSuggestion) (w' : Runtime.World),
    Classification.classifyNewApp
      (Fixtures.server 0 Fixtures.reply_sure) "slack" Fixtures.alice
      (Fixtures.world Fixtures.wednesday [Fixtures.slack_rule])
    = (Runtime.Ok s, w') /\
    Classification.id s = "r-1" /\
    Classification.requiresApproval s = false /\
    Runtime.agent_audit_log w' = [].
Proof.
  exact (classifyNewApp_existing_rule_not_logged
           (Fixtures.server 0 Fixtures.reply_sure) "slack" Fixtures.alice
           (Fixtures.world Fixtures.wednesday [Fixtures.slack_rule])
           Fixtures.slack_rule [] eq_refl eq_refl).
Defined.

(* ------------------------------------------------------------------------- *)
(** ** The classifier's reading of a reply *)

Section ClassifierFacts.
Import Runtime Classifier.

(** Whatever the provider replies, [classifyApp] returns a result: a reply
    that cannot be read yields the default of the [catch] block. *)
Lemma classifyApp_returns (e : Env) (analysis : AppAnalysis) (w : World)
      (response : string) :
  llm_reply e (w_llm_calls w) = Ok response ->
  exists w',
    classifyApp e analysis w = (Ok (classified e response), w') /\
    (forall m, JSON_parse e (JS.trim (jsonStr response)) = Throw m ->
               classified e response = unparsed).
Proof.
  intros H. rewrite (classifyApp_run e analysis w response H).
  eexists. split; [reflexivity |].
  intros m Hm. unfold classified, interpret. now rewrite Hm.
Qed.

Lemma unparsed_is_neutral :
  classification unparsed = neutral /\ confidence unparsed = 0.3%float.
Proof. split; reflexivity. Qed.

End ClassifierFacts.

(** C10.  When the reply is a JSON object whose confidence is a text that is
    not a numeral ("high", say), [classifyApp] returns that object's
    classification with a confidence that is NaN: the clamp
    [Math.min(Math.max(c, 0), 1)] lets NaN through, so the confidence is not
    within the interval from 0 to 1. *)
Theorem classifyApp_confidence_not_clamped :
  forall (e : Runtime.Env) (analysis : Runtime.AppAnalysis) (w : Runtime.World)
         (response text : string) (fields : list (string * Runtime.json))
         (c : Runtime.ProductivityRating),
    Runtime.llm_reply e (Runtime.w_llm_calls w) = Runtime.Ok response ->
    Runtime.JSON_parse e (JS.trim (Classifier.jsonStr response))
      = Runtime.Ok (Runtime.JObj fields) ->
    Classifier.normalizeClassification (Runtime.lookup "classification" fields)
      = Runtime.Ok c ->
    Runtime.lookup "confidence" fields = Some (Runtime.JStr text) ->
    text <> "" ->
    Runtime.StringToNumber e text = PrimFloat.nan ->
    exists (r : Classifier.ClassificationResult) (w' : Runtime.World),
      Classifier.classifyApp e analysis w = (Runtime.Ok r, w') /\
      Classifier.classification r = c /\
      Classifier.confidence r = PrimFloat.nan /\
      Described.in_unit_interval (Classifier.confidence r) = false.
Proof.
  intros e analysis w response text fields c Hllm Hparse Hclass Hconf Htext Hnan.
  rewrite (classifyApp_run e analysis w response Hllm).
  eexists. eexists. split; [reflexivity |].
  unfold Classifier.classified, Classifier.interpret.
  rewrite Hparse. cbn [Runtime.and_then Runtime.get].
  rewrite Hclass, Hconf. cbn [Runtime.and_then].
  assert (Hor : Classifier.or_else (Some (Runtime.JStr text))
                                   (Runtime.JNum 0.5%float) = Runtime.JStr text).
  { unfold Classifier.or_else, Runtime.truthy.
    apply String.eqb_neq in Htext. now rewrite Htext. }
  rewrite Hor. cbn [Runtime.ToNumber Runtime.and_then]. rewrite Hnan.
  repeat split.
Qed.

(** The reply {"classification": "productive", "confidence": "high"}. *)
Lemma classifyApp_confidence_not_clamped_witness :
  exists (r : Classifier.ClassificationResult) (w' : Runtime.World),
    Classifier.classifyApp
      (Fixtures.server 0 Fixtures.reply_high)
      (Runtime.db_usage (Fixtures.server 0 Fixtures.reply_high) "Steam")
      (Fixtures.world Fixtures.wednesday []) = (Runtime.Ok r, w') /\
    Classifier.classification r = Runtime.productive /\
    Classifier.confidence r = PrimFloat.nan /\
    Described.in_unit_interval (Classifier.confidence r) = false.
Proof.
  apply (classifyApp_confidence_not_clamped
           (Fixtures.server 0 Fixtures.reply_high) _
           (Fixtures.world Fixtures.wednesday [])
           Fixtures.reply_high "high"
           [("classification", Runtime.JStr "productive");
            ("confidence", Runtime.JStr "high")] Runtime.productive);
    try reflexivity.
  discriminate.
Defined.

(* ------------------------------------------------------------------------- *)
(** ** The fast path of the query parser *)

(** C7, as stated, fails: "show project teams" contains "show", and "team"
    without "member", yet the entity returned is projects, because the test
    for projects comes first. *)
Lemma parseQuery_earlier_test_wins :
  JS.includes (JS.toLowerCase "show project teams") "show" = true /\
  JS.includes (JS.toLowerCase "show project teams") "team" = true /\
  JS.includes (JS.toLowerCase "show project teams") "member" = false /\
  Parser.parseQuery (Fixtures.server 0 "") "show project teams"
                    (Fixtures.world Fixtures.wednesday [])
  = (Runtime.Ok (Parser.listOf "projects"), Fixtures.world Fixtures.wednesday []) /\
  Parser.entity (Parser.listOf "projects") <> Some (Runtime.JStr "teams").
Proof.
  repeat split; try reflexivity. discriminate.
Qed.

(** C7, amended.  For a query that contains "list" or "show" (letters compared
    without case), [parseQuery] returns at once, leaving the world as it was
    (so without a call to the LLM), the first of these that applies: projects
    when the query contains "project" but not "time"; teams when it contains
    "team" but not "member"; users when it contains "user", "employee" or
    "member"; classification_rules when it contains "classification" or
    "rule"; apps when it contains "app" or "application".  The result has
    intent list, the entity, and empty metrics and filters. *)
Theorem parseQuery_fast_path :
  forall (e : Runtime.Env) (q : string) (w : Runtime.World),
    JS.includes (JS.toLowerCase q) "list" || JS.includes (JS.toLowerCase q) "show"
      = true ->
    let has := JS.includes (JS.toLowerCase q) in
    let projects := has "project" && negb (has "time") in
    let teams := has "team" && negb (has "member") in
    let users := has "user" || has "employee" || has "member" in
    let rules := has "classification" || has "rule" in
    let apps := has "app" || has "application" in
    (projects = true ->
       Parser.parseQuery e q w = (Runtime.Ok (Parser.listOf "projects"), w)) /\
    (projects = false -> teams = true ->
       Parser.parseQuery e q w = (Runtime.Ok (Parser.listOf "teams"), w)) /\
    (projects = false -> teams = false -> users = true ->
       Parser.parseQuery e q w = (Runtime.Ok (Parser.listOf "users"), w)) /\
    (projects = false -> teams = false -> users = false -> rules = true ->
       Parser.parseQuery e q w
       = (Runtime.Ok (Parser.listOf "classification_rules"), w)) /\
    (projects = false -> teams = false -> users = false -> rules = false ->
     apps = true ->
       Parser.parseQuery e q w = (Runtime.Ok (Parser.listOf "apps"), w)) /\
    (forall name,
        Parser.intent (Parser.listOf name) = Runtime.JStr "list" /\
        Parser.entity (Parser.listOf name) = Some (Runtime.JStr name) /\
        Parser.metrics (Parser.listOf name) = Runtime.JArr [] /\
        Parser.filters (Parser.listOf name) = []).
Proof.
  intros e q w Hlist has projects teams users rules apps.
  unfold Parser.parseQuery. rewrite Hlist.
  fold has. fold projects teams users rules apps.
  repeat split.
  - intros ->. reflexivity.
  - intros -> ->. reflexivity.
  - intros -> -> ->. reflexivity.
  - intros -> -> -> ->. reflexivity.
  - intros -> -> -> -> ->. reflexivity.
Qed.

(** "list team members" falls through the test for teams to the one for users. *)
Lemma parseQuery_fast_path_witness :
  Parser.parseQuery (Fixtures.server 0 "") "list team members"
                    (Fixtures.world Fixtures.wednesday [])
  = (Runtime.Ok (Parser.listOf "users"), Fixtures.world Fixtures.wednesday []).
Proof.
  exact (proj1 (proj2 (proj2
           (parseQuery_fast_path (Fixtures.server 0 "") "list team members"
                                 (Fixtures.world Fixtures.wednesday []) eq_refl)))
           eq_refl eq_refl eq_refl).
Defined.

(* ------------------------------------------------------------------------- *)
(** ** The relative-date resolver *)

(** C6.  On Wednesday 2025-12-17 in a time zone five hours behind UTC,
    [parseRelativeDate] resolves "last week" to Tuesday 2025-12-09 through
    Monday 2025-12-15, one day after the previous Monday-to-Sunday week (which
    begins on 2025-12-08, and which the same call returns when the offset is
    zero): the days are computed in local time and printed by [toISOString] in
    UTC.  And on Sunday 2025-12-21, in UTC, [extractDateRange] answers a query
    that mentions "last week" from the date context, with the week that ends
    on that very Sunday. *)
Theorem last_week_is_not_the_previous_calendar_week :
  Parser.parseRelativeDate (Fixtures.server (-300) "") Fixtures.wednesday "last week"
  = Runtime.Ok ("2025-12-09", "2025-12-15") /\
  Dates.isoDate
    (Described.previous_monday
       (Dates.Day (Dates.LocalTime (Fixtures.server (-300) "") Fixtures.wednesday))
     * Dates.msPerDay)
  = "2025-12-08" /\
  Parser.parseRelativeDate (Fixtures.server 0 "") Fixtures.wednesday "last week"
  = Runtime.Ok ("2025-12-08", "2025-12-14") /\
  Dates.getDay (Fixtures.server 0 "") Fixtures.sunday = 0%Z /\
  Parser.extractDateRange
    (Fixtures.server 0 "") Fixtures.sunday "hours worked last week"
    (Parser.getDateContext (Fixtures.server 0 "") Fixtures.sunday)
  = ("2025-12-15", "2025-12-21").
Proof.
  repeat split; vm_compute; reflexivity.
Qed.

(** The calendar of [Dates] agrees with [MakeDay] on every day from 1900 to 2100. *)
Example civil_of_day_inverts_MakeDay :
  Dates.every_day 73415 (-25567)
    (fun d =>
       let c := Dates.civil_of_day d in
       (Dates.MakeDay (Dates.year c) (Dates.month c) (Dates.day c) =? d)%Z
       && (0 <=? Dates.month c)%Z && (Dates.month c <=? 11)%Z
       && (1 <=? Dates.day c)%Z && (Dates.day c <=? 31)%Z)
  = true.
Proof. vm_compute. reflexivity. Qed.

(* ------------------------------------------------------------------------- *)
(** ** The chat agent's error path *)

Section ChatFacts.
Import Runtime Chat.

Lemma lift_Ok {L A} (c : M A) (l : L) (w w' : World) (a : A) :
  c w = (Ok a, w') -> lift c (l, w) = (Ok a, (l, w')).
Proof. intros H. unfold lift. cbn [fst snd]. now rewrite H. Qed.

(** The [catch] block returns the error response when its log entry is
    written. *)
Lemma recover_returns (e : Env) (userQuery : string) (user : AuthenticatedUser)
      (startTime : Z) (message : string) (l : Locals) (w : World) :
  (forall entry w0, exists id w1,
      AuditLogger.logAgentAction e entry w0 = (Ok id, w1)) ->
  exists w',
    recover e userQuery user startTime message (l, w)
    = (Ok (failure (var_sqlGenerated l) message), (l, w')).
Proof.
  intros Hlog. unfold recover.
  unfold bind at 1. unfold locals at 1. cbn [fst snd].
  unfold bind at 1. unfold lift at 1, now at 1. cbn [fst snd].
  match goal with
  | |- context [AuditLogger.logAgentAction e ?entry] =>
      destruct (Hlog entry w) as (id & w1 & Hrun);
      rewrite (bind_Ok _ _ _ _ _ (lift_Ok _ l w w1 id Hrun))
  end.
  exists w1. reflexivity.
Qed.

End ChatFacts.

(** C9.  Provided the audit-log entry can be written, [handleChatQuery]
    returns a response whatever the steps of its [try] block do (classifying
    the query, parsing it, generating, validating and executing the SQL,
    explaining the rows).  When the block throws, the response is the error
    response built from the message: its answer begins with
    "I couldn't process your query.", its confidence is 0 and its explanation
    reports 0 rows. *)
Theorem handleChatQuery_never_throws :
  forall (generateSQL :
            Parser.ParsedQuery -> Runtime.AuthenticatedUser ->
            Runtime.M Chat.GeneratedSQL)
         (executeQueryWithTimeout :
            string -> list Runtime.json -> Z ->
            Runtime.M QueryExecutor.QueryResult)
         (explainResults :
            string -> string -> QueryExecutor.QueryResult ->
            Runtime.M Chat.Explained)
         (e : Runtime.Env) (userQuery : string) (user : Runtime.AuthenticatedUser)
         (timeout : Z) (w : Runtime.World),
    (forall entry w0, exists id w1,
        AuditLogger.logAgentAction e entry w0 = (Runtime.Ok id, w1)) ->
    let run :=
      Chat.handleChatQuery generateSQL executeQueryWithTimeout explainResults
                           e userQuery user timeout in
    let block :=
      Chat.attempt generateSQL executeQueryWithTimeout explainResults
                   e userQuery user timeout (Runtime.w_time w) in
    (exists r w', run w = (Runtime.Ok r, w')) /\
    (forall message l w1,
        block ({| Chat.var_sqlGenerated := ""; Chat.var_tablesAccessed := [] |}, w)
        = (Runtime.Throw message, (l, w1)) ->
        exists w',
          run w = (Runtime.Ok (Chat.failure (Chat.var_sqlGenerated l) message), w')) /\
    (forall sqlGenerated message,
        JS.startsWith (Chat.answer (Chat.failure sqlGenerated message))
                      "I couldn't process your query." = true /\
        Chat.confidence (Chat.failure sqlGenerated message) = 0%float /\
        Chat.explanation_rowCount
          (Chat.explanation (Chat.failure sqlGenerated message)) = 0).
Proof.
  intros generateSQL executeQueryWithTimeout explainResults e userQuery user
         timeout w Hlog run block.
  assert (Hthrow : forall message l w1,
    block ({| Chat.var_sqlGenerated := ""; Chat.var_tablesAccessed := [] |}, w)
    = (Runtime.Throw message, (l, w1)) ->
    exists w',
      run w = (Runtime.Ok (Chat.failure (Chat.var_sqlGenerated l) message), w')).
  { intros message l w1 Hblock.
    destruct (recover_returns e userQuery user (Runtime.w_time w) message l w1 Hlog)
      as (w' & Hrec).
    exists w'. unfold run, Chat.handleChatQuery. rewrite bind_now.
    unfold Runtime.with_locals.
    rewrite (try_catch_Throw _ _ _ _ _ Hblock). now rewrite Hrec. }
  split; [| split; [exact Hthrow |]].
  - destruct (block ({| Chat.var_sqlGenerated := ""; Chat.var_tablesAccessed := [] |}, w))
      as [[r | message] [l w1]] eqn:Hblock.
    + exists r, w1. unfold run, Chat.handleChatQuery. rewrite bind_now.
      unfold Runtime.with_locals.
      now rewrite (try_catch_Ok _ _ _ _ _ Hblock).
    + destruct (Hthrow message l w1 eq_refl) as (w' & Hrun). eauto.
  - intros sqlGenerated message. repeat split.
Qed.

(** A query whose execution times out is answered with the error response. *)
Lemma handleChatQuery_never_throws_witness :
  exists r w',
    Chat.handleChatQuery Fixtures.generated_ok Fixtures.timed_out Fixtures.explained_ok
      (Fixtures.server 0 "data") "show all teams" Fixtures.alice 30000
      (Fixtures.world Fixtures.wednesday [])
    = (Runtime.Ok r, w').
Proof.
  exact (proj1
    (handleChatQuery_never_throws
       Fixtures.generated_ok Fixtures.timed_out Fixtures.explained_ok
       (Fixtures.server 0 "data") "show all teams" Fixtures.alice 30000
       (Fixtures.world Fixtures.wednesday [])
       (fun entry w0 =>
          ex_intro _ _ (ex_intro _ _
            (logAgentAction_run (Fixtures.server 0 "data") entry w0 eq_refl))))).
Defined.

Example handleChatQuery_timeout :
  fst (Chat.handleChatQuery
         Fixtures.generated_ok Fixtures.timed_out Fixtures.explained_ok
         (Fixtures.server 0 "data") "show all teams" Fixtures.alice 30000
         (Fixtures.world Fixtures.wednesday []))
  = Runtime.Ok (Chat.failure "SELECT name FROM teams WHERE 1=1" "Query timeout").
Proof. vm_compute. reflexivity. Qed.

(* ------------------------------------------------------------------------- *)
(** ** Post-processing of the generated SQL *)

Section StringFacts.
Import JS.

Lemma append_empty (s : string) : s ++ "" = s.
Proof. induction s as [| c s IH]; simpl; [reflexivity | now rewrite IH]. Qed.

Lemma append_assoc (a b c : string) : (a ++ b) ++ c = a ++ (b ++ c).
Proof. induction a as [| x a IH]; simpl; [reflexivity | now rewrite IH]. Qed.

Lemma prefix_cons (a c : ascii) (p s : string) :
  String.prefix (String a p) (String c s)
  = if ascii_dec a c then String.prefix p s else false.
Proof. reflexivity. Qed.

Lemma prefix_empty (s : string) : String.prefix "" s = true.
Proof. now destruct s. Qed.

Lemma prefix_app (p s : string) : String.prefix p (p ++ s) = true.
Proof.
  induction p as [| c p IH].
  - apply prefix_empty.
  - change (String c p ++ s) with (String c (p ++ s)). rewrite prefix_cons.
    destruct (ascii_dec c c) as [_ | Hc]; [exact IH | now elim Hc].
Qed.

Lemma includes_eq (s sub : string) :
  includes s sub =
  String.prefix sub s
  || match s with EmptyString => false | String _ t => includes t sub end.
Proof. destruct s; reflexivity. Qed.

Lemma includes_app (a f b : string) : includes (a ++ f ++ b) f = true.
Proof.
  induction a as [| c a IH].
  - change ("" ++ f ++ b) with (f ++ b). rewrite includes_eq, prefix_app.
    reflexivity.
  - change (String c a ++ f ++ b) with (String c (a ++ f ++ b)).
    rewrite includes_eq, IH. apply orb_true_r.
Qed.

(** A text without a dollar sign. *)
Lemma plain_cons (c : ascii) (t : string) :
  includes (String c t) "$" = false ->
  Ascii.eqb c "$" = false /\ includes t "$" = false.
Proof.
  rewrite includes_eq, prefix_cons.
  destruct (ascii_dec "$" c) as [<- | Hne].
  - now rewrite prefix_empty.
  - intros H. split; [| exact H].
    apply Ascii.eqb_neq. congruence.
Qed.

Lemma plain_app (a b : string) :
  includes a "$" = false -> includes b "$" = false -> includes (a ++ b) "$" = false.
Proof.
  induction a as [| c a IH]; intros Ha Hb; [exact Hb |].
  destruct (plain_cons c a Ha) as [Hc Ha'].
  change (String c a ++ b) with (String c (a ++ b)).
  rewrite includes_eq, prefix_cons.
  destruct (ascii_dec "$" c) as [<- | _]; [discriminate |].
  now apply IH.
Qed.

End StringFacts.

Section ReplaceFacts.
Import JS Regex.

Lemma expand_plain (groups : nat) (caps : list (nat * string))
      (matched before after pre rest : string) :
  includes pre "$" = false ->
  expand groups caps matched before after (pre ++ rest)
  = pre ++ expand groups caps matched before after rest.
Proof.
  induction pre as [| c pre IH]; intros H; [reflexivity |].
  destruct (plain_cons c pre H) as [Hc Hpre].
  change (String c pre ++ rest) with (String c (pre ++ rest)).
  cbn [expand]. rewrite Hc. cbn [negb]. now rewrite (IH Hpre).
Qed.

Lemma expand_all_plain (groups : nat) (caps : list (nat * string))
      (matched before after template : string) :
  includes template "$" = false ->
  expand groups caps matched before after template = template.
Proof.
  intros H. rewrite <- (append_empty template) at 1.
  rewrite (expand_plain _ _ _ _ _ _ _ H). apply append_empty.
Qed.

Lemma indexOf_includes (s sub : string) :
  includes s sub = true -> exists i, indexOf s sub = Some i.
Proof.
  induction s as [| c s IH]; intros H.
  - rewrite includes_eq in H. rewrite orb_false_r in H.
    exists 0. cbn [indexOf]. now rewrite H.
  - rewrite includes_eq in H. cbn [indexOf].
    destruct (String.prefix sub (String c s)); [now exists 0 |].
    destruct (IH H) as [i Hi]. exists (S i). now rewrite Hi.
Qed.

(** Replacing a text by a template without a dollar sign puts the template
    into the result. *)
Lemma replace_text_includes (pattern template s : string) :
  includes s pattern = true ->
  includes template "$" = false ->
  exists a b, replace_text pattern template s = a ++ template ++ b.
Proof.
  intros Hin Hplain. destruct (indexOf_includes s pattern Hin) as [i Hi].
  unfold replace_text. rewrite Hi. rewrite (expand_all_plain _ _ _ _ _ _ Hplain).
  eauto.
Qed.

Lemma test_search (r : re) (s : string) :
  test r s = true -> exists start m, search r None s 0 = Some (start, m).
Proof.
  unfold test. destruct (search r None s 0) as [[start m] |]; [eauto | discriminate].
Qed.

End ReplaceFacts.

Section SpliceFacts.
Import JS Regex SqlGenerator.

(** A template that begins with "WHERE ", then a text without a dollar sign,
    leaves that text in the result of a replacement. *)
Lemma replace_includes (r : re) (groups : nat) (f tail s : string) :
  test r s = true ->
  includes f "$" = false ->
  includes (replace r groups ("WHERE " ++ f ++ tail) s) f = true.
Proof.
  intros Htest Hplain. destruct (test_search r s Htest) as (start & m & Hs).
  unfold replace. rewrite Hs.
  change ("WHERE " ++ f ++ tail) with ("WHERE " ++ (f ++ tail)).
  rewrite (expand_plain _ _ _ _ _ "WHERE " (f ++ tail) eq_refl).
  rewrite (expand_plain _ _ _ _ _ f tail Hplain).
  match goal with
  | |- includes (?a ++ ("WHERE " ++ f ++ ?x) ++ ?b) f = true =>
      replace (a ++ ("WHERE " ++ f ++ x) ++ b)
        with ((a ++ "WHERE ") ++ f ++ (x ++ b))
        by (now rewrite !append_assoc)
  end.
  apply includes_app.
Qed.

Lemma applyRBAC_includes_filter (user : Runtime.AuthenticatedUser) (sql : string) :
  includes (getRBACFilter user (Some sql)) "$" = false ->
  includes (applyRBAC user sql) (getRBACFilter user (Some sql)) = true.
Proof.
  intros Hplain. unfold applyRBAC.
  set (f := getRBACFilter user (Some sql)) in *.
  destruct (includes sql "{RBAC_FILTER}") eqn:Hph.
  - destruct (replace_text_includes "{RBAC_FILTER}" f sql Hph Hplain) as (a & b & ->).
    apply includes_app.
  - destruct (test whereClause sql) eqn:Hwhere.
    + now apply replace_includes.
    + destruct (find _ insertPoints) as [point |] eqn:Hfind.
      * apply find_some in Hfind. destruct Hfind as [_ Htest].
        now apply replace_includes.
      * replace (trimEnd sql ++ " WHERE " ++ f)
          with ((trimEnd sql ++ " WHERE ") ++ f ++ "")
          by (now rewrite append_empty, append_assoc).
        apply includes_app.
Qed.

End SpliceFacts.

(* ------------------------------------------------------------------------- *)
(** ** The matcher on words separated by white space *)

Section WordFacts.
Import JS Regex Words.

Lemma upper_char_space (c : ascii) : is_space c = true -> upper_char c = c.
Proof.
destruct c as [[] [] [] [] [] [] [] []]; intros H; vm_compute in H |- *;
  congruence.
Qed.

Lemma solid_not_space (a : ascii) (w : string) (c : ascii) :
  solid (String a w) = true -> is_space c = true -> same_letter a c = false.
Proof.
unfold solid, same_letter. intros Hsolid Hspace.
rewrite (upper_char_space c Hspace).
destruct (Ascii.eqb_spec c (upper_char a)) as [-> | _]; [| reflexivity].
now rewrite Hspace in Hsolid.
Qed.

Lemma same_letter_trans (a b c : ascii) :
  same_letter a b = true -> same_letter b c = true -> same_letter a c = true.
Proof.
unfold same_letter. rewrite !Ascii.eqb_eq. congruence.
Qed.

Lemma drop_drop (n m : nat) (x : string) : drop (n + m) x = drop m (drop n x).
Proof.
revert x. induction n as [| n IH]; intros x; [reflexivity |].
destruct x as [| c t]; cbn [drop Nat.add].
- now destruct m.
- apply IH.
Qed.

Lemma after_word_drop (w x y : string) :
  after_word w x = Some y ->
  String.length x = String.length w + String.length y /\ drop (String.length w) x = y.
Proof.
revert x. induction w as [| a w IH]; intros x H; cbn in H.
- injection H as ->. now split.
- destruct x as [| c t]; [discriminate |].
  destruct (same_letter a c); [| discriminate].
  destruct (IH t H) as [Hlen Hdrop]. cbn. now rewrite Hlen.
Qed.

Lemma spaces_trimStart (x : string) :
  String.length x = spaces x + String.length (trimStart x)
  /\ drop (spaces x) x = trimStart x.
Proof.
induction x as [| c t [Hlen Hdrop]]; [now split |].
cbn [spaces trimStart]. destruct (is_space c); cbn; [| now split].
now rewrite <- Hlen.
Qed.

Lemma after_spaces_drop (x z : string) :
  after_spaces x = Some z ->
  0 < spaces x /\ String.length x = spaces x + String.length z
  /\ drop (spaces x) x = z.
Proof.
destruct x as [| c t]; cbn [after_spaces spaces]; [discriminate |].
destruct (is_space c); [| discriminate]. intros H. injection H as <-.
destruct (spaces_trimStart t) as [Hlen Hdrop]. cbn.
rewrite <- Hlen. repeat split; [lia | exact Hdrop].
Qed.

Lemma after_words_cons (w v : string) (rest : list string) (x : string) :
  after_words (w :: v :: rest) x =
  match after_word w x with
  | None => None
  | Some y =>
      match after_spaces y with
      | None => None
      | Some z => after_words (v :: rest) z
      end
  end.
Proof. reflexivity. Qed.

(** The words cover a stretch of the text, and what follows them is the rest. *)
Lemma after_words_drop (ws : list string) (x y : string) :
  after_words ws x = Some y ->
  exists n, String.length x = n + String.length y /\ drop n x = y
            /\ (match ws with w :: _ => String.length w | [] => 0 end <= n).
Proof.
revert x. induction ws as [| w rest IH]; intros x H.
- injection H as ->. exists 0. now repeat split.
- destruct rest as [| v rest].
  + destruct (after_word_drop w x y H) as [Hlen Hdrop].
    exists (String.length w). now repeat split.
  + rewrite after_words_cons in H.
    destruct (after_word w x) as [y1 |] eqn:Hw; [| discriminate].
    destruct (after_spaces y1) as [z |] eqn:Hs; [| discriminate].
    destruct (after_word_drop w x y1 Hw) as [Hlen1 Hdrop1].
    destruct (after_spaces_drop y1 z Hs) as (_ & Hlen2 & Hdrop2).
    destruct (IH z H) as (n & Hlen3 & Hdrop3 & _).
    exists (String.length w + spaces y1 + n). repeat split; [lia | | lia].
    now rewrite !drop_drop, Hdrop1, Hdrop2.
Qed.

Lemma consume_rest (n : nat) (s : mstate) :
  n <= String.length (m_rest s) ->
  m_rest (consume n s) = drop n (m_rest s) /\ m_pos (consume n s) = m_pos s + n.
Proof.
revert s. induction n as [| n IH]; intros s Hn; cbn [consume].
- split; [reflexivity | lia].
- destruct (m_rest s) as [| c t] eqn:Hrest; cbn in Hn; [lia |].
  destruct (IH (eat c t s)) as [Hr Hp]; [cbn; lia |].
  cbn in Hr, Hp. rewrite Hr, Hp. split; [reflexivity | lia].
Qed.

Lemma consume_add (n m : nat) (s : mstate) :
  n <= String.length (m_rest s) -> consume (n + m) s = consume m (consume n s).
Proof.
revert s. induction n as [| n IH]; intros s Hn; [reflexivity |].
cbn [consume Nat.add]. destruct (m_rest s) as [| c t] eqn:Hrest; cbn in Hn; [lia |].
apply IH. cbn. lia.
Qed.

(** A word under the i flag. *)
Lemma run_lit_i (w : string) (k : mstate -> option mstate) (s : mstate) :
  run (lit_i w) k s =
  match after_word w (m_rest s) with
  | Some _ => k (consume (String.length w) s)
  | None => None
  end.
Proof.
revert s k. induction w as [| a w IH]; intros s k; [reflexivity |].
assert (Hstep : run (lit_i (String a w)) k s = run (chr_i a) (run (lit_i w) k) s)
  by (destruct w; reflexivity).
rewrite Hstep. cbn [run chr_i after_word consume String.length].
destruct (m_rest s) as [| c t]; [reflexivity |].
fold (same_letter a c). destruct (same_letter a c); [| reflexivity].
apply IH.
Qed.

(** A greedy run of white space gives nothing back when what follows cannot
    begin with white space. *)
Lemma star_loop_spaces (k : mstate -> option mstate) (n : nat) (s : mstate) :
  (forall s' c t, m_rest s' = String c t -> is_space c = true -> k s' = None) ->
  spaces (m_rest s) < n ->
  star_loop (run space) true k n s = k (consume (spaces (m_rest s)) s).
Proof.
intros Hk. revert s. induction n as [| n IH]; intros s Hn; [lia |].
cbn [star_loop run space].
destruct (m_rest s) as [| c t] eqn:Hrest; cbn [spaces] in *.
- reflexivity.
- destruct (is_space c) eqn:Hc; [| reflexivity].
  cbn [eat m_pos]. rewrite (proj2 (Nat.ltb_lt _ _) (Nat.lt_succ_diag_r _)).
  rewrite IH by (cbn; lia). cbn [consume]. rewrite Hrest.
  cbn [eat m_rest]. rewrite (Hk s c t Hrest Hc).
  now destruct (k _).
Qed.

Lemma spaces_le (x : string) : spaces x <= String.length x.
Proof. destruct (spaces_trimStart x) as [H _]. lia. Qed.

Lemma run_spaces (k : mstate -> option mstate) (s : mstate) :
  (forall s' c t, m_rest s' = String c t -> is_space c = true -> k s' = None) ->
  run (plus true space) k s =
  match after_spaces (m_rest s) with
  | Some _ => k (consume (spaces (m_rest s)) s)
  | None => None
  end.
Proof.
intros Hk. cbn [plus run space].
destruct (m_rest s) as [| c t] eqn:Hrest; [reflexivity |].
cbn [after_spaces spaces]. destruct (is_space c); [| reflexivity].
cbn [eat m_rest]. rewrite star_loop_spaces; [| exact Hk |].
- cbn [consume]. now rewrite Hrest.
- cbn. pose proof (spaces_le t). lia.
Qed.

End WordFacts.

Section PatternFacts.
Import JS Regex Words.

Lemma pattern_cons (w v : string) (rest : list string) :
  pattern (w :: v :: rest) =
  Cat (lit_i w) (Cat (plus true space) (pattern (v :: rest))).
Proof. destruct rest; reflexivity. Qed.

Lemma after_words_space (v : string) (rest : list string) (c : ascii) (t : string) :
  solid v = true -> is_space c = true -> after_words (v :: rest) (String c t) = None.
Proof.
intros Hsolid Hspace.
assert (H : after_word v (String c t) = None).
{ destruct v as [| a v]; [discriminate |].
  cbn [after_word]. now rewrite (solid_not_space a v c Hsolid Hspace). }
destruct rest; [exact H |]. now rewrite after_words_cons, H.
Qed.

(** The matcher reads the words as [after_words] does. *)
Lemma run_pattern (ws : list string) (k : mstate -> option mstate) (s : mstate) :
  forallb solid ws = true ->
  run (pattern ws) k s =
  match after_words ws (m_rest s) with
  | Some y => k (consume (String.length (m_rest s) - String.length y) s)
  | None => None
  end.
Proof.
revert k s. induction ws as [| w rest IH]; intros k s Hsolid.
- cbn. now rewrite Nat.sub_diag.
- cbn [forallb] in Hsolid. apply andb_prop in Hsolid. destruct Hsolid as [Hw Hrest].
  destruct rest as [| v rest].
  + change (pattern [w]) with (lit_i w). rewrite run_lit_i. cbn [after_words].
    destruct (after_word w (m_rest s)) as [y |] eqn:Hy; [| reflexivity].
    destruct (after_word_drop _ _ _ Hy) as [Hlen _].
    f_equal. f_equal. lia.
  + rewrite pattern_cons, after_words_cons. cbn [run]. rewrite run_lit_i.
    destruct (after_word w (m_rest s)) as [y1 |] eqn:Hy1; [| reflexivity].
    destruct (after_word_drop _ _ _ Hy1) as [Hlen1 Hdrop1].
    destruct (consume_rest (String.length w) s) as [Hr1 Hp1]; [lia |].
    rewrite Hdrop1 in Hr1.
    change (run (Cat space (Star true space))) with (run (plus true space)).
    rewrite run_spaces.
    2:{ intros s' c t Hs' Hc. rewrite (IH _ _ Hrest), Hs'.
        cbn [forallb] in Hrest. apply andb_prop in Hrest.
        now rewrite (after_words_space v rest c t (proj1 Hrest) Hc). }
    rewrite Hr1.
    destruct (after_spaces y1) as [z |] eqn:Hz; [| reflexivity].
    destruct (after_spaces_drop _ _ Hz) as (_ & Hlen2 & Hdrop2).
    destruct (consume_rest (spaces y1) (consume (String.length w) s)) as [Hr2 Hp2];
      [rewrite Hr1; lia |].
    rewrite Hr1, Hdrop2 in Hr2.
    rewrite (IH _ _ Hrest), Hr2.
    destruct (after_words (v :: rest) z) as [y |] eqn:Hy; [| reflexivity].
    destruct (after_words_drop _ _ _ Hy) as (n & Hlen3 & _).
    rewrite <- !consume_add by (rewrite ?Hr1; lia).
    f_equal. f_equal. lia.
Qed.

Lemma match_at_pattern (ws : list string) (prev : option ascii) (x : string) (pos : nat) :
  forallb solid ws = true ->
  match_at (pattern ws) prev x pos =
  match after_words ws x with
  | Some y =>
      Some (consume (String.length x - String.length y)
              {| m_prev := prev; m_rest := x; m_pos := pos; m_caps := [] |})
  | None => None
  end.
Proof. intros Hsolid. unfold match_at. now rewrite run_pattern. Qed.

(** [test] on such a pattern. *)
Lemma search_occurs (ws : list string) (prev : option ascii) (x : string) (pos : nat) :
  forallb solid ws = true ->
  match search (pattern ws) prev x pos with Some _ => true | None => false end
  = occurs ws x.
Proof.
intros Hsolid. revert prev pos.
induction x as [| c t IH]; intros prev pos; cbn [search occurs];
  rewrite match_at_pattern by exact Hsolid; unfold starts;
  destruct (after_words ws _); try reflexivity.
apply IH.
Qed.

Lemma test_occurs (ws : list string) (x : string) :
  forallb solid ws = true -> test (pattern ws) x = occurs ws x.
Proof. intros Hsolid. now apply search_occurs. Qed.

Lemma consume_caps (n : nat) (s : mstate) : m_caps (consume n s) = m_caps s.
Proof.
revert s. induction n as [| n IH]; intros s; cbn [consume]; [reflexivity |].
destruct (m_rest s); [reflexivity |]. now rewrite IH.
Qed.

(** The replacement of every match by a text without [$]. *)
Lemma replace_scan_collapse (ws : list string) (ins whole : string)
      (prev : option ascii) (x : string) (pos skip : nat) :
  forallb solid ws = true -> ws <> [] -> includes ins "$" = false ->
  replace_scan (pattern ws) 0 ins whole prev x pos skip = collapse ws ins x skip.
Proof.
intros Hsolid Hws Hins. revert prev pos skip.
induction x as [| c t IH]; intros prev pos skip.
- destruct skip; cbn [replace_scan collapse]; [| reflexivity].
  rewrite match_at_pattern by exact Hsolid.
  destruct (after_words ws ""); [| reflexivity].
  now rewrite expand_all_plain.
- destruct skip as [| k]; cbn [replace_scan collapse]; [| apply IH].
  rewrite match_at_pattern by exact Hsolid.
  destruct (after_words ws (String c t)) as [y |] eqn:Hy; [| now rewrite IH].
  rewrite expand_all_plain by exact Hins. f_equal.
  destruct (after_words_drop _ _ _ Hy) as (n & Hlen & _ & Hn).
  destruct ws as [| w rest]; [now elim Hws |].
  assert (0 < String.length w).
  { cbn [forallb] in Hsolid. apply andb_prop in Hsolid.
    destruct w; [now destruct Hsolid | cbn; lia]. }
  destruct (consume_rest (String.length (String c t) - String.length y)
              {| m_prev := prev; m_rest := String c t; m_pos := pos; m_caps := [] |})
    as [_ Hp]; [cbn [m_rest]; lia |].
  rewrite Hp. cbn [m_pos].
  replace (pos + (String.length (String c t) - String.length y) =? pos) with false
    by (symmetry; apply Nat.eqb_neq; lia).
  rewrite IH. f_equal. lia.
Qed.

Lemma replaceAll_collapse (ws : list string) (ins x : string) :
  forallb solid ws = true -> ws <> [] -> includes ins "$" = false ->
  replaceAll (pattern ws) 0 ins x = collapse ws ins x 0.
Proof. intros. now apply replace_scan_collapse. Qed.

End PatternFacts.

(* ------------------------------------------------------------------------- *)
(** ** What one replacement pass leaves behind *)

Section CollapseFacts.
Import JS Regex Words.

Lemma collapse_skip (ws : list string) (ins x : string) (k : nat) :
  k <= String.length x -> collapse ws ins x k = collapse ws ins (drop k x) 0.
Proof.
revert x. induction k as [| k IH]; intros x Hk; [reflexivity |].
destruct x as [| c t]; cbn in Hk; [lia |].
cbn [collapse drop]. apply IH. lia.
Qed.

Lemma collapse_match (w : string) (rest : list string) (ins x y : string) :
  0 < String.length w -> after_words (w :: rest) x = Some y ->
  collapse (w :: rest) ins x 0 = ins ++ collapse (w :: rest) ins y 0.
Proof.
intros Hw Hy. destruct (after_words_drop _ _ _ Hy) as (n & Hlen & Hdrop & Hn).
destruct x as [| c t]; cbn [String.length] in Hlen; [lia |].
cbn [collapse]. rewrite Hy. f_equal. cbn [String.length].
rewrite collapse_skip by lia. f_equal.
destruct n as [| n]; [lia |]. cbn [drop] in Hdrop.
replace (S (String.length t) - String.length y - 1) with n by lia.
exact Hdrop.
Qed.

Lemma collapse_copy (ws : list string) (ins : string) (c : ascii) (t : string) :
  after_words ws (String c t) = None ->
  collapse ws ins (String c t) 0 = String c (collapse ws ins t 0).
Proof. intros H. cbn [collapse]. now rewrite H. Qed.

Lemma occurs_eq (ws : list string) (x : string) :
  occurs ws x =
  starts ws x || match x with EmptyString => false | String _ t => occurs ws t end.
Proof. destruct x; reflexivity. Qed.

Lemma occurs_drop (ws : list string) (n : nat) (x : string) :
  occurs ws (drop n x) = true -> occurs ws x = true.
Proof.
revert x. induction n as [| n IH]; intros x H; [exact H |].
destruct x as [| c t]; [exact H |].
rewrite occurs_eq. cbn [drop] in H. rewrite (IH t H). apply orb_true_r.
Qed.

Lemma starts_occurs (ws : list string) (x : string) :
  starts ws x = true -> occurs ws x = true.
Proof. intros H. now rewrite occurs_eq, H. Qed.

Lemma starts_word_cons (a : ascii) (u : string) (c : ascii) (x : string) :
  starts [String a u] (String c x) = same_letter a c && starts [u] x.
Proof. unfold starts. cbn. now destruct (same_letter a c). Qed.

Lemma starts_word_empty (a : ascii) (u : string) : starts [String a u] "" = false.
Proof. reflexivity. Qed.

Lemma starts_after_word (w x : string) :
  starts [w] x = match after_word w x with Some _ => true | None => false end.
Proof. reflexivity. Qed.

Lemma starts_spaced (w v x : string) :
  starts [w; v] x =
  match after_word w x with Some y => spaced v y | None => false end.
Proof.
unfold starts, spaced. rewrite after_words_cons.
destruct (after_word w x) as [y |]; [| reflexivity].
now destruct (after_spaces y).
Qed.

(** A text that begins with [w] begins with what [w] begins with. *)
Lemma starts_trans (u w z r : string) :
  String.length u <= String.length w ->
  starts [w] z = true -> starts [u] (w ++ r) = true -> starts [u] z = true.
Proof.
revert w z. induction u as [| a u IH]; intros w z Hlen Hw Hu; [reflexivity |].
destruct w as [| b w]; cbn in Hlen; [lia |].
destruct z as [| c z]; [discriminate |].
change (String b w ++ r) with (String b (w ++ r)) in Hu.
rewrite starts_word_cons in *.
apply andb_prop in Hw. destruct Hw as [Hbc Hw].
apply andb_prop in Hu. destruct Hu as [Hab Hu].
rewrite (same_letter_trans a b c Hab Hbc). apply (IH w z); [lia | exact Hw | exact Hu].
Qed.

Lemma solid_head (a : ascii) (w : string) :
  solid (String a w) = true -> is_space a = false.
Proof.
unfold solid. intros H. destruct (is_space a) eqn:Ha; [| reflexivity].
now rewrite (upper_char_space a Ha), Ha in H.
Qed.

Variables (h : ascii) (tl w2 : string).
Hypothesis Hsolid : solid (String h tl) = true.
Hypothesis Hlen : String.length w2 <= String.length (String h tl).

Lemma pass_match (x y : string) :
  after_words [String h tl; w2] x = Some y ->
  pass (String h tl) w2 x = String h tl ++ pass (String h tl) w2 y.
Proof. apply collapse_match. cbn. lia. Qed.

Lemma pass_copy (c : ascii) (t : string) :
  after_words [String h tl; w2] (String c t) = None ->
  pass (String h tl) w2 (String c t) = String c (pass (String h tl) w2 t).
Proof. apply collapse_copy. Qed.

Lemma match_starts (x y : string) :
  after_words [String h tl; w2] x = Some y -> starts [(String h tl)] x = true.
Proof.
rewrite after_words_cons, starts_after_word.
now destruct (after_word (String h tl) x).
Qed.

(** The pass keeps how the text begins, for as long as the first word is. *)
Lemma pass_starts (u z : string) :
  String.length u <= String.length (String h tl) ->
  starts [u] (pass (String h tl) w2 z) = true -> starts [u] z = true.
Proof.
revert z. induction u as [| a u IH]; intros z Hu H; [reflexivity |].
destruct (after_words [String h tl; w2] z) as [y |] eqn:Hy.
- rewrite (pass_match _ _ Hy) in H.
  exact (starts_trans _ _ _ _ Hu (match_starts _ _ Hy) H).
- destruct z as [| c t]; [discriminate |].
  rewrite (pass_copy _ _ Hy) in H. rewrite starts_word_cons in *.
  apply andb_prop in H. destruct H as [Hc H]. rewrite Hc.
  apply IH; [cbn in Hu |- *; lia | exact H].
Qed.

Lemma pass_trimStart (t : string) :
  starts [w2] (trimStart (pass (String h tl) w2 t)) = true ->
  starts [w2] (trimStart t) = true.
Proof.
induction t as [| c t IH]; intros H; [exact H |].
destruct (after_words [String h tl; w2] (String c t)) as [y |] eqn:Hy.
- rewrite (pass_match _ _ Hy) in H.
  change (String h tl ++ pass (String h tl) w2 y)
    with (String h (tl ++ pass (String h tl) w2 y)) in H.
  cbn [trimStart] in H. rewrite (solid_head _ _ Hsolid) in H.
  pose proof (match_starts _ _ Hy) as Hw. cbn [trimStart].
  destruct (is_space c) eqn:Hc.
  + rewrite starts_word_cons, (solid_not_space _ _ _ Hsolid Hc) in Hw. discriminate.
  + exact (starts_trans _ _ _ _ Hlen Hw H).
- rewrite (pass_copy _ _ Hy) in H. cbn [trimStart] in *.
  destruct (is_space c); [exact (IH H) |].
  rewrite <- (pass_copy _ _ Hy) in H. exact (pass_starts _ _ Hlen H).
Qed.

Lemma pass_spaced (z : string) :
  spaced w2 (pass (String h tl) w2 z) = true -> spaced w2 z = true.
Proof.
destruct (after_words [String h tl; w2] z) as [y |] eqn:Hy.
- rewrite (pass_match _ _ Hy). unfold spaced at 1.
  change (String h tl ++ pass (String h tl) w2 y)
    with (String h (tl ++ pass (String h tl) w2 y)).
  cbn [after_spaces]. now rewrite (solid_head _ _ Hsolid).
- destruct z as [| c t]; [intros H; exact H |].
  rewrite (pass_copy _ _ Hy). unfold spaced. cbn [after_spaces].
  destruct (is_space c); [| discriminate].
  intros H. apply pass_trimStart. exact H.
Qed.

(** Letters that cannot begin the first word are copied. *)
Lemma pass_after_word (u t r : string) :
  has_letter h u = false -> after_word u (pass (String h tl) w2 t) = Some r ->
  exists r', after_word u t = Some r' /\ r = pass (String h tl) w2 r'.
Proof.
revert t. induction u as [| a u IH]; intros t Hu H.
- injection H as <-. now exists t.
- cbn [has_letter] in Hu. apply orb_false_elim in Hu. destruct Hu as [Ha Hu].
  destruct (after_words [String h tl; w2] t) as [y |] eqn:Hy.
  + rewrite (pass_match _ _ Hy) in H.
    change (String h tl ++ pass (String h tl) w2 y)
      with (String h (tl ++ pass (String h tl) w2 y)) in H.
    cbn [after_word] in H. now rewrite Ha in H.
  + destruct t as [| c t]; [discriminate |].
    rewrite (pass_copy _ _ Hy) in H. cbn [after_word] in *.
    destruct (same_letter a c); [| discriminate].
    now apply IH.
Qed.

Lemma pass_starts_words (a : ascii) (u : string) (c : ascii) (t : string) :
  has_letter h u = false ->
  starts [String a u; w2] (String c (pass (String h tl) w2 t)) = true ->
  starts [String a u; w2] (String c t) = true.
Proof.
intros Hu. rewrite !starts_spaced. cbn [after_word].
destruct (same_letter a c); [| discriminate].
destruct (after_word u (pass (String h tl) w2 t)) as [r |] eqn:Hr; [| discriminate].
destruct (pass_after_word _ _ _ Hu Hr) as (r' & -> & ->).
apply pass_spaced.
Qed.

(** Occurrences of other words [a u \s+ w2] after the pass, when none of them
    can begin inside the first word. *)
Variables (a : ascii) (u : string) (target : list string).
Hypothesis Hu : has_letter h u = false.
Hypothesis Hinside :
  forall r, occurs [String a u; w2] (String h tl ++ r)
            = starts [String a u; w2] (String h tl ++ r) || occurs [String a u; w2] r.
Hypothesis Hmatch :
  forall x y, after_words [String h tl; w2] x = Some y ->
              starts [String a u; w2] (String h tl ++ pass (String h tl) w2 y) = true ->
              occurs target x = true.
Hypothesis Hcopy :
  forall x, after_words [String h tl; w2] x = None ->
            starts [String a u; w2] x = true -> occurs target x = true.

Lemma pass_occurs (x : string) :
  occurs [String a u; w2] (pass (String h tl) w2 x) = true -> occurs target x = true.
Proof.
assert (H : forall n x, String.length x <= n ->
                        occurs [String a u; w2] (pass (String h tl) w2 x) = true ->
                        occurs target x = true);
  [| now apply (H (String.length x))].
clear x. induction n as [| n IH]; intros x Hn H.
- destruct x; [discriminate | cbn in Hn; lia].
- destruct (after_words [String h tl; w2] x) as [y |] eqn:Hy.
  + rewrite (pass_match _ _ Hy), Hinside in H.
    apply orb_prop in H. destruct H as [H | H].
    * exact (Hmatch x y Hy H).
    * destruct (after_words_drop _ _ _ Hy) as (m & Hlen' & Hdrop & Hm).
      cbn [String.length] in Hm.
      apply (occurs_drop _ m). rewrite Hdrop. apply IH; [lia | exact H].
  + destruct x as [| c t]; [discriminate |].
    rewrite (pass_copy _ _ Hy), occurs_eq in H.
    apply orb_prop in H. destruct H as [H | H].
    * apply (Hcopy _ Hy). now apply pass_starts_words.
    * rewrite occurs_eq. cbn [String.length] in Hn.
      rewrite (IH t) by (lia || exact H). apply orb_true_r.
Qed.

End CollapseFacts.

Section CleanUpFacts.
Import JS Regex Words SqlGenerator.

Lemma occurs_cons (ws : list string) (c : ascii) (t : string) :
  occurs ws (String c t) = starts ws (String c t) || occurs ws t.
Proof. reflexivity. Qed.

Lemma starts_mismatch (a : ascii) (u : string) (rest : list string)
      (c : ascii) (x : string) :
  same_letter a c = false -> starts (String a u :: rest) (String c x) = false.
Proof.
intros H. unfold starts.
assert (Hw : after_word (String a u) (String c x) = None) by (cbn; now rewrite H).
destruct rest; [cbn [after_words] | rewrite after_words_cons]; now rewrite Hw.
Qed.

Lemma starts_match (w v x y : string) :
  after_words [w; v] x = Some y -> starts [w; v] x = true.
Proof. unfold starts. now intros ->. Qed.

(** After [AND\s+AND] has been replaced, a pair of ANDs needs three in a row
    before. *)
Lemma pass_and_and (x : string) :
  occurs ["AND"; "AND"] (pass "AND" "AND" x) = true ->
  occurs ["AND"; "AND"; "AND"] x = true.
Proof.
apply (pass_occurs "A" "ND" "AND" eq_refl (Nat.le_refl _) "A" "ND").
- reflexivity.
- intros r. cbn [append]. rewrite !occurs_cons.
  rewrite (starts_mismatch "A" "ND" ["AND"] "N" (String "D" r) eq_refl).
  now rewrite (starts_mismatch "A" "ND" ["AND"] "D" r eq_refl).
- intros y z Hz H. apply starts_occurs.
  rewrite starts_spaced in H. cbn in H.
  apply (pass_spaced "A" "ND" "AND" eq_refl (Nat.le_refl _)) in H.
  unfold starts. rewrite after_words_cons. rewrite after_words_cons in Hz.
  destruct (after_word "AND" y) as [y1 |]; [| discriminate].
  destruct (after_spaces y1) as [y2 |]; [| discriminate].
  rewrite after_words_cons. cbn [after_words] in Hz. rewrite Hz.
  unfold spaced in H. destruct (after_spaces z) as [z1 |]; [| discriminate].
  cbn [after_words]. now destruct (after_word "AND" z1).
- intros y Hy H. unfold starts in H. now rewrite Hy in H.
Qed.

(** After [WHERE\s+AND] has been replaced, a WHERE before an AND needs a pair
    of ANDs before. *)
Lemma pass_where_and (x : string) :
  occurs ["WHERE"; "AND"] (pass "WHERE" "AND" x) = true ->
  occurs ["AND"; "AND"] x = true.
Proof.
assert (Hlen : String.length "AND" <= String.length "WHERE") by (cbn; lia).
apply (pass_occurs "W" "HERE" "AND" eq_refl Hlen "W" "HERE").
- reflexivity.
- intros r. cbn [append]. rewrite !occurs_cons.
  rewrite (starts_mismatch "W" "HERE" ["AND"] "H"
             (String "E" (String "R" (String "E" r))) eq_refl).
  rewrite (starts_mismatch "W" "HERE" ["AND"] "E" (String "R" (String "E" r)) eq_refl).
  rewrite (starts_mismatch "W" "HERE" ["AND"] "R" (String "E" r) eq_refl).
  now rewrite (starts_mismatch "W" "HERE" ["AND"] "E" r eq_refl).
- intros y z Hz H.
  rewrite starts_spaced in H. cbn in H.
  apply (pass_spaced "W" "HERE" "AND" eq_refl Hlen) in H.
  rewrite after_words_cons in Hz.
  destruct (after_word "WHERE" y) as [y1 |] eqn:Hy1; [| discriminate].
  destruct (after_spaces y1) as [y2 |] eqn:Hy2; [| discriminate].
  cbn [after_words] in Hz.
  destruct (after_word_drop _ _ _ Hy1) as [_ Hd1].
  destruct (after_spaces_drop _ _ Hy2) as (_ & _ & Hd2).
  apply (occurs_drop _ (String.length "WHERE" + spaces y1)).
  rewrite drop_drop, Hd1, Hd2. apply starts_occurs.
  now rewrite starts_spaced, Hz.
- intros y Hy H. unfold starts in H. now rewrite Hy in H.
Qed.

(** The replacement of [WHERE\s+AND] brings no pair of ANDs. *)
Lemma pass_where_keeps (x : string) :
  occurs ["AND"; "AND"] (pass "WHERE" "AND" x) = true ->
  occurs ["AND"; "AND"] x = true.
Proof.
assert (Hlen : String.length "AND" <= String.length "WHERE") by (cbn; lia).
apply (pass_occurs "W" "HERE" "AND" eq_refl Hlen "A" "ND").
- reflexivity.
- intros r. cbn [append]. rewrite !occurs_cons.
  rewrite (starts_mismatch "A" "ND" ["AND"] "W"
             (String "H" (String "E" (String "R" (String "E" r)))) eq_refl).
  rewrite (starts_mismatch "A" "ND" ["AND"] "H"
             (String "E" (String "R" (String "E" r))) eq_refl).
  rewrite (starts_mismatch "A" "ND" ["AND"] "E" (String "R" (String "E" r)) eq_refl).
  rewrite (starts_mismatch "A" "ND" ["AND"] "R" (String "E" r) eq_refl).
  now rewrite (starts_mismatch "A" "ND" ["AND"] "E" r eq_refl).
- intros y z _ H. cbn [append] in H.
  now rewrite (starts_mismatch "A" "ND" ["AND"] "W" _ eq_refl) in H.
- intros y _ H. now apply starts_occurs.
Qed.

Lemma cleanUp_passes (sql : string) :
  cleanUp sql = pass "WHERE" "AND" (pass "AND" "AND" sql).
Proof.
unfold cleanUp, pass.
change andAnd with (pattern ["AND"; "AND"]).
change whereAnd with (pattern ["WHERE"; "AND"]).
now rewrite !replaceAll_collapse.
Qed.

(** Without three ANDs in a row, the clean-up leaves no [AND\s+AND] and no
    [WHERE\s+AND]. *)
Lemma cleanUp_repairs (sql : string) :
  test Described.tripleAnd sql = false ->
  test andAnd (cleanUp sql) = false /\ test whereAnd (cleanUp sql) = false.
Proof.
intros H. unfold Described.tripleAnd in H. rewrite test_occurs in H by reflexivity.
change andAnd with (pattern ["AND"; "AND"]).
change whereAnd with (pattern ["WHERE"; "AND"]).
rewrite !test_occurs by reflexivity. rewrite cleanUp_passes.
assert (Hpairs : occurs ["AND"; "AND"] (pass "AND" "AND" sql) = false).
{ destruct (occurs _ (pass "AND" "AND" sql)) eqn:Hp; [| reflexivity].
  now rewrite (pass_and_and _ Hp) in H. }
split.
- destruct (occurs ["AND"; "AND"] (pass "WHERE" "AND" _)) eqn:Hp; [| reflexivity].
  now rewrite (pass_where_keeps _ Hp) in Hpairs.
- destruct (occurs ["WHERE"; "AND"] (pass "WHERE" "AND" _)) eqn:Hp; [| reflexivity].
  now rewrite (pass_where_and _ Hp) in Hpairs.
Qed.

End CleanUpFacts.

(* ------------------------------------------------------------------------- *)
(** ** The division of two sums *)

Section ClassFacts.
Import JS Regex Words.

(** A greedy repetition of a class gives nothing back when what follows
    cannot begin with a character of the class. *)
Lemma star_loop_class (p : ascii -> bool) (k : mstate -> option mstate)
      (n : nat) (s : mstate) :
  (forall s' c t, m_rest s' = String c t -> p c = true -> k s' = None) ->
  leading p (m_rest s) < n ->
  star_loop (run (Cls p)) true k n s = k (consume (leading p (m_rest s)) s).
Proof.
intros Hk. revert s. induction n as [| n IH]; intros s Hn; [lia |].
cbn [star_loop run].
destruct (m_rest s) as [| c t] eqn:Hrest; cbn [leading] in *.
- reflexivity.
- destruct (p c) eqn:Hc; [| reflexivity].
  cbn [eat m_pos]. rewrite (proj2 (Nat.ltb_lt _ _) (Nat.lt_succ_diag_r _)).
  rewrite IH by (cbn; lia). cbn [consume]. rewrite Hrest.
  cbn [eat m_rest]. rewrite (Hk s c t Hrest Hc).
  now destruct (k _).
Qed.

Lemma run_class (p : ascii -> bool) (k : mstate -> option mstate) (s : mstate) :
  run (Cls p) k s =
  match m_rest s with
  | String c t => if p c then k (eat c t s) else None
  | EmptyString => None
  end.
Proof. reflexivity. Qed.

Lemma leading_le (p : ascii -> bool) (x : string) : leading p x <= String.length x.
Proof.
induction x as [| c t IH]; cbn; [lia |]. destruct (p c); lia.
Qed.

Lemma run_star_class (p : ascii -> bool) (k : mstate -> option mstate) (s : mstate) :
  (forall s' c t, m_rest s' = String c t -> p c = true -> k s' = None) ->
  run (Star true (Cls p)) k s = k (consume (leading p (m_rest s)) s).
Proof.
intros Hk. cbn [run]. apply star_loop_class; [exact Hk |].
pose proof (leading_le p (m_rest s)). lia.
Qed.

Lemma run_plus_class (p : ascii -> bool) (k : mstate -> option mstate) (s : mstate) :
  (forall s' c t, m_rest s' = String c t -> p c = true -> k s' = None) ->
  run (plus true (Cls p)) k s =
  match leading p (m_rest s) with
  | O => None
  | S n => k (consume (S n) s)
  end.
Proof.
intros Hk. unfold plus.
change (run (Cat (Cls p) (Star true (Cls p))) k s)
  with (run (Cls p) (run (Star true (Cls p)) k) s).
rewrite run_class.
destruct (m_rest s) as [| c t] eqn:Hrest; [reflexivity |].
cbn [leading]. destruct (p c); [| reflexivity].
rewrite run_star_class by exact Hk. cbn [consume eat m_rest]. now rewrite Hrest.
Qed.

(** A group of one or more characters of a class takes all of them. *)
Lemma run_group_class (g : nat) (p : ascii -> bool) (k : mstate -> option mstate)
      (s : mstate) :
  (forall s' c t, m_rest s' = String c t -> p c = true -> k s' = None) ->
  run (Grp g (plus true (Cls p))) k s =
  match leading p (m_rest s) with
  | O => None
  | S n => k (set_cap g (take (S n) (m_rest s)) (consume (S n) s))
  end.
Proof.
intros Hk.
change (run (Grp g (plus true (Cls p))) k s)
  with (run (plus true (Cls p))
            (fun s' => k (set_cap g (take (m_pos s' - m_pos s) (m_rest s)) s')) s).
rewrite run_plus_class.
- destruct (leading p (m_rest s)) as [| n] eqn:Hn; [reflexivity |].
  destruct (consume_rest (S n) s) as [_ Hp].
  { rewrite <- Hn. apply leading_le. }
  rewrite Hp. do 3 f_equal. lia.
- intros s' c t Hs' Hc. now apply (Hk _ c t).
Qed.

Lemma leading_every (p : ascii -> bool) (x : string) (c : ascii) (r : string) :
  every p x = true -> p c = false ->
  leading p (x ++ String c r) = String.length x.
Proof.
intros Hx Hc. induction x as [| a x IH]; cbn [append leading String.length].
- now rewrite Hc.
- cbn [every] in Hx. apply andb_prop in Hx. destruct Hx as [Ha Hx].
  now rewrite Ha, IH.
Qed.

Lemma take_app (x r : string) : take (String.length x) (x ++ r) = x.
Proof.
unfold take. induction x as [| a x IH]; cbn.
- now destruct r.
- now rewrite IH.
Qed.

Lemma drop_app (x r : string) : drop (String.length x) (x ++ r) = r.
Proof. induction x as [| a x IH]; [reflexivity | exact IH]. Qed.

Lemma length_app (x r : string) :
  String.length (x ++ r) = String.length x + String.length r.
Proof. induction x as [| a x IH]; cbn; [reflexivity | now rewrite IH]. Qed.

Lemma consume_app (x r : string) (s : mstate) :
  m_rest s = x ++ r ->
  m_rest (consume (String.length x) s) = r
  /\ m_pos (consume (String.length x) s) = m_pos s + String.length x
  /\ m_caps (consume (String.length x) s) = m_caps s.
Proof.
intros Hs. destruct (consume_rest (String.length x) s) as [Hr Hp].
- rewrite Hs, length_app. lia.
- rewrite Hr, Hp, Hs, drop_app, consume_caps. now repeat split.
Qed.

End ClassFacts.

Section StepFacts.
Import JS Regex Words.

Lemma run_cat (a b : re) (k : mstate -> option mstate) (s : mstate) :
  run (Cat a b) k s = run a (run b k) s.
Proof. reflexivity. Qed.

Lemma after_word_app (w r : string) : after_word w (w ++ r) = Some r.
Proof.
induction w as [| a w IH]; [reflexivity |].
cbn [append after_word]. unfold same_letter. now rewrite Ascii.eqb_refl.
Qed.

(** One step of a match: where it leaves the state. *)
Lemma step_lit_i (w r : string) (k : mstate -> option mstate) (s : mstate) :
  m_rest s = w ++ r ->
  exists s', run (lit_i w) k s = k s' /\ m_rest s' = r
             /\ m_pos s' = m_pos s + String.length w /\ m_caps s' = m_caps s.
Proof.
intros Hs. exists (consume (String.length w) s).
rewrite run_lit_i, Hs, after_word_app. split; [reflexivity |].
now apply consume_app.
Qed.

Lemma step_chr (c : ascii) (r : string) (k : mstate -> option mstate) (s : mstate) :
  m_rest s = String c r ->
  exists s', run (chr c) k s = k s' /\ m_rest s' = r
             /\ m_pos s' = m_pos s + 1 /\ m_caps s' = m_caps s.
Proof.
intros Hs. exists (eat c r s). unfold chr. rewrite run_class, Hs, Ascii.eqb_refl.
cbn. repeat split. lia.
Qed.

Lemma step_star (p : ascii -> bool) (w : string) (c : ascii) (r : string)
      (k : mstate -> option mstate) (s : mstate) :
  m_rest s = w ++ String c r -> every p w = true -> p c = false ->
  (forall s' c' t, m_rest s' = String c' t -> p c' = true -> k s' = None) ->
  exists s', run (Star true (Cls p)) k s = k s' /\ m_rest s' = String c r
             /\ m_pos s' = m_pos s + String.length w /\ m_caps s' = m_caps s.
Proof.
intros Hs Hw Hc Hk. exists (consume (String.length w) s).
rewrite (run_star_class p k s Hk), Hs, (leading_every p w c r Hw Hc).
split; [reflexivity |]. now apply consume_app.
Qed.

Lemma step_group (g : nat) (p : ascii -> bool) (w : string) (c : ascii) (r : string)
      (k : mstate -> option mstate) (s : mstate) :
  m_rest s = w ++ String c r -> w <> "" -> every p w = true -> p c = false ->
  (forall s' c' t, m_rest s' = String c' t -> p c' = true -> k s' = None) ->
  exists s', run (Grp g (plus true (Cls p))) k s = k s' /\ m_rest s' = String c r
             /\ m_pos s' = m_pos s + String.length w
             /\ m_caps s' = (g, w) :: m_caps s.
Proof.
intros Hs Hne Hw Hc Hk.
exists (set_cap g w (consume (String.length w) s)).
rewrite (run_group_class g p k s Hk), Hs, (leading_every p w c r Hw Hc).
destruct w as [| a w]; [now elim Hne |].
cbn [String.length].
change (S (String.length w)) with (String.length (String a w)).
rewrite take_app. split; [reflexivity |].
destruct (consume_app (String a w) (String c r) s Hs) as (Hr & Hp & Hcaps).
cbn [set_cap m_rest m_pos m_caps]. now rewrite Hr, Hp, Hcaps.
Qed.

(** What cannot follow a repetition of a class. *)
Lemma chr_fails (p : ascii -> bool) (c0 : ascii) (k : mstate -> option mstate)
      (s : mstate) (c : ascii) (t : string) :
  p c0 = false -> m_rest s = String c t -> p c = true -> run (chr c0) k s = None.
Proof.
intros H0 Hs Hc. unfold chr. rewrite run_class, Hs.
destruct (Ascii.eqb_spec c0 c) as [-> | _]; [congruence | reflexivity].
Qed.

Lemma lit_i_fails (w : string) (k : mstate -> option mstate)
      (s : mstate) (c : ascii) (t : string) :
  solid w = true -> m_rest s = String c t -> is_space c = true ->
  run (lit_i w) k s = None.
Proof.
intros Hw Hs Hc. rewrite run_lit_i, Hs.
destruct w as [| a w]; [discriminate |].
cbn [after_word]. now rewrite (solid_not_space a w c Hw Hc).
Qed.

End StepFacts.

Section DivisionFacts.
Import JS Regex Words SqlGenerator Described.

Local Ltac continuation f :=
  lazymatch goal with |- exists _, Regex.run _ ?K _ = _ /\ _ => f K end.

Lemma identifier_every (x : string) :
  identifier x = true -> x <> "" /\ every is_word x = true.
Proof. destruct x; [discriminate |]. intros H. now split. Qed.

(** The expression of the first division replacement reads the division of
    two sums, whatever follows it, and captures the two arguments. *)
Lemma run_sumDivision (x y post : string) (k : mstate -> option mstate) (s : mstate) :
  identifier x = true -> identifier y = true ->
  m_rest s = sumOverSum x y ++ post ->
  exists s', run sumDivision k s = k s' /\ m_rest s' = post
             /\ m_pos s' = m_pos s + String.length (sumOverSum x y)
             /\ m_caps s' = (2, y) :: (1, x) :: m_caps s.
Proof.
intros Hx Hy Hs.
destruct (identifier_every x Hx) as [Hx0 Hxw].
destruct (identifier_every y Hy) as [Hy0 Hyw].
unfold sumOverSum in Hs. rewrite !append_assoc in Hs.
assert (Hlength : String.length (sumOverSum x y)
                  = 4 + String.length x + 15 + String.length y + 5).
{ unfold sumOverSum. rewrite !length_app. cbn [String.length]. lia. }
unfold sumDivision, sumRatio, word, space. cbn [cats]. rewrite run_cat.
continuation ltac:(fun K =>
  destruct (step_lit_i "SUM(" _ K s Hs) as (s1 & -> & R1 & P1 & G1)).
rewrite run_cat.
continuation ltac:(fun K =>
  destruct (step_group 1 is_word x ")" (" / NULLIF(SUM(" ++ y ++ "), 0)" ++ post)
              K s1 R1 Hx0 Hxw eq_refl)
    as (s2 & -> & R2 & P2 & G2)).
{ intros s' c' t Hs' Hc'. rewrite run_cat.
  now apply (chr_fails is_word ")" _ s' c' t). }
rewrite run_cat.
continuation ltac:(fun K =>
  destruct (step_chr ")" _ K s2 R2) as (s3 & -> & R3 & P3 & G3)).
rewrite run_cat.
continuation ltac:(fun K =>
  destruct (step_star is_space " " "/" (" NULLIF(SUM(" ++ y ++ "), 0)" ++ post)
              K s3 R3 eq_refl eq_refl)
    as (s4 & -> & R4 & P4 & G4)).
{ intros s' c' t Hs' Hc'. rewrite run_cat.
  now apply (chr_fails is_space "/" _ s' c' t). }
rewrite run_cat.
continuation ltac:(fun K =>
  destruct (step_chr "/" _ K s4 R4) as (s5 & -> & R5 & P5 & G5)).
rewrite run_cat.
continuation ltac:(fun K =>
  destruct (step_star is_space " " "N" ("ULLIF(SUM(" ++ y ++ "), 0)" ++ post)
              K s5 R5 eq_refl eq_refl)
    as (s6 & -> & R6 & P6 & G6)).
{ intros s' c' t Hs' Hc'. rewrite run_cat.
  now apply (lit_i_fails "NULLIF(SUM(" _ s' c' t). }
rewrite run_cat.
continuation ltac:(fun K =>
  destruct (step_lit_i "NULLIF(SUM(" (y ++ "), 0)" ++ post) K s6 R6)
    as (s7 & -> & R7 & P7 & G7)).
rewrite run_cat.
continuation ltac:(fun K =>
  destruct (step_group 2 is_word y ")" (", 0)" ++ post) K s7 R7 Hy0 Hyw eq_refl)
    as (s8 & -> & R8 & P8 & G8)).
{ intros s' c' t Hs' Hc'. cbn [lit]. rewrite !run_cat.
  now apply (chr_fails is_word ")" _ s' c' t). }
cbn [lit]. rewrite !run_cat.
continuation ltac:(fun K =>
  destruct (step_chr ")" _ K s8 R8) as (s9 & -> & R9 & P9 & G9)).
continuation ltac:(fun K =>
  destruct (step_chr "," _ K s9 R9) as (s10 & -> & R10 & P10 & G10)).
rewrite run_cat.
continuation ltac:(fun K =>
  destruct (step_star is_space " " "0" (")" ++ post) K s10 R10 eq_refl eq_refl)
    as (s11 & -> & R11 & P11 & G11)).
{ intros s' c' t Hs' Hc'. rewrite run_cat.
  now apply (chr_fails is_space "0" _ s' c' t). }
rewrite run_cat.
continuation ltac:(fun K =>
  destruct (step_chr "0" _ K s11 R11) as (s12 & -> & R12 & P12 & G12)).
continuation ltac:(fun K =>
  destruct (step_chr ")" _ K s12 R12) as (s13 & -> & R13 & P13 & G13)).
exists s13. repeat split.
- exact R13.
- cbn [String.length] in *. lia.
- congruence.
Qed.

Lemma expand_division (x y matched before after : string) :
  expand 2 [(2, y); (1, x)] matched before after
         "SUM($1)::numeric / NULLIF(SUM($2), 0)"
  = castSumOverSum x y.
Proof. reflexivity. Qed.

(** The characters a match covers are passed over. *)
Lemma replace_scan_skip (r : re) (groups : nat) (template whole : string)
      (prev : option ascii) (a : string) (c : ascii) (post : string) (pos : nat) :
  replace_scan r groups template whole prev (a ++ String c post) pos
               (S (String.length a))
  = replace_scan r groups template whole (Some c) post
                 (pos + S (String.length a)) 0.
Proof.
revert prev pos. induction a as [| a0 a IH]; intros prev pos.
- cbn [append String.length replace_scan]. now rewrite Nat.add_1_r.
- cbn [append String.length replace_scan]. rewrite IH. f_equal. lia.
Qed.

(** Where the scan of the first division replacement stands at the division
    of two sums, it writes the division with the cast and resumes behind it. *)
Lemma replace_scan_division (whole : string) (prev : option ascii)
      (x y post : string) (pos : nat) :
  identifier x = true -> identifier y = true ->
  replace_scan sumDivision 2 "SUM($1)::numeric / NULLIF(SUM($2), 0)" whole prev
               (sumOverSum x y ++ post) pos 0
  = castSumOverSum x y
    ++ replace_scan sumDivision 2 "SUM($1)::numeric / NULLIF(SUM($2), 0)" whole
                    (Some ")"%char) post (pos + String.length (sumOverSum x y)) 0.
Proof.
intros Hx Hy.
destruct (run_sumDivision x y post (fun s => Some s)
            {| m_prev := prev; m_rest := sumOverSum x y ++ post; m_pos := pos;
               m_caps := [] |} Hx Hy eq_refl)
  as (st & Hst & Hrest & Hpos & Hcaps).
cbn [m_pos m_caps] in Hpos, Hcaps.
assert (Hlength : String.length (sumOverSum x y)
                  = S (S (String.length ("UM(" ++ x ++ ") / NULLIF(SUM(" ++ y ++ "), 0")))).
{ unfold sumOverSum. rewrite !length_app. cbn [String.length]. lia. }
assert (Htext : sumOverSum x y ++ post
                = String "S" (("UM(" ++ x ++ ") / NULLIF(SUM(" ++ y ++ "), 0")
                              ++ String ")" post)).
{ unfold sumOverSum. now rewrite !append_assoc. }
unfold match_at in *. rewrite Htext in *.
cbn [replace_scan]. unfold match_at. rewrite Hst, Hcaps, expand_division.
f_equal. rewrite Hpos.
replace (pos + String.length (sumOverSum x y) =? pos) with false
  by (symmetry; apply Nat.eqb_neq; lia).
rewrite Hlength.
replace (pos + S (S (String.length ("UM(" ++ x ++ ") / NULLIF(SUM(" ++ y ++ "), 0")))
         - pos - 1)
  with (S (String.length ("UM(" ++ x ++ ") / NULLIF(SUM(" ++ y ++ "), 0"))) by lia.
rewrite replace_scan_skip. f_equal. lia.
Qed.

(** The division of two sums alone. *)
Lemma replaceAll_division (x y : string) :
  identifier x = true -> identifier y = true ->
  replaceAll sumDivision 2 "SUM($1)::numeric / NULLIF(SUM($2), 0)" (sumOverSum x y)
  = castSumOverSum x y.
Proof.
intros Hx Hy. unfold replaceAll.
rewrite <- (append_empty (sumOverSum x y)) at 2.
rewrite (replace_scan_division _ _ x y "" 0 Hx Hy).
cbn [replace_scan]. apply append_empty.
Qed.

End DivisionFacts.

Section PostProcessFacts.
Import JS Regex Runtime SqlGenerator Described.

(** C8.  The post-processing does not remove every doubled AND.  Its clean-up,
    under the comment that announces the cleaning of any double AND, replaces
    each [AND\s+AND] once, in one pass from left to right; so where the
    statement has three ANDs in a row, two of them remain.  For the manager
    of team t-1 and a reply whose statement ends in
    [{RBAC_FILTER} AND AND AND y = 1], the statement that is returned still
    has a doubled AND: it contains the text AND AND, and [AND\s+AND] still
    matches it. *)
Theorem postProcess_leaves_double_and :
  postProcess Fixtures.alice
    "SELECT x FROM daily_usage WHERE {RBAC_FILTER} AND AND AND y = 1"
  = "SELECT x FROM daily_usage WHERE user_id IN (SELECT id FROM users WHERE team_id = 't-1') AND AND y = 1"
  /\ includes
       (postProcess Fixtures.alice
          "SELECT x FROM daily_usage WHERE {RBAC_FILTER} AND AND AND y = 1")
       "AND AND" = true
  /\ test andAnd
       (postProcess Fixtures.alice
          "SELECT x FROM daily_usage WHERE {RBAC_FILTER} AND AND AND y = 1")
     = true.
Proof.
split; [vm_compute; reflexivity |].
split; vm_compute; reflexivity.
Qed.

(** The division repair reads its arguments with [\w+]: qualified column
    names are left as they are. *)
Example postProcess_keeps_qualified_division :
  postProcess Fixtures.alice
    "SELECT SUM(du.a) / NULLIF(SUM(du.b), 0) FROM daily_usage du WHERE {RBAC_FILTER}"
  = "SELECT SUM(du.a) / NULLIF(SUM(du.b), 0) FROM daily_usage du WHERE user_id IN (SELECT id FROM users WHERE team_id = 't-1')".
Proof. vm_compute. reflexivity. Qed.

(** What the post-processing does repair.  It is the RBAC step, the
    clean-up, the division repairs and the ROUND repairs, in this order.
    When the predicate of [getRBACFilter] has no [$] in it, the SQL after the
    RBAC step contains it (put for the placeholder, after the first WHERE,
    before GROUP BY, ORDER BY or LIMIT, or at the end).  When that SQL has no
    three ANDs in a row, the clean-up leaves neither [AND\s+AND] nor
    [WHERE\s+AND].  And wherever the scan of the first division repair stands
    at [SUM(x) / NULLIF(SUM(y), 0)], with [x] and [y] made of letters, digits
    and underscores, it writes [SUM(x)::numeric / NULLIF(SUM(y), 0)] and goes
    on behind it; the division alone is rewritten to exactly that. *)
Theorem postProcess_repairs (user : AuthenticatedUser) (sql : string) :
  includes (getRBACFilter user (Some sql)) "$" = false ->
  test tripleAnd (applyRBAC user sql) = false ->
  postProcess user sql = fixRound (fixDivision (cleanUp (applyRBAC user sql)))
  /\ includes (applyRBAC user sql) (getRBACFilter user (Some sql)) = true
  /\ test andAnd (cleanUp (applyRBAC user sql)) = false
  /\ test whereAnd (cleanUp (applyRBAC user sql)) = false
  /\ (forall whole prev x y post pos,
        identifier x = true -> identifier y = true ->
        replace_scan sumDivision 2 "SUM($1)::numeric / NULLIF(SUM($2), 0)"
                     whole prev (sumOverSum x y ++ post) pos 0
        = castSumOverSum x y
          ++ replace_scan sumDivision 2 "SUM($1)::numeric / NULLIF(SUM($2), 0)"
                          whole (Some ")"%char) post
                          (pos + String.length (sumOverSum x y)) 0)
  /\ (forall x y,
        identifier x = true -> identifier y = true ->
        replaceAll sumDivision 2 "SUM($1)::numeric / NULLIF(SUM($2), 0)"
                   (sumOverSum x y)
        = castSumOverSum x y).
Proof.
intros Hplain Htriple.
destruct (cleanUp_repairs _ Htriple) as [Hand Hwhere].
split; [reflexivity |].
split; [now apply applyRBAC_includes_filter |].
split; [exact Hand |].
split; [exact Hwhere |].
split; intros.
- now apply replace_scan_division.
- now apply replaceAll_division.
Qed.

Lemma postProcess_repairs_witness :
  includes
    (applyRBAC Fixtures.alice
       "SELECT SUM(a) / NULLIF(SUM(b), 0) FROM daily_usage WHERE AND date > '2025-01-01'")
    "user_id IN (SELECT id FROM users WHERE team_id = 't-1')" = true
  /\ test andAnd
       (cleanUp
          (applyRBAC Fixtures.alice
             "SELECT SUM(a) / NULLIF(SUM(b), 0) FROM daily_usage WHERE AND date > '2025-01-01'"))
     = false
  /\ test whereAnd
       (cleanUp
          (applyRBAC Fixtures.alice
             "SELECT SUM(a) / NULLIF(SUM(b), 0) FROM daily_usage WHERE AND date > '2025-01-01'"))
     = false.
Proof.
destruct (postProcess_repairs Fixtures.alice
            "SELECT SUM(a) / NULLIF(SUM(b), 0) FROM daily_usage WHERE AND date > '2025-01-01'")
  as (_ & Hfilter & Hand & Hwhere & _).
- vm_compute. reflexivity.
- vm_compute. reflexivity.
- exact (conj Hfilter (conj Hand Hwhere)).
Defined.

Example postProcess_repairs_all :
  postProcess Fixtures.alice
    "SELECT SUM(a) / NULLIF(SUM(b), 0) FROM daily_usage WHERE AND date > '2025-01-01' GROUP BY user_id"
  = "SELECT SUM(a)::numeric / NULLIF(SUM(b), 0) FROM daily_usage WHERE user_id IN (SELECT id FROM users WHERE team_id = 't-1') AND date > '2025-01-01' GROUP BY user_id".
Proof. vm_compute. reflexivity. Qed.

End PostProcessFacts.

(* ------------------------------------------------------------------------- *)
(** ** The distance between two names *)

Section MatrixFacts.
Import Teams.

Lemma for_loop_invariant {T : Type} (P : nat -> T -> Prop) (n from : nat)
      (body : nat -> T -> T) (s : T) :
  P from s ->
  (forall x t, from <= x < from + n -> P x t -> P (S x) (body x t)) ->
  P (from + n) (for_loop n from body s).
Proof.
revert from s. induction n as [| n IH]; intros from s Hs Hbody; cbn [for_loop].
- now rewrite Nat.add_0_r.
- replace (from + S n) with (S from + n) by lia.
  apply IH.
  + apply Hbody; [lia | exact Hs].
  + intros x t Hx. apply Hbody. lia.
Qed.

Lemma length_set_nth {A : Type} (n : nat) (v : A) (l : list A) :
  List.length (set_nth n v l) = List.length l.
Proof.
revert n. induction l as [| x l IH]; intros [| n]; cbn; try reflexivity.
now rewrite IH.
Qed.

Lemma nth_set_nth {A : Type} (n k : nat) (v d : A) (l : list A) :
  n < List.length l ->
  nth k (set_nth n v l) d = if k =? n then v else nth k l d.
Proof.
revert n k. induction l as [| x l IH]; intros n k Hn; cbn in Hn; [lia |].
destruct n as [| n], k as [| k]; cbn; try reflexivity.
apply IH. lia.
Qed.

Lemma shaped_assign (rows cols : nat) (m : Matrix) (j i v : nat) :
  shaped rows cols m -> shaped rows cols (assign_cell m j i v).
Proof.
intros [Hrows Hcols]. unfold assign_cell. split.
- now rewrite length_set_nth.
- intros j' Hj'. destruct (Nat.lt_ge_cases j (List.length m)) as [Hj | Hj].
  + rewrite nth_set_nth by exact Hj. destruct (Nat.eqb_spec j' j) as [-> | _].
    * rewrite length_set_nth. now apply Hcols.
    * now apply Hcols.
  + assert (Hsame : forall (l : Matrix) n w, List.length l <= n -> set_nth n w l = l).
    { induction l as [| x l IHl]; intros [| n] w Hl; cbn in *;
        try reflexivity; try lia. f_equal. apply IHl. lia. }
    rewrite Hsame by exact Hj. now apply Hcols.
Qed.

Lemma cell_assign (rows cols : nat) (m : Matrix) (j i v j' i' : nat) :
  shaped rows cols m -> j < rows -> i < cols ->
  cell (assign_cell m j i v) j' i'
  = if (j' =? j) && (i' =? i) then Some v else cell m j' i'.
Proof.
intros [Hrows Hcols] Hj Hi. unfold cell, assign_cell.
rewrite nth_set_nth by lia.
destruct (Nat.eqb_spec j' j) as [-> | _]; [| reflexivity].
rewrite nth_set_nth by (rewrite Hcols; lia).
now destruct (i' =? i).
Qed.

Lemma shaped_repeat (rows cols : nat) :
  shaped rows cols (repeat (repeat None cols) rows).
Proof.
split; [apply repeat_length |].
intros j Hj. rewrite nth_repeat_lt by exact Hj. apply repeat_length.
Qed.

End MatrixFacts.

Section DistanceFacts.
Import JS Teams Edits.

Lemma lev_empty_l (b : string) : lev "" b = String.length b.
Proof. now destruct b. Qed.

Lemma lev_empty_r (a : string) : lev a "" = String.length a.
Proof. now destruct a. Qed.

Lemma lev_cons (c d : ascii) (a b : string) :
  lev (String c a) (String d b)
  = min3 (lev a (String d b) + 1) (lev (String c a) b + 1)
         (lev a b + if Ascii.eqb c d then 0 else 1).
Proof. reflexivity. Qed.

Lemma reverse_app (x y : string) : reverse (x ++ y) = reverse y ++ reverse x.
Proof.
induction x as [| c x IH]; cbn [append reverse].
- now rewrite append_empty.
- now rewrite IH, append_assoc.
Qed.

Lemma reverse_involutive (x : string) : reverse (reverse x) = x.
Proof.
induction x as [| c x IH]; [reflexivity |].
cbn [reverse]. now rewrite reverse_app, IH.
Qed.

Lemma length_reverse (x : string) : String.length (reverse x) = String.length x.
Proof.
induction x as [| c x IH]; [reflexivity |].
cbn [reverse]. rewrite length_app, IH. cbn. lia.
Qed.

Lemma take_0 (a : string) : take 0 a = "".
Proof. now destruct a. Qed.

Lemma take_cons (i : nat) (c : ascii) (a : string) :
  take (S i) (String c a) = String c (take i a).
Proof. reflexivity. Qed.

Lemma length_take (i : nat) (a : string) :
  i <= String.length a -> String.length (take i a) = i.
Proof.
revert i. induction a as [| c a IH]; intros [| i] Hi; cbn in Hi; try reflexivity; try lia.
rewrite take_cons. cbn. rewrite IH; lia.
Qed.

Lemma take_all (a : string) : take (String.length a) a = a.
Proof.
induction a as [| c a IH]; [reflexivity |].
cbn [String.length]. now rewrite take_cons, IH.
Qed.

Lemma get_some (i : nat) (a : string) :
  i < String.length a -> exists c, String.get i a = Some c.
Proof.
revert i. induction a as [| x a IH]; intros i Hi; cbn in Hi; [lia |].
destruct i as [| i]; [now exists x |]. apply IH. lia.
Qed.

Lemma take_snoc (i : nat) (c : ascii) (a : string) :
  String.get i a = Some c -> take (S i) a = take i a ++ String c "".
Proof.
revert i. induction a as [| x a IH]; intros i Hget; [discriminate |].
destruct i as [| i].
- cbn in Hget. injection Hget as ->. rewrite take_cons, !take_0. reflexivity.
- cbn [String.get] in Hget. rewrite !take_cons, (IH i Hget). reflexivity.
Qed.

Lemma reverse_take_S (i : nat) (c : ascii) (a : string) :
  String.get i a = Some c -> reverse (take (S i) a) = String c (reverse (take i a)).
Proof. intros H. now rewrite (take_snoc i c a H), reverse_app. Qed.

Lemma dist_0_l (a b : string) (j : nat) :
  j <= String.length b -> dist a b 0 j = j.
Proof.
intros Hj. unfold dist. rewrite take_0. cbn [reverse].
now rewrite lev_empty_l, length_reverse, length_take.
Qed.

Lemma dist_0_r (a b : string) (i : nat) :
  i <= String.length a -> dist a b i 0 = i.
Proof.
intros Hi. unfold dist. rewrite (take_0 b). cbn [reverse].
now rewrite lev_empty_r, length_reverse, length_take.
Qed.

Lemma dist_step (a b : string) (i j : nat) :
  i < String.length a -> j < String.length b ->
  dist a b (S i) (S j)
  = min3 (dist a b i (S j) + 1) (dist a b (S i) j + 1)
         (dist a b i j + if same_unit a i b j then 0 else 1).
Proof.
intros Hi Hj. destruct (get_some i a Hi) as [c Hc]. destruct (get_some j b Hj) as [d Hd].
unfold dist, same_unit. rewrite Hc, Hd.
rewrite (reverse_take_S i c a Hc), (reverse_take_S j d b Hd).
apply lev_cons.
Qed.

Lemma first_row_cells (n1 n2 : nat) (m : Matrix) :
  shaped (S n2) (S n1) m ->
  shaped (S n2) (S n1) (first_row n1 m)
  /\ forall i, i <= n1 -> cell (first_row n1 m) 0 i = Some i.
Proof.
intros Hm.
assert (H : shaped (S n2) (S n1) (first_row n1 m)
            /\ forall i, i < 0 + S n1 -> cell (first_row n1 m) 0 i = Some i).
{ apply (for_loop_invariant
           (fun x m => shaped (S n2) (S n1) m /\ forall i, i < x -> cell m 0 i = Some i)).
  - split; [exact Hm | intros i Hi; lia].
  - intros x t Hx [Hs Hrow]. split; [now apply shaped_assign |].
    intros i Hi. rewrite (cell_assign _ _ _ _ _ _ _ _ Hs) by lia.
    cbn [Nat.eqb andb]. destruct (Nat.eqb_spec i x) as [-> | Hne]; [reflexivity |].
    apply Hrow. lia. }
destruct H as [Hs Hrow]. split; [exact Hs |]. intros i Hi. apply Hrow. lia.
Qed.

Lemma first_column_cells (n1 n2 : nat) (m : Matrix) :
  shaped (S n2) (S n1) m -> (forall i, i <= n1 -> cell m 0 i = Some i) ->
  shaped (S n2) (S n1) (first_column n2 m)
  /\ (forall i, i <= n1 -> cell (first_column n2 m) 0 i = Some i)
  /\ forall j, j <= n2 -> cell (first_column n2 m) j 0 = Some j.
Proof.
intros Hm Hrow0.
assert (H : shaped (S n2) (S n1) (first_column n2 m)
            /\ (forall i, i <= n1 -> cell (first_column n2 m) 0 i = Some i)
            /\ forall j, j < 0 + S n2 -> cell (first_column n2 m) j 0 = Some j).
{ apply (for_loop_invariant
           (fun x m => shaped (S n2) (S n1) m
                       /\ (forall i, i <= n1 -> cell m 0 i = Some i)
                       /\ forall j, j < x -> cell m j 0 = Some j)).
  - split; [exact Hm |]. split; [exact Hrow0 | intros j Hj; lia].
  - intros x t Hx (Hs & Hrow & Hcol). split; [now apply shaped_assign |]. split.
    + intros i Hi. rewrite (cell_assign _ _ _ _ _ _ _ _ Hs) by lia.
      destruct (Nat.eqb_spec 0 x) as [<- | _]; cbn [andb]; [| now apply Hrow].
      destruct (Nat.eqb_spec i 0) as [-> | _]; [reflexivity | now apply Hrow].
    + intros j Hj. rewrite (cell_assign _ _ _ _ _ _ _ _ Hs) by lia.
      cbn [Nat.eqb]. rewrite andb_true_r.
      destruct (Nat.eqb_spec j x) as [-> | Hne]; [reflexivity |].
      apply Hcol. lia. }
destruct H as (Hs & Hrow & Hcol). split; [exact Hs |]. split; [exact Hrow |].
intros j Hj. apply Hcol. lia.
Qed.

(** One row, given the rows above it. *)
Lemma fill_row_cells (a b : string) (x : nat) (m : Matrix) :
  1 <= x <= String.length b ->
  shaped (S (String.length b)) (S (String.length a)) m ->
  (forall j, j <= String.length b -> cell m j 0 = Some j) ->
  (forall j i, j < x -> i <= String.length a -> cell m j i = Some (dist a b i j)) ->
  shaped (S (String.length b)) (S (String.length a)) (fill_row a b x m)
  /\ (forall j, j <= String.length b -> cell (fill_row a b x m) j 0 = Some j)
  /\ forall j i, j < S x -> i <= String.length a ->
                 cell (fill_row a b x m) j i = Some (dist a b i j).
Proof.
intros Hx Hs Hcol Hdone.
set (n1 := String.length a) in *. set (n2 := String.length b) in *.
assert (H : shaped (S n2) (S n1) (fill_row a b x m)
            /\ (forall j, j <= n2 -> cell (fill_row a b x m) j 0 = Some j)
            /\ (forall j i, j < x -> i <= n1 ->
                            cell (fill_row a b x m) j i = Some (dist a b i j))
            /\ forall i, i < 1 + n1 ->
                         cell (fill_row a b x m) x i = Some (dist a b i x)).
{ apply (for_loop_invariant
           (fun y m' => shaped (S n2) (S n1) m'
                        /\ (forall j, j <= n2 -> cell m' j 0 = Some j)
                        /\ (forall j i, j < x -> i <= n1 ->
                                        cell m' j i = Some (dist a b i j))
                        /\ forall i, i < y -> cell m' x i = Some (dist a b i x))).
  - split; [exact Hs |]. split; [exact Hcol |]. split; [exact Hdone |].
    intros i Hi. replace i with 0 by lia. rewrite Hcol by lia.
    f_equal. symmetry. apply dist_0_l. fold n2. lia.
  - intros y m' Hy (Hs' & Hcol' & Hdone' & Hrow'). unfold fill_cell.
    split; [now apply shaped_assign |]. split; [| split].
    + intros j Hj. rewrite (cell_assign _ _ _ _ _ _ _ _ Hs') by lia.
      replace (0 =? y) with false by (symmetry; apply Nat.eqb_neq; lia).
      rewrite andb_false_r. now apply Hcol'.
    + intros j i Hj Hi. rewrite (cell_assign _ _ _ _ _ _ _ _ Hs') by lia.
      replace (j =? x) with false by (symmetry; apply Nat.eqb_neq; lia).
      now apply Hdone'.
    + intros i Hi. rewrite (cell_assign _ _ _ _ _ _ _ _ Hs') by lia.
      rewrite Nat.eqb_refl. cbn [andb].
      destruct (Nat.eqb_spec i y) as [-> | Hne]; [| apply Hrow'; lia].
      f_equal. rewrite (Hrow' (y - 1)) by lia.
      rewrite (Hdone' (x - 1) y) by lia.
      rewrite (Hdone' (x - 1) (y - 1)) by lia.
      cbn [value].
      destruct x as [| x0]; [lia |]. destruct y as [| y0]; [lia |].
      cbn [Nat.sub]. rewrite !Nat.sub_0_r.
      symmetry. apply dist_step; fold n1 n2; lia. }
destruct H as (Hs' & Hcol' & Hdone' & Hrow').
split; [exact Hs' |]. split; [exact Hcol' |].
intros j i Hj Hi. destruct (Nat.eq_dec j x) as [-> | Hne].
- apply Hrow'. lia.
- apply Hdone'; lia.
Qed.

(** The matrix holds the recurrence. *)
Lemma levenshteinDistance_lev (a b : string) :
  levenshteinDistance a b = lev (reverse a) (reverse b).
Proof.
unfold levenshteinDistance. cbv zeta.
set (n1 := String.length a). set (n2 := String.length b).
destruct (first_row_cells n1 n2 _ (shaped_repeat (S n2) (S n1))) as [Hs1 Hrow1].
destruct (first_column_cells n1 n2 _ Hs1 Hrow1) as (Hs2 & Hrow2 & Hcol2).
assert (H : shaped (S n2) (S n1) (for_loop n2 1 (fill_row a b)
                                     (first_column n2 (first_row n1
                                        (repeat (repeat None (S n1)) (S n2)))))
            /\ (forall j, j <= n2 ->
                  cell (for_loop n2 1 (fill_row a b)
                          (first_column n2 (first_row n1
                             (repeat (repeat None (S n1)) (S n2))))) j 0 = Some j)
            /\ forall j i, j < 1 + n2 -> i <= n1 ->
                  cell (for_loop n2 1 (fill_row a b)
                          (first_column n2 (first_row n1
                             (repeat (repeat None (S n1)) (S n2))))) j i
                  = Some (dist a b i j)).
{ apply (for_loop_invariant
           (fun x m => shaped (S n2) (S n1) m
                       /\ (forall j, j <= n2 -> cell m j 0 = Some j)
                       /\ forall j i, j < x -> i <= n1 ->
                                      cell m j i = Some (dist a b i j))).
  - split; [exact Hs2 |]. split; [exact Hcol2 |].
    intros j i Hj Hi. replace j with 0 by lia.
    rewrite (Hrow2 i Hi). f_equal. symmetry. now apply dist_0_r.
  - intros x m Hx (Hs & Hcol & Hdone). apply fill_row_cells; try assumption.
    fold n2. lia. }
destruct H as (_ & _ & Hall).
rewrite (Hall n2 n1) by lia. cbn [value]. unfold dist, n1, n2.
now rewrite !take_all.
Qed.

End DistanceFacts.

Section EditFacts.
Import JS Teams Edits.

Lemma min3_cases (x y z : nat) :
  (min3 x y z = x /\ x <= y /\ x <= z)
  \/ (min3 x y z = y /\ y <= x /\ y <= z)
  \/ (min3 x y z = z /\ z <= x /\ z <= y).
Proof. unfold min3. lia. Qed.

Lemma edits_delete_all (a : string) : edits a "" (String.length a).
Proof. induction a as [| c a IH]; [constructor | now apply edits_delete]. Qed.

Lemma edits_insert_all (b : string) : edits "" b (String.length b).
Proof. induction b as [| d b IH]; [constructor | now apply edits_insert]. Qed.

(** The recurrence is the cost of some script ... *)
Lemma lev_edits (a b : string) : edits a b (lev a b).
Proof.
revert b. induction a as [| c a IHa]; intros b.
- rewrite lev_empty_l. apply edits_insert_all.
- induction b as [| d b IHb].
  + rewrite lev_empty_r. apply edits_delete_all.
  + rewrite lev_cons.
    destruct (min3_cases (lev a (String d b) + 1) (lev (String c a) b + 1)
                (lev a b + if Ascii.eqb c d then 0 else 1))
      as [[-> _] | [[-> _] | [-> _]]].
    * rewrite Nat.add_1_r. apply edits_delete, IHa.
    * rewrite Nat.add_1_r. apply edits_insert, IHb.
    * destruct (Ascii.eqb_spec c d) as [<- | _].
      -- rewrite Nat.add_0_r. apply edits_keep, IHa.
      -- rewrite Nat.add_1_r. apply edits_substitute, IHa.
Qed.

Lemma lev_cons_le (c d : ascii) (a b : string) :
  lev (String c a) (String d b) <= lev a (String d b) + 1
  /\ lev (String c a) (String d b) <= lev (String c a) b + 1
  /\ lev (String c a) (String d b) <= lev a b + (if Ascii.eqb c d then 0 else 1).
Proof. rewrite lev_cons. unfold min3. lia. Qed.

Lemma lev_delete_le (c : ascii) (a b : string) : lev (String c a) b <= S (lev a b).
Proof.
destruct b as [| d b].
- rewrite !lev_empty_r. cbn. lia.
- destruct (lev_cons_le c d a b) as (H & _ & _). lia.
Qed.

Lemma lev_insert_le (d : ascii) (a b : string) : lev a (String d b) <= S (lev a b).
Proof.
destruct a as [| c a].
- rewrite !lev_empty_l. cbn. lia.
- destruct (lev_cons_le c d a b) as (_ & H & _). lia.
Qed.

(** ... and no script costs less. *)
Lemma edits_lev (a b : string) (n : nat) : edits a b n -> lev a b <= n.
Proof.
induction 1 as [| c a b n _ IH | c d a b n _ IH | c a b n _ IH | d a b n _ IH].
- cbn. lia.
- destruct (lev_cons_le c c a b) as (_ & _ & H). rewrite Ascii.eqb_refl in H. lia.
- destruct (lev_cons_le c d a b) as (_ & _ & H). destruct (Ascii.eqb c d); lia.
- pose proof (lev_delete_le c a b). lia.
- pose proof (lev_insert_le d a b). lia.
Qed.

Lemma edits_app (a b a' b' : string) (n m : nat) :
  edits a b n -> edits a' b' m -> edits (a ++ a') (b ++ b') (n + m).
Proof.
intros H H'. induction H; cbn [append Nat.add]; try (constructor; assumption).
exact H'.
Qed.

Lemma edits_reverse (a b : string) (n : nat) :
  edits a b n -> edits (reverse a) (reverse b) n.
Proof.
induction 1 as [| c a b n _ IH | c d a b n _ IH | c a b n _ IH | d a b n _ IH];
  cbn [reverse].
- constructor.
- rewrite <- (Nat.add_0_r n). apply edits_app; [exact IH |]. repeat constructor.
- rewrite <- Nat.add_1_r. apply edits_app; [exact IH |]. repeat constructor.
- rewrite <- Nat.add_1_r, <- (append_empty (reverse b)).
  apply edits_app; [exact IH |]. repeat constructor.
- rewrite <- Nat.add_1_r, <- (append_empty (reverse a)).
  apply edits_app; [exact IH |]. repeat constructor.
Qed.

Lemma distance_edits (a b : string) : edits a b (levenshteinDistance a b).
Proof.
rewrite levenshteinDistance_lev.
rewrite <- (reverse_involutive a) at 1. rewrite <- (reverse_involutive b) at 1.
apply edits_reverse, lev_edits.
Qed.

Lemma edits_distance (a b : string) (n : nat) :
  edits a b n -> levenshteinDistance a b <= n.
Proof.
intros H. rewrite levenshteinDistance_lev. now apply edits_lev, edits_reverse.
Qed.

Lemma edits_same (a : string) : edits a a 0.
Proof. induction a; now constructor. Qed.

Lemma edits_none (a b : string) : edits a b 0 -> a = b.
Proof.
remember 0 as n eqn:Hn. induction 1; try discriminate; [reflexivity |].
f_equal. auto.
Qed.

Lemma edits_swap (a b : string) (n : nat) : edits a b n -> edits b a n.
Proof. induction 1; now constructor. Qed.

Lemma edits_lengths (a b : string) (n : nat) :
  edits a b n ->
  String.length a <= String.length b + n /\ String.length b <= String.length a + n.
Proof. induction 1; cbn [String.length]; lia. Qed.

Lemma edits_longest (a b : string) :
  edits a b (Nat.max (String.length a) (String.length b)).
Proof.
revert b. induction a as [| c a IH]; intros b.
- cbn [String.length Nat.max]. apply edits_insert_all.
- destruct b as [| d b].
  + rewrite Nat.max_0_r. apply edits_delete_all.
  + cbn [String.length]. rewrite <- Nat.succ_max_distr. apply edits_substitute, IH.
Qed.

(** Two scripts in a row make one that costs no more than both. *)
Lemma edits_compose (a b : string) (n : nat) :
  edits a b n ->
  forall c m, edits b c m -> exists k, k <= n + m /\ edits a c k.
Proof.
induction 1 as [| x a b n _ IH | x y a b n _ IH | x a b n _ IH | y a b n _ IH];
  intros c m H2.
- exists m. now split.
- remember (String x b) as b0 eqn:Hb0.
  induction H2 as [| z b1 c m H2 _ | z w b1 c m H2 _ | z b1 c m H2 _ | w b1 c m _ IHin];
    try discriminate.
  + injection Hb0 as -> ->. destruct (IH _ _ H2) as (k & Hk & Hs).
    exists k. split; [lia | now apply edits_keep].
  + injection Hb0 as -> ->. destruct (IH _ _ H2) as (k & Hk & Hs).
    exists (S k). split; [lia | now apply edits_substitute].
  + injection Hb0 as -> ->. destruct (IH _ _ H2) as (k & Hk & Hs).
    exists (S k). split; [lia | now apply edits_delete].
  + destruct (IHin Hb0) as (k & Hk & Hs).
    exists (S k). split; [lia | now apply edits_insert].
- remember (String y b) as b0 eqn:Hb0.
  induction H2 as [| z b1 c m H2 _ | z w b1 c m H2 _ | z b1 c m H2 _ | w b1 c m _ IHin];
    try discriminate.
  + injection Hb0 as -> ->. destruct (IH _ _ H2) as (k & Hk & Hs).
    exists (S k). split; [lia | now apply edits_substitute].
  + injection Hb0 as -> ->. destruct (IH _ _ H2) as (k & Hk & Hs).
    exists (S k). split; [lia | now apply edits_substitute].
  + injection Hb0 as -> ->. destruct (IH _ _ H2) as (k & Hk & Hs).
    exists (S k). split; [lia | now apply edits_delete].
  + destruct (IHin Hb0) as (k & Hk & Hs).
    exists (S k). split; [lia | now apply edits_insert].
- destruct (IH _ _ H2) as (k & Hk & Hs).
  exists (S k). split; [lia | now apply edits_delete].
- remember (String y b) as b0 eqn:Hb0.
  induction H2 as [| z b1 c m H2 _ | z w b1 c m H2 _ | z b1 c m H2 _ | w b1 c m _ IHin];
    try discriminate.
  + injection Hb0 as -> ->. destruct (IH _ _ H2) as (k & Hk & Hs).
    exists (S k). split; [lia | now apply edits_insert].
  + injection Hb0 as -> ->. destruct (IH _ _ H2) as (k & Hk & Hs).
    exists (S k). split; [lia | now apply edits_insert].
  + injection Hb0 as -> ->. destruct (IH _ _ H2) as (k & Hk & Hs).
    exists k. split; [lia | exact Hs].
  + destruct (IHin Hb0) as (k & Hk & Hs).
    exists (S k). split; [lia | now apply edits_insert].
Qed.

End EditFacts.

(** X1.  [levenshteinDistance] is the least number of insertions, deletions
    and substitutions of one character that turn the first string into the
    second: some script has this cost, and no script costs less. *)
Theorem levenshteinDistance_least_edits :
  forall a b : string,
    Edits.edits a b (Teams.levenshteinDistance a b)
    /\ forall n, Edits.edits a b n -> Teams.levenshteinDistance a b <= n.
Proof.
intros a b. split; [apply distance_edits | apply edits_distance].
Qed.

(** X2.  The distance is a metric on strings: it is 0 exactly between equal
    strings, it does not depend on the order of its arguments, and the
    distance from [a] to [c] is at most that from [a] to [b] plus that from
    [b] to [c].  It lies between the difference of the two lengths and the
    greater of them. *)
Theorem levenshteinDistance_metric :
  forall a b : string,
    (Teams.levenshteinDistance a b = 0 <-> a = b)
    /\ Teams.levenshteinDistance a b = Teams.levenshteinDistance b a
    /\ (forall c, Teams.levenshteinDistance a c
                  <= Teams.levenshteinDistance a b + Teams.levenshteinDistance b c)
    /\ String.length a - String.length b <= Teams.levenshteinDistance a b
    /\ String.length b - String.length a <= Teams.levenshteinDistance a b
    /\ Teams.levenshteinDistance a b <= Nat.max (String.length a) (String.length b).
Proof.
intros a b. split; [split |].
- intros H. apply edits_none. rewrite <- H. apply distance_edits.
- intros ->. apply Nat.le_0_r, edits_distance, edits_same.
- split; [| split].
  + apply Nat.le_antisymm; apply edits_distance, edits_swap, distance_edits.
  + intros c.
    destruct (edits_compose _ _ _ (distance_edits a b) _ _ (distance_edits b c))
      as (k & Hk & Hs).
    apply edits_distance in Hs. lia.
  + destruct (edits_lengths _ _ _ (distance_edits a b)) as [H1 H2].
    repeat split; try lia. apply edits_distance, edits_longest.
Qed.

(* ------------------------------------------------------------------------- *)
(** ** The best matches among the team names *)

Section RankingFacts.
Import JS Teams.

Lemma insert_by_score_In (x y : string * nat) (l : list (string * nat)) :
  In y (insert_by_score x l) <-> y = x \/ In y l.
Proof.
induction l as [| z l IH]; cbn [insert_by_score].
- cbn. intuition.
- destruct (snd x <? snd z); cbn [In]; [rewrite IH |]; intuition.
Qed.

Lemma sort_by_score_In (y : string * nat) (l : list (string * nat)) :
  In y (sort_by_score l) <-> In y l.
Proof.
induction l as [| x l IH]; [reflexivity |].
cbn [sort_by_score In]. rewrite insert_by_score_In, IH. intuition.
Qed.

Lemma insert_by_score_falling (x : string * nat) (l : list (string * nat)) :
  falling l -> falling (insert_by_score x l).
Proof.
induction l as [| z l IH]; cbn [insert_by_score falling].
- intros _. split; [intros y [] | exact I].
- intros [Hz Hl]. destruct (Nat.ltb_spec (snd x) (snd z)) as [Hlt | Hge]; cbn [falling].
  + split; [| now apply IH]. intros y Hy.
    apply insert_by_score_In in Hy. destruct Hy as [-> | Hy]; [lia | now apply Hz].
  + split; [| now split]. intros y [<- | Hy]; [exact Hge |].
    specialize (Hz y Hy). lia.
Qed.

Lemma sort_by_score_falling (l : list (string * nat)) : falling (sort_by_score l).
Proof.
induction l as [| x l IH]; [exact I |]. now apply insert_by_score_falling.
Qed.

(** In a list of falling scores, what scores more than one of the first [k]
    is among the first [k]. *)
Lemma falling_firstn (k : nat) (l : list (string * nat)) (x y : string * nat) :
  falling l ->
  In x (firstn k l) -> In y l -> snd x < snd y -> In y (firstn k l).
Proof.
revert k. induction l as [| z l IH]; intros k Hl Hx Hy Hlt.
- now destruct k.
- destruct k as [| k]; [contradiction |]. cbn [firstn In falling] in *.
  destruct Hl as [Hz Hl].
  destruct Hy as [-> | Hy]; [now left |].
  destruct Hx as [-> | Hx].
  + specialize (Hz y Hy). lia.
  + right. now apply IH.
Qed.

Lemma In_firstn {A : Type} (k : nat) (l : list A) (x : A) :
  In x (firstn k l) -> In x l.
Proof.
revert k. induction l as [| y l IH]; intros [| k] H; cbn in *; try contradiction.
destruct H as [-> | H]; [now left | right; now apply (IH k)].
Qed.

Lemma sort_by_score_constant (n : nat) (l : list (string * nat)) :
  (forall x, In x l -> snd x = n) -> sort_by_score l = l.
Proof.
induction l as [| x l IH]; intros H; [reflexivity |].
cbn [sort_by_score]. rewrite IH by (intros y Hy; apply H; now right).
destruct l as [| y l]; [reflexivity |]. cbn [insert_by_score].
rewrite (H x) by now left. rewrite (H y) by (right; now left).
now rewrite Nat.ltb_irrefl.
Qed.

Lemma candidates_In (input : string) (teams : list string) (x : string * nat) :
  In x (candidates input teams)
  <-> In (fst x) teams /\ snd x = score input (fst x) /\ 0 < snd x.
Proof.
unfold candidates. rewrite in_flat_map. split.
- intros (team & Hteam & Hx). destruct (Nat.ltb_spec 0 (score input team)) as [Hpos | _].
  + destruct Hx as [<- | []]. cbn. repeat split; assumption.
  + destruct Hx.
- intros (Hteam & Hscore & Hpos). exists (fst x). split; [exact Hteam |].
  rewrite <- Hscore. rewrite (proj2 (Nat.ltb_lt _ _) Hpos).
  left. now destruct x.
Qed.

Lemma findBestTeamMatches_In (inputTeam : string) (teams : list string) (t : string) :
  In t (findBestTeamMatches inputTeam teams) ->
  let input := trim (toLowerCase inputTeam) in
  In (t, score input t)
     (firstn 3 (sort_by_score (candidates input teams)))
  /\ In t teams /\ 0 < score input t.
Proof.
unfold findBestTeamMatches. cbv zeta. rewrite firstn_map. intros H.
apply in_map_iff in H. destruct H as ([t' s] & <- & H). cbn [fst].
pose proof (In_firstn _ _ _ H) as Hin.
apply sort_by_score_In, candidates_In in Hin. cbn [fst snd] in Hin.
destruct Hin as (Hteam & -> & Hpos). now repeat split.
Qed.

(** The sort is stable: the entries of one score keep their order. *)
Lemma filter_insert_by_score (n : nat) (x : string * nat) (l : list (string * nat)) :
  filter (fun y => snd y =? n) (insert_by_score x l)
  = ((if snd x =? n then [x] else []) ++ filter (fun y => snd y =? n) l)%list.
Proof.
induction l as [| z l IH]; cbn [insert_by_score filter].
- now rewrite app_nil_r.
- destruct (Nat.ltb_spec (snd x) (snd z)) as [Hlt | Hge]; cbn [filter].
  + rewrite IH. destruct (Nat.eqb_spec (snd z) n) as [Hz | Hz]; [| reflexivity].
    destruct (Nat.eqb_spec (snd x) n) as [Hx | Hx]; [lia | reflexivity].
  + destruct (snd x =? n); reflexivity.
Qed.

Lemma filter_sort_by_score (n : nat) (l : list (string * nat)) :
  filter (fun y => snd y =? n) (sort_by_score l) = filter (fun y => snd y =? n) l.
Proof.
induction l as [| x l IH]; [reflexivity |].
cbn [sort_by_score filter]. rewrite filter_insert_by_score, IH.
now destruct (snd x =? n).
Qed.

Lemma length_insert_by_score (x : string * nat) (l : list (string * nat)) :
  List.length (insert_by_score x l) = S (List.length l).
Proof.
induction l as [| z l IH]; [reflexivity |]. cbn [insert_by_score].
destruct (snd x <? snd z); cbn [List.length]; [now rewrite IH | reflexivity].
Qed.

Lemma length_sort_by_score (l : list (string * nat)) :
  List.length (sort_by_score l) = List.length l.
Proof.
induction l as [| x l IH]; [reflexivity |].
cbn [sort_by_score List.length]. now rewrite length_insert_by_score, IH.
Qed.

(** The candidates of one score, and their number. *)
Lemma candidates_of_score (input : string) (teams : list string) (n : nat) :
  0 < n ->
  map fst (filter (fun y => snd y =? n) (candidates input teams))
  = filter (fun t => score input t =? n) teams.
Proof.
intros Hn. unfold candidates.
induction teams as [| t teams IH]; [reflexivity |].
cbn [flat_map filter]. rewrite filter_app, map_app, IH.
destruct (Nat.ltb_spec 0 (score input t)) as [Hpos | Hzero]; cbn [filter snd].
- destruct (score input t =? n); reflexivity.
- destruct (Nat.eqb_spec (score input t) n) as [He | _]; [lia | reflexivity].
Qed.

Lemma length_candidates (input : string) (teams : list string) :
  List.length (candidates input teams)
  = List.length (filter (fun t => 0 <? score input t) teams).
Proof.
unfold candidates. induction teams as [| t teams IH]; [reflexivity |].
cbn [flat_map filter]. rewrite List.length_app, IH.
now destruct (0 <? score input t).
Qed.

End RankingFacts.

(** X3.  [findBestTeamMatches] returns the first three names of the ranking
    of the available teams that score above 0.  The ranking holds each such
    team with its score, in the order of falling scores, and the teams of
    one score in the order, and as often, as [availableTeams] has them.  So
    the result has three names, or as many as there are teams with a score
    above 0, the best first. *)
Theorem findBestTeamMatches_three_best :
  forall (inputTeam : string) (availableTeams : list string),
    let input := JS.trim (Teams.toLowerCase inputTeam) in
    exists ranked : list (string * nat),
      Teams.findBestTeamMatches inputTeam availableTeams
      = firstn 3 (map fst ranked)
      /\ (forall t s, In (t, s) ranked ->
                      In t availableTeams /\ s = Teams.score input t /\ 0 < s)
      /\ Teams.falling ranked
      /\ (forall n, 0 < n ->
            map fst (filter (fun x => snd x =? n) ranked)
            = filter (fun t => Teams.score input t =? n) availableTeams)
      /\ List.length (Teams.findBestTeamMatches inputTeam availableTeams)
         = Nat.min 3 (List.length
                        (filter (fun t => 0 <? Teams.score input t)
                                availableTeams)).
Proof.
intros inputTeam teams input.
exists (Teams.sort_by_score (Teams.candidates input teams)).
split; [reflexivity |]. split; [| split; [| split]].
- intros t s H. apply sort_by_score_In, candidates_In in H.
  cbn [fst snd] in H. tauto.
- apply sort_by_score_falling.
- intros n Hn. rewrite filter_sort_by_score. now apply candidates_of_score.
- unfold Teams.findBestTeamMatches. fold input.
  rewrite length_firstn, length_map, length_sort_by_score, length_candidates.
  reflexivity.
Qed.

Section BlankFacts.
Import JS Teams.

Lemma includes_empty (s : string) : includes s "" = true.
Proof. rewrite includes_eq. now rewrite prefix_empty. Qed.

(** Blank before and after the lower-casing, whichever it is. *)
Lemma trimStart_blank (s : string) : trimStart s = "" <-> Words.every is_space s = true.
Proof.
induction s as [| c t IH]; cbn [trimStart Words.every]; [tauto |].
destruct (is_space c); cbn [andb]; [exact IH |].
split; discriminate.
Qed.

Lemma trimEnd_blank (s : string) : trimEnd s = "" <-> Words.every is_space s = true.
Proof.
induction s as [| c t IH]; cbn [trimEnd Words.every]; [tauto |].
destruct (trimEnd t) as [| a r].
- destruct (is_space c); cbn [andb].
  + split; [intros _; now apply IH | reflexivity].
  + split; discriminate.
- split; [discriminate |]. intros H. apply andb_prop in H. destruct H as [_ H].
  apply IH in H. discriminate H.
Qed.

Lemma trimStart_spaces (s : string) :
  Words.every is_space (trimStart s) = true -> Words.every is_space s = true.
Proof.
induction s as [| c t IH]; cbn [trimStart Words.every]; [tauto |].
destruct (is_space c) eqn:Hc; cbn [andb]; [exact IH |].
cbn [Words.every]. now rewrite Hc.
Qed.

Lemma trim_blank (s : string) : trim s = "" <-> Words.every is_space s = true.
Proof.
unfold trim. rewrite trimEnd_blank. split.
- apply trimStart_spaces.
- intros H. apply trimStart_blank in H. now rewrite H.
Qed.

Lemma every_map_chars (p : ascii -> bool) (f : ascii -> ascii) (s : string) :
  (forall c, p (f c) = p c) ->
  Words.every p (map_chars f s) = Words.every p s.
Proof.
intros H. induction s as [| c t IH]; [reflexivity |].
cbn [map_chars Words.every]. now rewrite H, IH.
Qed.

Lemma is_space_lower_char (c : ascii) : is_space (lower_char c) = is_space c.
Proof. destruct c as [[] [] [] [] [] [] [] []]; reflexivity. Qed.

Lemma is_space_lower_unit (c : ascii) : is_space (lower_unit c) = is_space c.
Proof. destruct c as [[] [] [] [] [] [] [] []]; reflexivity. Qed.

Lemma blank_either (s : string) :
  trim (JS.toLowerCase s) = "" -> trim (Teams.toLowerCase s) = "".
Proof.
rewrite !trim_blank. unfold JS.toLowerCase, Teams.toLowerCase.
rewrite (every_map_chars _ _ _ is_space_lower_char).
now rewrite (every_map_chars _ _ _ is_space_lower_unit).
Qed.

Lemma score_blank (team : string) : score "" team = 150.
Proof.
unfold score. cbv zeta. unfold startsWith.
rewrite includes_empty, prefix_empty.
cbn [String.length Nat.leb andb Nat.add].
change (split blanks "") with [""].
cbn [wordMatches filter String.length Nat.leb andb List.length Nat.ltb].
now rewrite andb_false_r.
Qed.

Lemma candidates_blank (teams : list string) :
  candidates "" teams = map (fun team => (team, 150)) teams.
Proof.
unfold candidates. induction teams as [| team teams IH]; [reflexivity |].
cbn [flat_map map]. rewrite IH, score_blank. reflexivity.
Qed.

End BlankFacts.

(** X4.  For an input that is empty or blank every team is a candidate with
    the same score, so [findBestTeamMatches] returns the first three available
    teams, in the order given. *)
Theorem findBestTeamMatches_blank :
  forall (inputTeam : string) (availableTeams : list string),
    JS.trim (JS.toLowerCase inputTeam) = "" ->
    Teams.findBestTeamMatches inputTeam availableTeams = firstn 3 availableTeams.
Proof.
intros inputTeam teams Hblank. unfold Teams.findBestTeamMatches.
rewrite (blank_either _ Hblank).
cbv zeta. rewrite candidates_blank.
rewrite (sort_by_score_constant 150).
- rewrite map_map. cbn [fst]. now rewrite map_id.
- intros x Hx. apply in_map_iff in Hx. now destruct Hx as (t & <- & _).
Qed.

Lemma findBestTeamMatches_blank_witness :
  Teams.findBestTeamMatches "  " ["Sales"; "Support"; "Finance"; "HR"]
  = ["Sales"; "Support"; "Finance"].
Proof.
exact (findBestTeamMatches_blank "  " ["Sales"; "Support"; "Finance"; "HR"] eq_refl).
Defined.

Section PreprocessFacts.
Import JS Runtime Teams.

Lemma lookup_set_field_other (name k : string) (v : json) (fields : list (string * json)) :
  name <> k -> lookup name (Parser.set_field k v fields) = lookup name fields.
Proof.
intros Hne. induction fields as [| [k' old] fields IH]; cbn [Parser.set_field lookup].
- destruct (String.eqb_spec k name) as [-> | _]; [now elim Hne | reflexivity].
- destruct (String.eqb_spec k' k) as [-> | Hk]; cbn [lookup].
  + destruct (String.eqb_spec k name) as [-> | _]; [now elim Hne | reflexivity].
  + now rewrite IH.
Qed.

Lemma set_field_same (k : string) (v : json) (fields : list (string * json)) :
  lookup k fields = Some v -> Parser.set_field k v fields = fields.
Proof.
induction fields as [| [k' old] fields IH]; cbn [Parser.set_field lookup]; [discriminate |].
destruct (String.eqb_spec k' k) as [-> | _].
- now intros [= ->].
- intros H. now rewrite IH.
Qed.

Lemma processTeams_exact (available names : list string) :
  forallb (fun name => mem name available) names = true ->
  processTeams available (map JStr names) = Ok names.
Proof.
induction names as [| name names IH]; intros H; [reflexivity |].
cbn [forallb] in H. apply andb_prop in H. destruct H as [Hname Hnames].
cbn [map processTeams processTeam]. rewrite Hname. cbn [and_then].
now rewrite (IH Hnames).
Qed.

End PreprocessFacts.

(** X5.  [preprocessTeamNames] always returns a query, whatever the pool or
    the teams filter does: with the intent, entity, metrics, grouping, order
    and limit given, and with every filter other than [teams] as it was.
    Without a teams filter the query is returned as it is and the pool is
    not asked. *)
Theorem preprocessTeamNames_keeps_query :
  forall (teamNames : Runtime.M (list string)) (parsedQuery : Parser.ParsedQuery)
         (w : Runtime.World),
  exists (q : Parser.ParsedQuery) (w' : Runtime.World),
    Teams.preprocessTeamNames teamNames parsedQuery w = (Runtime.Ok q, w')
    /\ Parser.intent q = Parser.intent parsedQuery
    /\ Parser.entity q = Parser.entity parsedQuery
    /\ Parser.metrics q = Parser.metrics parsedQuery
    /\ Parser.groupBy q = Parser.groupBy parsedQuery
    /\ Parser.orderBy q = Parser.orderBy parsedQuery
    /\ Parser.limit q = Parser.limit parsedQuery
    /\ (forall name, name <> "teams" ->
          Runtime.lookup name (Parser.filters q)
          = Runtime.lookup name (Parser.filters parsedQuery))
    /\ (Runtime.lookup "teams" (Parser.filters parsedQuery) = None ->
          q = parsedQuery /\ w' = w).
Proof.
intros teamNames pq w. unfold Teams.preprocessTeamNames.
assert (Hsame : forall w', exists q w'',
  (Runtime.Ok pq, w') = (Runtime.Ok q, w'')
  /\ Parser.intent q = Parser.intent pq /\ Parser.entity q = Parser.entity pq
  /\ Parser.metrics q = Parser.metrics pq /\ Parser.groupBy q = Parser.groupBy pq
  /\ Parser.orderBy q = Parser.orderBy pq /\ Parser.limit q = Parser.limit pq
  /\ (forall name, name <> "teams" ->
        Runtime.lookup name (Parser.filters q) = Runtime.lookup name (Parser.filters pq))
  /\ (w' = w -> q = pq /\ w'' = w)).
{ intros w'. exists pq, w'. repeat split; auto. }
destruct (Runtime.lookup "teams" (Parser.filters pq)) as [teams |] eqn:Hteams.
- assert (Hany : forall w', exists q w'',
    (Runtime.Ok pq, w') = (Runtime.Ok q, w'')
    /\ Parser.intent q = Parser.intent pq /\ Parser.entity q = Parser.entity pq
    /\ Parser.metrics q = Parser.metrics pq /\ Parser.groupBy q = Parser.groupBy pq
    /\ Parser.orderBy q = Parser.orderBy pq /\ Parser.limit q = Parser.limit pq
    /\ (forall name, name <> "teams" ->
          Runtime.lookup name (Parser.filters q) = Runtime.lookup name (Parser.filters pq))
    /\ (Some teams = None -> q = pq /\ w'' = w)).
  { intros w'. exists pq, w'. repeat split; auto; discriminate. }
  destruct (negb (Runtime.truthy (Some teams)) || Teams.lengthIsZero teams);
    [apply Hany |].
  unfold Runtime.try_catch, Runtime.bind, Runtime.from_res, Runtime.ret.
  destruct (teamNames w) as [[available | message] w1]; [| apply Hany].
  destruct (Runtime.and_then (Teams.iterate teams) (Teams.processTeams available))
    as [processed | message]; [| apply Hany].
  eexists. eexists. split; [reflexivity |]. cbn.
  repeat split; try discriminate.
  intros name Hname. now apply lookup_set_field_other.
- destruct (Hsame w) as (q & w'' & H & H1 & H2 & H3 & H4 & H5 & H6 & H7 & H8).
  exists q, w''. unfold Runtime.ret. repeat split; auto; now apply H8.
Qed.

(** X6.  When the pool answers and every name of the teams filter is the name
    of a team, letter for letter, [preprocessTeamNames] returns the query
    unchanged: exact matches are never replaced by a better-scoring name. *)
Theorem preprocessTeamNames_exact_names :
  forall (teamNames : Runtime.M (list string)) (parsedQuery : Parser.ParsedQuery)
         (w w1 : Runtime.World) (available names : list string),
    Runtime.lookup "teams" (Parser.filters parsedQuery)
      = Some (Runtime.JArr (map Runtime.JStr names)) ->
    teamNames w = (Runtime.Ok available, w1) ->
    forallb (fun name => JS.mem name available) names = true ->
    Teams.preprocessTeamNames teamNames parsedQuery w
    = (Runtime.Ok parsedQuery, match names with [] => w | _ :: _ => w1 end).
Proof.
intros teamNames pq w w1 available names Hteams Hpool Hexact.
unfold Teams.preprocessTeamNames. rewrite Hteams.
destruct names as [| name names]; [reflexivity |].
cbn [map Runtime.truthy negb Teams.lengthIsZero orb].
unfold Runtime.try_catch, Runtime.bind, Runtime.from_res, Runtime.ret.
rewrite Hpool. cbn [Teams.iterate Runtime.and_then].
change (Runtime.JStr name :: map Runtime.JStr names)
  with (map Runtime.JStr (name :: names)).
rewrite (processTeams_exact available (name :: names) Hexact).
rewrite (set_field_same _ _ _ Hteams). now destruct pq.
Qed.

Lemma preprocessTeamNames_exact_names_witness :
  Teams.preprocessTeamNames (Runtime.ret ["Sales"; "Support"]) Samples.support_query
                            (Fixtures.world Fixtures.wednesday [])
  = (Runtime.Ok Samples.support_query, Fixtures.world Fixtures.wednesday []).
Proof.
exact (preprocessTeamNames_exact_names
         (Runtime.ret ["Sales"; "Support"]) Samples.support_query
         (Fixtures.world Fixtures.wednesday []) (Fixtures.world Fixtures.wednesday [])
         ["Sales"; "Support"] ["Support"] eq_refl eq_refl eq_refl).
Defined.

(* ------------------------------------------------------------------------- *)
(** ** The query builder of the access rules *)

Section PlaceholderFacts.
Import JS Regex Words RBAC.

Lemma no_group (x : nat) : (1 <=? x) && (x <=? 0) = false.
Proof. now destruct x. Qed.

(** With no group in the pattern, a dollar before anything but [$], [&],
    a backquote or a quote stands for itself. *)
Lemma expand_dollar (caps : list (nat * string)) (matched before after : string)
      (c : ascii) (r : string) :
  c <> "$"%char -> c <> "&"%char -> c <> "`"%char -> c <> "'"%char ->
  expand 0 caps matched before after (String "$" (String c r))
  = String "$" (expand 0 caps matched before after (String c r)).
Proof.
intros H1 H2 H3 H4.
assert (Hone : forall n1 : nat,
  (if (1 <=? n1) && (n1 <=? 0)
   then group_text n1 caps ++ expand 0 caps matched before after r
   else String "$" (expand 0 caps matched before after (String c r)))
  = String "$" (expand 0 caps matched before after (String c r)))
  by (intros n1; now rewrite no_group).
assert (Htwo : forall (n1 : nat) (x : string),
  match r with
  | EmptyString => x
  | String d2 r2 =>
      match digit_value d2 with
      | None => x
      | Some n2 =>
          if (1 <=? 10 * n1 + n2) && (10 * n1 + n2 <=? 0)
          then group_text (10 * n1 + n2) caps ++ expand 0 caps matched before after r2
          else x
      end
  end = x).
{ intros n1 x. destruct r as [| d2 r2]; [reflexivity |].
  destruct (digit_value d2); [| reflexivity]. now rewrite no_group. }
destruct c as [[] [] [] [] [] [] [] []];
  try (now elim H1); try (now elim H2); try (now elim H3); try (now elim H4);
  cbn [expand Ascii.eqb Bool.eqb negb andb];
  match goal with
  | |- context [digit_value ?c] =>
      let v := eval vm_compute in (digit_value c) in
      change (digit_value c) with v
  end; cbv iota; try reflexivity;
  rewrite ?Hone; apply Htwo.
Qed.

Lemma every_digit_plain (d : string) :
  every is_digit d = true -> includes d "$" = false.
Proof.
induction d as [| c d IH]; intros H; [reflexivity |].
cbn [every] in H. apply andb_prop in H. destruct H as [Hc Hd].
rewrite includes_eq, prefix_cons, (IH Hd).
destruct (ascii_dec "$" c) as [<- | _]; [discriminate | reflexivity].
Qed.

Lemma every_digit_string_of_uint (u : Decimal.uint) :
  every is_digit (NilEmpty.string_of_uint u) = true.
Proof. induction u; cbn [NilEmpty.string_of_uint every]; [reflexivity | ..]; exact IHu. Qed.

Lemma every_digit_decimal (n : nat) : every is_digit (decimal n) = true.
Proof. apply every_digit_string_of_uint. Qed.

(** A [$n] of the filter passes through the replacement as it is. *)
Lemma expand_placeholder (caps : list (nat * string)) (matched before after : string)
      (pre d : string) (c : ascii) (post : string) :
  includes pre "$" = false -> every is_digit d = true ->
  is_digit c = false ->
  c <> "$"%char -> c <> "&"%char -> c <> "`"%char -> c <> "'"%char ->
  includes post "$" = false ->
  expand 0 caps matched before after (pre ++ "$" ++ d ++ String c post)
  = pre ++ "$" ++ d ++ String c post.
Proof.
intros Hpre Hd Hc H1 H2 H3 H4 Hpost.
rewrite (expand_plain _ _ _ _ _ _ _ Hpre). f_equal.
assert (Hrest : includes (d ++ String c post) "$" = false).
{ apply plain_app; [now apply every_digit_plain |].
  rewrite includes_eq, prefix_cons, Hpost.
  destruct (ascii_dec "$" c) as [<- | _]; [now elim H1 | reflexivity]. }
change ("$" ++ d ++ String c post) with (String "$" (d ++ String c post)).
destruct d as [| x d].
- cbn [append]. rewrite expand_dollar by assumption.
  now rewrite (expand_all_plain _ _ _ _ _ _ Hrest).
- cbn [append] in *. cbn [every] in Hd. apply andb_prop in Hd. destruct Hd as [Hx _].
  rewrite expand_dollar; try (intros ->; discriminate).
  now rewrite (expand_all_plain _ _ _ _ _ _ Hrest).
Qed.

End PlaceholderFacts.

Section WhereFacts.
Import JS Regex Words Runtime RBAC Access.

Lemma run_lit (w : string) (k : mstate -> option mstate) (s : mstate) :
  run (lit w) k s =
  if String.prefix w (m_rest s) then k (consume (String.length w) s) else None.
Proof.
revert s k. induction w as [| a w IH]; intros s k.
- cbn [lit run consume String.length]. now rewrite prefix_empty.
- assert (Hstep : run (lit (String a w)) k s = run (chr a) (run (lit w) k) s)
    by (destruct w; reflexivity).
  rewrite Hstep. unfold chr. rewrite run_class.
  cbn [consume String.length].
  destruct (m_rest s) as [| c t]; [reflexivity |].
  rewrite prefix_cons.
  destruct (Ascii.eqb_spec a c) as [<- | Hne].
  + destruct (ascii_dec a a) as [_ | Hn]; [apply IH | now elim Hn].
  + destruct (ascii_dec a c) as [He | _]; [now elim Hne | reflexivity].
Qed.

Lemma prefix_split (w s : string) :
  String.prefix w s = true -> exists b, s = w ++ b.
Proof.
revert s. induction w as [| a w IH]; intros s H; [now exists s |].
destruct s as [| c t]; [discriminate |]. rewrite prefix_cons in H.
destruct (ascii_dec a c) as [<- | _]; [| discriminate].
destruct (IH t H) as (b & ->). now exists b.
Qed.

Lemma indexOf_cons (c : ascii) (t w : string) :
  indexOf (String c t) w
  = if String.prefix w (String c t) then Some 0 else option_map S (indexOf t w).
Proof. reflexivity. Qed.

(** The first WHERE, or else the end of the text. *)
Lemma search_whereOrEnd (s : string) (prev : option ascii) (pos : nat) :
  exists st,
    search whereOrEnd prev s pos
    = Some (match indexOf s "WHERE" with Some i => i | None => String.length s end
            + pos, st)
    /\ m_rest st = match indexOf s "WHERE" with
                   | Some i => drop (i + 5) s
                   | None => ""
                   end.
Proof.
unfold whereOrEnd.
revert prev pos. induction s as [| c t IH]; intros prev pos.
- eexists. split; reflexivity.
- cbn [search]. unfold match_at. cbn [run]. rewrite run_lit.
  cbn [m_rest]. rewrite indexOf_cons.
  destruct (String.prefix "WHERE" (String c t)) eqn:Hprefix.
  + eexists. split; [reflexivity |].
    destruct (consume_rest 5 {| m_prev := prev; m_rest := String c t;
                                m_pos := pos; m_caps := [] |}) as [Hr _].
    { cbn [m_rest]. destruct (prefix_split _ _ Hprefix) as (b & ->).
      rewrite length_app. cbn. lia. }
    exact Hr.
  + destruct (IH (Some c) (S pos)) as (st & Hst & Hrest). exists st.
    rewrite Hst. destruct (indexOf t "WHERE") as [i |]; cbn [option_map String.length];
      (split; [do 2 f_equal; lia | exact Hrest]).
Qed.

Lemma replace_whereOrEnd (template s : string) :
  (forall caps matched before after,
      expand 0 caps matched before after template = template) ->
  replace whereOrEnd 0 template s
  = match indexOf s "WHERE" with
    | Some i => take i s ++ template ++ drop (i + 5) s
    | None => s ++ template
    end.
Proof.
intros Htemplate. unfold replace.
destruct (search_whereOrEnd s None 0) as (st & -> & Hrest).
rewrite Htemplate, Hrest, Nat.add_0_r.
destruct (indexOf s "WHERE") as [i |]; [reflexivity |].
now rewrite take_all, append_empty.
Qed.

Lemma includes_indexOf_none (s w : string) :
  includes s w = false -> indexOf s w = None.
Proof.
induction s as [| c t IH]; rewrite includes_eq; intros H;
  apply orb_false_elim in H; destruct H as [Hp Ht].
- cbn [indexOf]. now rewrite Hp.
- rewrite indexOf_cons, Hp, (IH Ht). reflexivity.
Qed.

Lemma includes_split (s w : string) :
  includes s w = true -> exists a b, s = a ++ w ++ b.
Proof.
induction s as [| c t IH]; rewrite includes_eq; intros H.
- rewrite orb_false_r in H. destruct (prefix_split _ _ H) as (b & Hb). now exists "", b.
- apply orb_prop in H. destruct H as [Hp | Ht].
  + destruct (prefix_split _ _ Hp) as (b & Hb). now exists "", b.
  + destruct (IH Ht) as (a & b & ->). now exists (String c a), b.
Qed.

Lemma map_chars_app (f : ascii -> ascii) (a b : string) :
  map_chars f (a ++ b) = map_chars f a ++ map_chars f b.
Proof. induction a as [| c a IH]; cbn; [reflexivity | now rewrite IH]. Qed.

(** A text with WHERE in it has a where in it, whatever the case. *)
Lemma includes_lower_where (s : string) :
  includes s "WHERE" = true -> includes (toLowerCase s) "where" = true.
Proof.
intros H. destruct (includes_split _ _ H) as (a & b & ->).
unfold toLowerCase. rewrite !map_chars_app. apply includes_app.
Qed.

Lemma indexOf_some_includes (s w : string) (i : nat) :
  indexOf s w = Some i -> includes s w = true.
Proof.
intros H. destruct (includes s w) eqn:Hin; [reflexivity |].
now rewrite (includes_indexOf_none _ _ Hin) in H.
Qed.

End WhereFacts.

Section BuilderFacts.
Import JS Regex Words Runtime RBAC Access.

Lemma manager_template (connector d : string) :
  includes connector "$" = false -> every is_digit d = true ->
  forall caps matched before after,
    expand 0 caps matched before after
           (connector
            ++ ("user_id IN (SELECT id FROM users WHERE team_id = $" ++ d ++ ")")
            ++ " ")
    = connector
      ++ ("user_id IN (SELECT id FROM users WHERE team_id = $" ++ d ++ ")") ++ " ".
Proof.
intros Hconnector Hd caps matched before after.
replace (connector
         ++ ("user_id IN (SELECT id FROM users WHERE team_id = $" ++ d ++ ")") ++ " ")
  with ((connector ++ "user_id IN (SELECT id FROM users WHERE team_id = ")
        ++ "$" ++ d ++ String ")" " ")
  by (now rewrite !append_assoc).
apply expand_placeholder; try reflexivity; try discriminate; try assumption.
now apply plain_app.
Qed.

Lemma employee_template (connector d : string) :
  includes connector "$" = false -> every is_digit d = true ->
  forall caps matched before after,
    expand 0 caps matched before after (connector ++ ("user_id = $" ++ d) ++ " ")
    = connector ++ ("user_id = $" ++ d) ++ " ".
Proof.
intros Hconnector Hd caps matched before after.
replace (connector ++ ("user_id = $" ++ d) ++ " ")
  with ((connector ++ "user_id = ") ++ "$" ++ d ++ String " " "")
  by (now rewrite !append_assoc).
apply expand_placeholder; try reflexivity; try discriminate; try assumption.
now apply plain_app.
Qed.

(** The filters of [getRBACFilters] pass through a replacement as they are. *)
Lemma userFilter_template (user : AuthenticatedUser) (offset : nat) (f : RBACFilter)
      (connector : string) :
  getRBACFilters user offset = Ok f -> includes connector "$" = false ->
  forall caps matched before after,
    expand 0 caps matched before after (connector ++ userFilter f ++ " ")
    = connector ++ userFilter f ++ " ".
Proof.
intros Hf Hconnector caps matched before after. unfold getRBACFilters in Hf.
destruct (user_role user =? "admin")%string.
{ injection Hf as <-. cbn [userFilter].
  apply expand_all_plain. now apply plain_app. }
destruct (user_role user =? "manager")%string.
{ injection Hf as <-.
  exact (manager_template connector _ Hconnector (every_digit_decimal _)
                          caps matched before after). }
destruct (user_role user =? "employee")%string; [| discriminate].
injection Hf as <-.
exact (employee_template connector _ Hconnector (every_digit_decimal _)
                         caps matched before after).
Qed.

Lemma buildRBACQuery_run (baseQuery : string) (user : AuthenticatedUser)
      (additionalParams : list json) (f : RBACFilter) :
  getRBACFilters user (List.length additionalParams) = Ok f ->
  includes baseQuery "user_id" = true ->
  buildRBACQuery baseQuery user additionalParams
  = Ok (let template :=
          (if includes (toLowerCase baseQuery) "where" then " AND " else " WHERE ")
          ++ userFilter f ++ " " in
        match indexOf baseQuery "WHERE" with
        | Some i => take i baseQuery ++ template ++ drop (i + 5) baseQuery
        | None => baseQuery ++ template
        end,
        (additionalParams ++ params f)%list).
Proof.
intros Hf Huser. unfold buildRBACQuery. rewrite Hf. cbn [and_then]. rewrite Huser.
cbv zeta. rewrite replace_whereOrEnd; [reflexivity |].
apply (userFilter_template user _ f _ Hf). now destruct (includes _ "where").
Qed.

End BuilderFacts.

(** X7.  For a base query that mentions user_id and has no upper-case WHERE,
    [buildRBACQuery] puts the user filter of [getRBACFilters] at the end,
    after AND when the query has a where in another case and after WHERE when
    it has none, and appends the filter's parameter to the parameters given.
    The filter arrives as it is: its placeholder [$n] is not taken for a
    group of the replacement. *)
Theorem buildRBACQuery_appends_filter :
  forall (baseQuery : string) (user : Runtime.AuthenticatedUser)
         (additionalParams : list Runtime.json) (f : RBAC.RBACFilter),
    RBAC.getRBACFilters user (List.length additionalParams) = Runtime.Ok f ->
    JS.includes baseQuery "user_id" = true ->
    JS.includes baseQuery "WHERE" = false ->
    Access.buildRBACQuery baseQuery user additionalParams
    = Runtime.Ok
        (baseQuery
         ++ (if JS.includes (JS.toLowerCase baseQuery) "where" then " AND " else " WHERE ")
         ++ RBAC.userFilter f ++ " ",
         (additionalParams ++ RBAC.params f)%list).
Proof.
intros baseQuery user additionalParams f Hf Huser Hwhere.
rewrite (buildRBACQuery_run _ _ _ _ Hf Huser). cbv zeta.
now rewrite (includes_indexOf_none _ _ Hwhere).
Qed.

Lemma buildRBACQuery_appends_filter_witness :
  Access.buildRBACQuery "SELECT user_id FROM daily_usage where date > $1"
                        Fixtures.alice [Runtime.JStr "2025-12-01"]
  = Runtime.Ok
      ("SELECT user_id FROM daily_usage where date > $1 AND user_id IN (SELECT id FROM users WHERE team_id = $2) ",
       [Runtime.JStr "2025-12-01"; Runtime.JStr "t-1"]).
Proof.
exact (buildRBACQuery_appends_filter
         "SELECT user_id FROM daily_usage where date > $1" Fixtures.alice
         [Runtime.JStr "2025-12-01"] _ eq_refl eq_refl eq_refl).
Defined.

(** X8.  For a base query that mentions user_id and has an upper-case WHERE,
    [buildRBACQuery] puts the text " AND ", the user filter and a space in the
    place of the first WHERE: what was before the keyword and what was after
    it are kept, the keyword itself is not. *)
Theorem buildRBACQuery_replaces_where :
  forall (baseQuery : string) (user : Runtime.AuthenticatedUser)
         (additionalParams : list Runtime.json) (f : RBAC.RBACFilter) (i : nat),
    RBAC.getRBACFilters user (List.length additionalParams) = Runtime.Ok f ->
    JS.includes baseQuery "user_id" = true ->
    JS.indexOf baseQuery "WHERE" = Some i ->
    Access.buildRBACQuery baseQuery user additionalParams
    = Runtime.Ok
        (JS.take i baseQuery ++ (" AND " ++ RBAC.userFilter f ++ " ")
         ++ JS.drop (i + 5) baseQuery,
         (additionalParams ++ RBAC.params f)%list).
Proof.
intros baseQuery user additionalParams f i Hf Huser Hwhere.
rewrite (buildRBACQuery_run _ _ _ _ Hf Huser). cbv zeta. rewrite Hwhere.
now rewrite (includes_lower_where _ (indexOf_some_includes _ _ _ Hwhere)).
Qed.

Lemma buildRBACQuery_replaces_where_witness :
  Access.buildRBACQuery "SELECT * FROM daily_usage WHERE user_id = 1"
                        Fixtures.alice []
  = Runtime.Ok
      ("SELECT * FROM daily_usage  AND user_id IN (SELECT id FROM users WHERE team_id = $1)  user_id = 1",
       [Runtime.JStr "t-1"]).
Proof.
exact (buildRBACQuery_replaces_where
         "SELECT * FROM daily_usage WHERE user_id = 1" Fixtures.alice [] _ 26
         eq_refl eq_refl eq_refl).
Defined.

(* ------------------------------------------------------------------------- *)
(** ** Placeholders and parameters *)

(** X9.  Whatever options [getAuditLogs] is given, the placeholders of its
    statement are [$1], [$2], ... in the order of the text, one for each
    parameter: the conditions that are present first, then the limit and the
    offset. *)
Theorem getAuditLogs_placeholders :
  forall options : Statements.AuditLogOptions,
    Statements.placeholders (fst (Statements.getAuditLogs options))
    = seq 1 (List.length (snd (Statements.getAuditLogs options))).
Proof.
intros [a u s e l o]. unfold Statements.getAuditLogs, Statements.condition.
cbn [Statements.agentType Statements.userId Statements.startDate Statements.endDate].
destruct a as [a |]; [destruct (Runtime.truthy (Some a)) |];
  (destruct u as [u |]; [destruct (Runtime.truthy (Some u)) |]);
  (destruct s as [s |]; [destruct (Runtime.truthy (Some s)) |]);
  (destruct e as [e |]; [destruct (Runtime.truthy (Some e)) |]);
  vm_compute; reflexivity.
Qed.

(** X10.  The same holds of [getClassificationRules]; and the statement of
    [getPendingClassifications] uses exactly the placeholders that have a
    parameter: [$1] and [$2], and [$3] for a manager, whose team is the third
    parameter.  For an employee no statement is sent at all. *)
Theorem classification_statements_placeholders :
  (forall options : Statements.RulesOptions,
      Statements.placeholders (fst (Statements.getClassificationRules options))
      = seq 1 (List.length (snd (Statements.getClassificationRules options))))
  /\ (forall (user : Runtime.AuthenticatedUser) (limit offset : option Runtime.json),
        match Statements.getPendingClassifications user limit offset with
        | Some (statement, params) =>
            Runtime.user_role user <> "employee"
            /\ (forall k, In k (Statements.placeholders statement)
                          <-> 1 <= k <= List.length params)
            /\ (Runtime.user_role user = "manager" ->
                nth_error params 2 = Some (Runtime.JStr (Runtime.user_team_id user)))
        | None => Runtime.user_role user = "employee"
        end).
Proof.
split.
- intros [t c l o]. unfold Statements.getClassificationRules, Statements.condition.
  cbn [Statements.teamId Statements.classification].
  destruct t as [t |]; [destruct (Runtime.truthy (Some t)) |];
    (destruct c as [c |]; [destruct (Runtime.truthy (Some c)) |]);
    vm_compute; reflexivity.
- intros user limit offset. unfold Statements.getPendingClassifications.
  destruct (String.eqb_spec (Runtime.user_role user) "manager") as [Hm | Hm].
  + split; [rewrite Hm; discriminate |]. split; [| reflexivity].
    intros k. change (Statements.placeholders _) with [3; 1; 2].
    cbn [List.length app In]. lia.
  + destruct (String.eqb_spec (Runtime.user_role user) "employee") as [He | He];
      [exact He |].
    split; [exact He |]. split; [| intros H; now elim Hm].
    intros k. change (Statements.placeholders _) with [1; 2].
    cbn [List.length app In]. lia.
Qed.

(* ------------------------------------------------------------------------- *)
(** ** The orchestrator *)

Section OrchestratorFacts.
Import JS Regex Runtime Words Orchestrator.

Variable handleChatQuery :
  option json -> AuthenticatedUser -> option json -> M json.
Variable classifyNewApp : option json -> AuthenticatedUser -> M json.
Variable getPendingClassifications : AuthenticatedUser -> json -> M json.
Variable approveClassification :
  option json -> AuthenticatedUser -> option json -> M unit.
Variable rejectClassification :
  option json -> AuthenticatedUser -> option json -> M unit.
Variable getClassificationRules : json -> M json.

(** What [orchestrate] answers, by what the routed call does. *)
Lemma orchestrate_run (request : OrchestratorRequest) (w : World) :
  orchestrate handleChatQuery classifyNewApp getPendingClassifications
    approveClassification rejectClassification getClassificationRules request w =
  match route handleChatQuery classifyNewApp getPendingClassifications
          approveClassification rejectClassification getClassificationRules
          request w with
  | (Ok d, w') =>
      (Ok {| success := true; data := Some d; error := None;
             agentUsed := type request;
             executionTimeMs := (w_time w' - w_time w)%Z |}, w')
  | (Throw message, w') =>
      (Ok {| success := false; data := None; error := Some message;
             agentUsed := type request;
             executionTimeMs := (w_time w' - w_time w)%Z |}, w')
  end.
Proof.
unfold orchestrate.
unfold bind at 1, now at 1, try_catch, bind at 1.
destruct (route _ _ _ _ _ _ request w) as [[d | message] w']; reflexivity.
Qed.

(** A quote cannot follow where the name goes on. *)
Lemma quote_after_name (k : mstate -> option mstate) (s : mstate) (c : ascii)
      (t : string) :
  m_rest s = String c t -> negb (is_quote c) = true -> run quote k s = None.
Proof.
intros Hs Hc. unfold quote. rewrite run_class, Hs.
now destruct (is_quote c).
Qed.

(** The first quoted name of a message. *)
Lemma search_quotedName (pre name post : string) (q1 q2 : ascii) :
  every (fun c => negb (is_quote c)) pre = true ->
  every (fun c => negb (is_quote c)) name = true ->
  name <> "" -> is_quote q1 = true -> is_quote q2 = true ->
  forall prev pos,
  exists m,
    search quotedName prev (pre ++ String q1 (name ++ String q2 post)) pos
    = Some (pos + String.length pre, m)
    /\ cap 1 (m_caps m) = Some name.
Proof.
intros Hpre Hname Hne Hq1 Hq2.
induction pre as [| c pre IH]; intros prev pos.
- cbn [append String.length]. rewrite Nat.add_0_r.
  assert (Hat : exists m,
             match_at quotedName prev (String q1 (name ++ String q2 post)) pos
             = Some m /\ cap 1 (m_caps m) = Some name).
  { unfold match_at, quotedName. cbn [cats].
    change (run (Cat quote ?r) ?k ?s) with (run quote (run r k) s).
    unfold quote at 1. rewrite run_class. cbn [m_rest]. rewrite Hq1.
    change (run (Cat ?a quote) ?k ?s) with (run a (run quote k) s).
    unfold notQuote. rewrite run_group_class
      by (intros s' c t Hs Hc; exact (quote_after_name _ s' c t Hs Hc)).
    cbn [eat m_rest].
    assert (Hq2' : negb (is_quote q2) = false) by now rewrite Hq2.
    rewrite (leading_every _ name q2 post Hname Hq2').
    destruct (String.length name) as [| n] eqn:Hlen;
      [destruct name; [now elim Hne | discriminate] |].
    rewrite <- Hlen, take_app.
    match goal with
    | |- context [consume (String.length name) ?s0] =>
        destruct (consume_app name (String q2 post) s0 eq_refl) as (Hr & _ & Hc)
    end.
    unfold quote. rewrite run_class. cbn [set_cap m_rest]. rewrite Hr, Hq2.
    eexists. split; [reflexivity |].
    cbn [eat set_cap m_caps cap Nat.eqb]. reflexivity. }
  destruct Hat as (m & Hm & Hcap). exists m. cbn [search]. now rewrite Hm.
- cbn [every] in Hpre. apply andb_prop in Hpre. destruct Hpre as [Hc Hpre].
  destruct (IH Hpre (Some c) (S pos)) as (m & Hm & Hcap).
  exists m. split; [| exact Hcap].
  cbn [append search String.length].
  assert (Hat : match_at quotedName prev
                  (String c (pre ++ String q1 (name ++ String q2 post))) pos = None).
  { unfold match_at, quotedName. cbn [cats].
    change (run (Cat quote ?r) ?k ?s) with (run quote (run r k) s).
    now apply (quote_after_name _ _ c (pre ++ String q1 (name ++ String q2 post))). }
  rewrite Hat, Hm. f_equal. f_equal. lia.
Qed.

End OrchestratorFacts.

(** X11.  Whatever the agents do, [orchestrate] returns a response and never
    throws; the response names the type of the request and the time that
    went by.  When the routed call returned a value, the response is
    successful, its data is that value and it has no error; when the call
    threw, the response is unsuccessful, has no data and its error is the
    message thrown.  The world is left as the routed call left it. *)
Theorem orchestrate_never_throws :
  forall handleChatQuery classifyNewApp getPendingClassifications
         approveClassification rejectClassification getClassificationRules
         (request : Orchestrator.OrchestratorRequest) (w : Runtime.World),
  exists (r : Orchestrator.OrchestratorResponse) (w' : Runtime.World),
    Orchestrator.orchestrate handleChatQuery classifyNewApp
      getPendingClassifications approveClassification rejectClassification
      getClassificationRules request w = (Runtime.Ok r, w')
    /\ Orchestrator.agentUsed r = Orchestrator.type request
    /\ Orchestrator.executionTimeMs r = (Runtime.w_time w' - Runtime.w_time w)%Z
    /\ match Orchestrator.route handleChatQuery classifyNewApp
               getPendingClassifications approveClassification
               rejectClassification getClassificationRules request w with
       | (Runtime.Ok value, after) =>
           w' = after
           /\ Orchestrator.success r = true
           /\ Orchestrator.data r = Some value
           /\ Orchestrator.error r = None
       | (Runtime.Throw message, after) =>
           w' = after
           /\ Orchestrator.success r = false
           /\ Orchestrator.data r = None
           /\ Orchestrator.error r = Some message
       end.
Proof.
intros h1 h2 h3 h4 h5 h6 request w. rewrite orchestrate_run.
destruct (Orchestrator.route h1 h2 h3 h4 h5 h6 request w) as [[d | message] w'];
  eexists; eexists; (split; [reflexivity |]); cbn;
  (split; [reflexivity |]); (split; [reflexivity |]);
  (split; [reflexivity |]); (split; [reflexivity |]); split; reflexivity.
Qed.

(** X12.  A request that no agent knows is answered without any agent being
    called and without any change of the world: an unknown type, an action
    of the chat agent other than "query", and an action of the
    classification agent other than its five, give an unsuccessful response
    whose error names the type or the action. *)
Theorem orchestrate_unknown_request :
  forall handleChatQuery classifyNewApp getPendingClassifications
         approveClassification rejectClassification getClassificationRules
         (request : Orchestrator.OrchestratorRequest) (w : Runtime.World),
    let answer message :=
      (Runtime.Ok {| Orchestrator.success := false;
                     Orchestrator.data := None;
                     Orchestrator.error := Some message;
                     Orchestrator.agentUsed := Orchestrator.type request;
                     Orchestrator.executionTimeMs := 0%Z |}, w) in
    let orchestrate :=
      Orchestrator.orchestrate handleChatQuery classifyNewApp
        getPendingClassifications approveClassification rejectClassification
        getClassificationRules in
    (~ In (Orchestrator.type request) ["chat"; "classification"] ->
     orchestrate request w
     = answer ("Unknown agent type: " ++ Orchestrator.type request))
    /\ (Orchestrator.type request = "chat" ->
        Orchestrator.action request <> "query" ->
        orchestrate request w
        = answer ("Unknown chat action: " ++ Orchestrator.action request))
    /\ (Orchestrator.type request = "classification" ->
        ~ In (Orchestrator.action request)
             ["classify"; "getPending"; "approve"; "reject"; "getRules"] ->
        orchestrate request w
        = answer ("Unknown classification action: "
                  ++ Orchestrator.action request)).
Proof.
intros h1 h2 h3 h4 h5 h6 request w answer orchestrate.
unfold orchestrate, answer. rewrite !orchestrate_run.
unfold Orchestrator.route, Orchestrator.handleChatRequest,
  Orchestrator.handleClassificationRequest.
split; [| split].
- intros H. cbn [In] in H.
  destruct (String.eqb_spec (Orchestrator.type request) "chat") as [E | _];
    [elim H; auto |].
  destruct (String.eqb_spec (Orchestrator.type request) "classification")
    as [E | _]; [elim H; auto |].
  unfold Runtime.throw. now rewrite Z.sub_diag.
- intros Ht Ha. rewrite Ht. cbn [String.eqb Ascii.eqb Bool.eqb].
  destruct (String.eqb_spec (Orchestrator.action request) "query") as [E | _];
    [now elim Ha |].
  unfold Runtime.throw. now rewrite Z.sub_diag.
- intros Ht Ha. rewrite Ht. cbn [String.eqb Ascii.eqb Bool.eqb]. cbn [In] in Ha.
  repeat match goal with
         | |- context [String.eqb (Orchestrator.action request) ?a] =>
             destruct (String.eqb_spec (Orchestrator.action request) a)
               as [E | _]; [elim Ha; auto 10 |]
         end.
  unfold Runtime.throw. now rewrite Z.sub_diag.
Qed.

Lemma orchestrate_unknown_request_witness :
    Orchestrator.orchestrate Samples.chatAgent Samples.classifier
      Samples.pendingList Samples.reviewer Samples.reviewer Samples.ruleList
      {| Orchestrator.type := "chat"; Orchestrator.action := "explain";
         Orchestrator.payload := Runtime.JNull;
         Orchestrator.user := Fixtures.alice |}
      (Fixtures.world 0 [])
    = (Runtime.Ok {| Orchestrator.success := false;
                     Orchestrator.data := None;
                     Orchestrator.error := Some "Unknown chat action: explain";
                     Orchestrator.agentUsed := "chat";
                     Orchestrator.executionTimeMs := 0%Z |},
       Fixtures.world 0 []).
Proof.
apply (proj1 (proj2 (orchestrate_unknown_request Samples.chatAgent
  Samples.classifier Samples.pendingList Samples.reviewer Samples.reviewer
  Samples.ruleList
  {| Orchestrator.type := "chat"; Orchestrator.action := "explain";
     Orchestrator.payload := Runtime.JNull;
     Orchestrator.user := Fixtures.alice |} (Fixtures.world 0 []))));
  [reflexivity | discriminate].
Defined.

(** X13.  A message that has one of the classification words and a name
    between quotes is routed to the classification agent with that name:
    the name is what stands between the first quote of the message and the
    next one, whether the two are double or single quotes. *)
Theorem detectAndRoute_quoted_name :
  forall handleChatQuery classifyNewApp getPendingClassifications
         approveClassification rejectClassification getClassificationRules
         (user : Runtime.AuthenticatedUser)
         (pre name post : string) (q1 q2 : ascii),
    let message := pre ++ String q1 (name ++ String q2 post) in
    existsb (JS.includes (JS.toLowerCase message))
            Orchestrator.classificationIntents = true ->
    Words.every (fun c => negb (Orchestrator.is_quote c)) pre = true ->
    Words.every (fun c => negb (Orchestrator.is_quote c)) name = true ->
    name <> "" ->
    Orchestrator.is_quote q1 = true -> Orchestrator.is_quote q2 = true ->
    Orchestrator.detectAndRoute handleChatQuery classifyNewApp
      getPendingClassifications approveClassification rejectClassification
      getClassificationRules message user
    = Orchestrator.orchestrate handleChatQuery classifyNewApp
        getPendingClassifications approveClassification rejectClassification
        getClassificationRules
        {| Orchestrator.type := "classification";
           Orchestrator.action := "classify";
           Orchestrator.payload :=
             Runtime.JObj [("appName", Runtime.JStr name)];
           Orchestrator.user := user |}.
Proof.
intros h1 h2 h3 h4 h5 h6 user pre name post q1 q2 message Hword Hpre Hname Hne
       Hq1 Hq2.
unfold Orchestrator.detectAndRoute. rewrite Hword.
unfold Orchestrator.appNameMatch.
destruct (search_quotedName pre name post q1 q2 Hpre Hname Hne Hq1 Hq2 None 0)
  as (m & Hm & Hcap).
fold message in Hm. rewrite Hm.
unfold Orchestrator.appNamePayload. now rewrite Hcap.
Qed.

Lemma detectAndRoute_quoted_name_witness :
    Orchestrator.detectAndRoute Samples.chatAgent Samples.classifier
      Samples.pendingList Samples.reviewer Samples.reviewer Samples.ruleList
      "Please classify 'Slack' for us" Fixtures.alice
    = Orchestrator.orchestrate Samples.chatAgent Samples.classifier
        Samples.pendingList Samples.reviewer Samples.reviewer Samples.ruleList
        {| Orchestrator.type := "classification";
           Orchestrator.action := "classify";
           Orchestrator.payload :=
             Runtime.JObj [("appName", Runtime.JStr "Slack")];
           Orchestrator.user := Fixtures.alice |}.
Proof.
apply (detectAndRoute_quoted_name Samples.chatAgent Samples.classifier
         Samples.pendingList Samples.reviewer Samples.reviewer Samples.ruleList
         Fixtures.alice
         "Please classify " "Slack" " for us" "'"%char "'"%char);
  (reflexivity || discriminate).
Defined.

(* ------------------------------------------------------------------------- *)
(** ** The chat handler on short queries *)

(** X14.  A query of at most two words (at most one space) whose lower-cased
    text contains one of the short conversational words, anywhere, is
    answered as general conversation: when the completion and the audit
    statement succeed, [handleChatQuery] returns the completion as the
    answer with confidence 1, having asked for that one completion only,
    sent no SQL and called none of its data collaborators; the audit log
    gains one successful row without SQL. *)
Theorem handleChatQuery_short_query_is_general :
  forall generateSQL executeQueryWithTimeout explainResults
         (e : Runtime.Env) (userQuery : string)
         (user : Runtime.AuthenticatedUser) (timeout : Z) (w : Runtime.World)
         (reply : string),
    Chat.spaces userQuery <= 1 ->
    existsb (JS.includes (JS.trim (JS.toLowerCase userQuery)))
            Chat.shortConversational = true ->
    Runtime.llm_reply e (Runtime.w_llm_calls w) = Runtime.Ok reply ->
    Runtime.db_error e (Runtime.w_statements w) = None ->
    exists (w' : Runtime.World) (row : Runtime.AuditRow),
      Chat.handleChatQuery generateSQL executeQueryWithTimeout explainResults
        e userQuery user timeout w
      = (Runtime.Ok
           {| Chat.answer := reply;
              Chat.explanation :=
                {| Chat.explanation_sql := "N/A (general conversation)";
                   Chat.explanation_rowCount := 0;
                   Chat.explanation_dateRange := "N/A";
                   Chat.explanation_tablesAccessed := [] |};
              Chat.confidence := 1%float;
              Chat.isGeneralQuery := Some true |}, w')
      /\ Runtime.w_llm_calls w' = S (Runtime.w_llm_calls w)
      /\ Runtime.w_statements w' = S (Runtime.w_statements w)
      /\ Runtime.w_selects w' = Runtime.w_selects w
      /\ Runtime.agent_audit_log w' = (Runtime.agent_audit_log w ++ [row])%list
      /\ Runtime.audit_query row = userQuery
      /\ Runtime.audit_user_id row = Runtime.user_id user
      /\ Runtime.audit_response row = AuditLogger.text_or_null (Some reply)
      /\ Runtime.audit_sql_generated row = None
      /\ Runtime.audit_success row = true.
Proof.
intros g x p e userQuery user timeout w reply Hshort Hword Hreply Hdb.
unfold Chat.handleChatQuery. rewrite bind_now.
unfold Runtime.with_locals, Runtime.try_catch, Chat.attempt.
unfold Chat.classifyQueryType. cbv zeta.
change (existsb (fun word => JS.includes (JS.trim (JS.toLowerCase userQuery)) word)
                Chat.shortConversational)
  with (existsb (JS.includes (JS.trim (JS.toLowerCase userQuery)))
                Chat.shortConversational).
replace (Chat.spaces userQuery + 1 <=? 2) with true
  by (symmetry; apply Nat.leb_le; lia).
rewrite Hword. cbn [andb].
unfold Runtime.bind at 1. unfold Runtime.lift at 1, Runtime.ret at 1.
cbn [fst snd].
unfold Chat.handleGeneralQuery.
unfold Runtime.bind at 1. unfold Runtime.lift at 1. cbn [fst snd].
rewrite chat_run, Hreply.
unfold Runtime.bind at 1. unfold Runtime.lift at 1, Runtime.now at 1.
cbn [fst snd].
unfold Runtime.bind at 1. unfold Runtime.lift at 1. cbn [fst snd].
rewrite logAgentAction_run by exact Hdb.
cbn [Runtime.ret snd].
eexists. eexists. split; [reflexivity |].
cbn. repeat (split; [reflexivity |]). reflexivity.
Qed.

Lemma handleChatQuery_short_query_is_general_witness :
  exists (w' : Runtime.World) (row : Runtime.AuditRow),
    Chat.handleChatQuery Fixtures.generated_ok Fixtures.executed_ok
      Fixtures.explained_ok (Fixtures.server 0 "Hello!") "this month"
      Fixtures.alice 30000 (Fixtures.world 0 [])
    = (Runtime.Ok
         {| Chat.answer := "Hello!";
            Chat.explanation :=
              {| Chat.explanation_sql := "N/A (general conversation)";
                 Chat.explanation_rowCount := 0;
                 Chat.explanation_dateRange := "N/A";
                 Chat.explanation_tablesAccessed := [] |};
            Chat.confidence := 1%float;
            Chat.isGeneralQuery := Some true |}, w')
    /\ Runtime.w_llm_calls w' = 1
    /\ Runtime.w_statements w' = 1
    /\ Runtime.w_selects w' = []
    /\ Runtime.agent_audit_log w' = [row]
    /\ Runtime.audit_query row = "this month"
    /\ Runtime.audit_user_id row = Runtime.user_id Fixtures.alice
    /\ Runtime.audit_response row = Some "Hello!"
    /\ Runtime.audit_sql_generated row = None
    /\ Runtime.audit_success row = true.
Proof.
apply (handleChatQuery_short_query_is_general Fixtures.generated_ok
         Fixtures.executed_ok Fixtures.explained_ok (Fixtures.server 0 "Hello!")
         "this month" Fixtures.alice 30000 (Fixtures.world 0 []) "Hello!");
  [cbn; lia | reflexivity | reflexivity | reflexivity].
Defined.

(* ------------------------------------------------------------------------- *)
(** ** The confidence of a data answer *)

Section ConfidenceFacts.
Import Runtime.

(** The test [intent !== 'unknown'] chooses one of its two branches. *)
Lemma unknown_or_not {A} (intent : json) (a b : A) :
  let chosen := match intent with JStr "unknown" => a | _ => b end in
  chosen = a \/ chosen = b.
Proof.
cbv zeta.
repeat match goal with
       | |- context [match ?x with _ => _ end] => destruct x; auto
       end.
Qed.

End ConfidenceFacts.

(** X15.  The confidence [calculateConfidence] gives a data answer is at
    least 0.5 and strictly below 1: the three increments add up, in floating
    point, to 0.9999999999999999 at most, so the cap at 1 never applies and
    only an answer of general conversation carries confidence 1. *)
Theorem calculateConfidence_range :
  forall (e : Runtime.Env) (parsedQuery : Parser.ParsedQuery)
         (result : QueryExecutor.QueryResult) (confidence : Runtime.number),
    Chat.calculateConfidence e parsedQuery result = Runtime.Ok confidence ->
    (0.5 <=? confidence)%float = true
    /\ (confidence <=? 0.9999999999999999)%float = true
    /\ (confidence <? 1)%float = true.
Proof.
intros e pq result c. unfold Chat.calculateConfidence. cbv zeta.
destruct (unknown_or_not (Parser.intent pq) 0.5%float (0.5 + 0.2)%float)
  as [-> | ->];
  destruct (0 <? QueryExecutor.qr_rowCount result);
  (destruct (if Runtime.truthy (Some (Parser.metrics pq))
             then Chat.hasLength e (Parser.metrics pq) else Runtime.Ok false)
     as [[|] | message]; cbn [Runtime.and_then]; intros H;
   [injection H as <- | injection H as <- | discriminate H]);
  vm_compute; repeat split.
Qed.

Lemma calculateConfidence_range_witness :
  (0.5 <=? 0.9999999999999999)%float = true
  /\ (0.9999999999999999 <=? 0.9999999999999999)%float = true
  /\ (0.9999999999999999 <? 1)%float = true.
Proof.
apply (calculateConfidence_range (Fixtures.server 0 "")
         {| Parser.intent := Runtime.JStr "list";
            Parser.entity := None;
            Parser.metrics := Runtime.JArr [Runtime.JStr "hours"];
            Parser.filters := [];
            Parser.groupBy := None;
            Parser.orderBy := None;
            Parser.limit := None |}
         {| QueryExecutor.qr_rows := [Runtime.JObj []];
            QueryExecutor.qr_rowCount := 1;
            QueryExecutor.qr_tablesAccessed := ["teams"];
            QueryExecutor.qr_executionTimeMs := 1%Z |}).
reflexivity.
Defined.

(* ------------------------------------------------------------------------- *)
(** ** [generateSQL] *)

Section GenerationFacts.
Import JS Regex Runtime Generation.

(** The team names never make the generation fail, and leave the other
    filters alone. *)
Lemma preprocessTeamNames_returns (teamNames : M (list string))
      (parsedQuery : Parser.ParsedQuery) (w : World) :
  exists q w',
    Teams.preprocessTeamNames teamNames parsedQuery w = (Ok q, w')
    /\ forall name, name <> "teams" ->
         lookup name (Parser.filters q) = lookup name (Parser.filters parsedQuery).
Proof.
unfold Teams.preprocessTeamNames.
destruct (lookup "teams" (Parser.filters parsedQuery)) as [teams |];
  [| now exists parsedQuery, w].
destruct (negb (truthy (Some teams)) || Teams.lengthIsZero teams);
  [now exists parsedQuery, w |].
unfold try_catch, bind, from_res, ret.
destruct (teamNames w) as [[available | message] w1];
  [| now exists parsedQuery, w1].
destruct (and_then (Teams.iterate teams) (Teams.processTeams available))
  as [processed | message]; [| now exists parsedQuery, w1].
eexists. eexists. split; [reflexivity |]. cbn [Parser.filters].
intros name Hname. now apply lookup_set_field_other.
Qed.

(** A statement over a table, whatever surrounds the table's name. *)
Lemma includes_from (a table b : string) :
  toLowerCase table = table ->
  includes (toLowerCase (a ++ ("FROM " ++ table) ++ b)) ("from " ++ table) = true.
Proof.
intros Htable. unfold toLowerCase in *. rewrite !map_chars_app.
change (map_chars lower_char "FROM ") with "from ". rewrite Htable.
apply includes_app.
Qed.

Lemma global_statement (user : AuthenticatedUser) (a table b : string) :
  In table SqlGenerator.globalTables ->
  SqlGenerator.getRBACFilter user (Some (a ++ ("FROM " ++ table) ++ b)) = "1=1".
Proof.
intros Htable. unfold SqlGenerator.getRBACFilter.
assert (Hlower : toLowerCase table = table).
{ cbn [SqlGenerator.globalTables In] in Htable.
  destruct Htable as [<- | [<- | [<- | [<- | []]]]]; reflexivity. }
assert (Hglobal :
  existsb (fun table0 =>
             includes (toLowerCase (a ++ ("FROM " ++ table) ++ b)) ("from " ++ table0)
             || includes (toLowerCase (a ++ ("FROM " ++ table) ++ b))
                         ("from " ++ table0 ++ " ")
             || includes (toLowerCase (a ++ ("FROM " ++ table) ++ b))
                         ("from " ++ table0 ++ ",")
             || includes (toLowerCase (a ++ ("FROM " ++ table) ++ b))
                         ("from " ++ table0 ++ ")"))
          SqlGenerator.globalTables = true).
{ apply existsb_exists. exists table. split; [exact Htable |].
  now rewrite (includes_from a table b Hlower). }
destruct (a ++ ("FROM " ++ table) ++ b) as [| c t] eqn:Htext.
- destruct a; discriminate Htext.
- now rewrite Hglobal.
Qed.

End GenerationFacts.

Section GenerationRuns.
Import JS Regex Runtime Generation.

Lemma direct_includes (columns table order filter : string) :
  includes ("SELECT " ++ columns ++ " FROM " ++ table ++ " WHERE " ++ filter
            ++ " ORDER BY " ++ order)
           (" FROM " ++ table ++ " WHERE " ++ filter ++ " ORDER BY ") = true.
Proof.
replace ("SELECT " ++ columns ++ " FROM " ++ table ++ " WHERE " ++ filter
         ++ " ORDER BY " ++ order)
  with (("SELECT " ++ columns)
        ++ (" FROM " ++ table ++ " WHERE " ++ filter ++ " ORDER BY ") ++ order)
  by (now rewrite !append_assoc).
apply includes_app.
Qed.

Lemma direct_global (user : AuthenticatedUser) (columns table order filter : string) :
  In table SqlGenerator.globalTables ->
  SqlGenerator.getRBACFilter user
    (Some ("SELECT " ++ columns ++ " FROM " ++ table ++ " WHERE " ++ filter
           ++ " ORDER BY " ++ order)) = "1=1".
Proof.
intros Htable.
replace ("SELECT " ++ columns ++ " FROM " ++ table ++ " WHERE " ++ filter
         ++ " ORDER BY " ++ order)
  with (("SELECT " ++ columns ++ " ") ++ ("FROM " ++ table)
        ++ (" WHERE " ++ filter ++ " ORDER BY " ++ order))
  by (now rewrite !append_assoc).
now apply global_statement.
Qed.

(** The direct statement of each of the four lists. *)
Lemma generateEntitySQL_listed (parsedQuery : Parser.ParsedQuery)
      (user : AuthenticatedUser) (name : string) :
  Parser.entity parsedQuery = Some (JStr name) ->
  In name ["projects"; "teams"; "users"; "classification_rules"] ->
  exists g columns order,
    generateEntitySQL parsedQuery user = Some g
    /\ sql g = "SELECT " ++ columns ++ " FROM " ++ name ++ " WHERE "
               ++ SqlGenerator.getRBACFilter user None ++ " ORDER BY " ++ order
    /\ params g = Replied (JArr []).
Proof.
intros Hentity Hname. unfold generateEntitySQL. rewrite Hentity.
cbn [In] in Hname.
destruct Hname as [<- | [<- | [<- | [<- | []]]]];
  (replace (isList (Parser.intent parsedQuery) && negb (truthy (Some (JStr _))))
     with false by (now rewrite andb_false_r));
  cbn [truthy negb String.eqb Ascii.eqb Bool.eqb direct].
- exists {| sql := "SELECT name, billable FROM projects WHERE "
                   ++ SqlGenerator.getRBACFilter user None ++ " ORDER BY name";
            params := Replied (JArr []);
            description := JStr "List all projects with their billable status" |},
         "name, billable", "name". now repeat split.
- exists {| sql := "SELECT name, department FROM teams WHERE "
                   ++ SqlGenerator.getRBACFilter user None
                   ++ " ORDER BY department, name";
            params := Replied (JArr []);
            description := JStr "List all teams grouped by department" |},
         "name, department", "department, name". now repeat split.
- exists {| sql := "SELECT name, email, role FROM users WHERE "
                   ++ SqlGenerator.getRBACFilter user None ++ " ORDER BY role, name";
            params := Replied (JArr []);
            description := JStr "List users with their roles and email addresses" |},
         "name, email, role", "role, name". now repeat split.
- exists {| sql := "SELECT app_name, classification, confidence FROM classification_rules WHERE "
                   ++ SqlGenerator.getRBACFilter user None ++ " ORDER BY app_name";
            params := Replied (JArr []);
            description := JStr "List all app classification rules" |},
         "app_name, classification, confidence", "app_name". now repeat split.
Qed.

(** What [generateSQL] does once the two values are logged. *)
Lemma generateSQL_logged (teamNames : M (list string)) (e : Env)
      (parsedQuery : Parser.ParsedQuery) (user : AuthenticatedUser) (w : World)
      (shown named : string) :
  ToString e (Parser.intent parsedQuery) = Ok shown ->
  inTemplate e (Parser.entity parsedQuery) = Ok named ->
  generateSQL teamNames e parsedQuery user w
  = match generateEntitySQL parsedQuery user with
    | Some directSQL => (Ok directSQL, w)
    | None =>
        bind (Teams.preprocessTeamNames teamNames parsedQuery) (fun processedQuery =>
        bind (chat e) (fun response =>
        try_catch (from_res (readReply e user processedQuery response))
                  (fun _ => throw "Failed to generate SQL query"))) w
    end.
Proof.
intros Hshown Hnamed. unfold generateSQL.
unfold bind at 1, from_res at 1. rewrite Hshown.
unfold bind at 1, from_res at 1. rewrite Hnamed.
now destruct (generateEntitySQL parsedQuery user).
Qed.

End GenerationRuns.

(** X16.  For a query whose entity is one of projects, teams, users and
    classification_rules, [generateSQL] returns the direct statement over
    that table, with the filter of the user's role in its WHERE clause and
    no parameters; it asks for no completion and does not look up the teams:
    the world is left as it was. *)
Theorem generateSQL_direct_lists :
  forall (teamNames : Runtime.M (list string)) (e : Runtime.Env)
         (parsedQuery : Parser.ParsedQuery) (user : Runtime.AuthenticatedUser)
         (w : Runtime.World) (name shown : string),
    Runtime.ToString e (Parser.intent parsedQuery) = Runtime.Ok shown ->
    Parser.entity parsedQuery = Some (Runtime.JStr name) ->
    In name ["projects"; "teams"; "users"; "classification_rules"] ->
    exists g : Generation.GeneratedSQL,
      Generation.generateSQL teamNames e parsedQuery user w = (Runtime.Ok g, w)
      /\ JS.startsWith (Generation.sql g) "SELECT " = true
      /\ JS.includes (Generation.sql g)
           (" FROM " ++ name ++ " WHERE "
            ++ SqlGenerator.getRBACFilter user None ++ " ORDER BY ") = true
      /\ Generation.params g = Generation.Replied (Runtime.JArr []).
Proof.
intros teamNames e pq user w name shown Hshown Hentity Hname.
destruct (generateEntitySQL_listed pq user name Hentity Hname)
  as (g & columns & order & Hg & Hsql & Hparams).
exists g.
rewrite (generateSQL_logged teamNames e pq user w shown name Hshown)
  by (now rewrite Hentity).
rewrite Hg. split; [reflexivity |]. rewrite Hsql.
split; [apply prefix_app |]. split; [apply direct_includes | exact Hparams].
Qed.

Lemma generateSQL_direct_lists_witness :
  exists g : Generation.GeneratedSQL,
    Generation.generateSQL (Runtime.throw "no pool") (Fixtures.server 0 "")
      (Parser.listOf "teams") Fixtures.alice (Fixtures.world 0 [])
    = (Runtime.Ok g, Fixtures.world 0 [])
    /\ JS.startsWith (Generation.sql g) "SELECT " = true
    /\ JS.includes (Generation.sql g)
         (" FROM teams WHERE "
          ++ SqlGenerator.getRBACFilter Fixtures.alice None ++ " ORDER BY ") = true
    /\ Generation.params g = Generation.Replied (Runtime.JArr []).
Proof.
apply (generateSQL_direct_lists (Runtime.throw "no pool") (Fixtures.server 0 "")
         (Parser.listOf "teams") Fixtures.alice (Fixtures.world 0 []) "teams" "list");
  [reflexivity | reflexivity | cbn; auto].
Defined.

(** X17.  On the direct path the filter of a manager or an employee, a
    condition on [user_id], is put also into the statements over projects,
    teams and classification_rules, although [getRBACFilter], given such a
    statement, exempts these tables and answers [1=1]: the exemption applies
    to generated statements only. *)
Theorem generateEntitySQL_filters_global_tables :
  forall (parsedQuery : Parser.ParsedQuery) (user : Runtime.AuthenticatedUser)
         (name : string),
    Parser.entity parsedQuery = Some (Runtime.JStr name) ->
    In name ["projects"; "teams"; "classification_rules"] ->
    In (Runtime.user_role user) ["manager"; "employee"] ->
    exists g : Generation.GeneratedSQL,
      Generation.generateEntitySQL parsedQuery user = Some g
      /\ JS.includes (Generation.sql g)
           (" FROM " ++ name ++ " WHERE user_id ") = true
      /\ SqlGenerator.getRBACFilter user (Some (Generation.sql g)) = "1=1".
Proof.
intros pq user name Hentity Hname Hrole.
assert (Hlisted : In name ["projects"; "teams"; "users"; "classification_rules"])
  by (cbn [In] in *; tauto).
assert (Hglobal : In name SqlGenerator.globalTables)
  by (cbn [In SqlGenerator.globalTables] in *; tauto).
destruct (generateEntitySQL_listed pq user name Hentity Hlisted)
  as (g & columns & order & Hg & Hsql & _).
exists g. split; [exact Hg |]. rewrite Hsql. split.
- assert (Hfilter : exists rest,
            SqlGenerator.getRBACFilter user None = "user_id " ++ rest).
  { unfold SqlGenerator.getRBACFilter. cbn [In] in Hrole.
    destruct Hrole as [<- | [<- | []]]; cbn; eexists; reflexivity. }
  destruct Hfilter as (rest & ->).
  replace ("SELECT " ++ columns ++ " FROM " ++ name ++ " WHERE "
           ++ ("user_id " ++ rest) ++ " ORDER BY " ++ order)
    with (("SELECT " ++ columns) ++ (" FROM " ++ name ++ " WHERE user_id ")
          ++ (rest ++ " ORDER BY " ++ order))
    by (now rewrite !append_assoc).
  apply includes_app.
- now apply direct_global.
Qed.

Lemma generateEntitySQL_filters_global_tables_witness :
  exists g : Generation.GeneratedSQL,
    Generation.generateEntitySQL (Parser.listOf "projects") Fixtures.alice = Some g
    /\ JS.includes (Generation.sql g) " FROM projects WHERE user_id " = true
    /\ SqlGenerator.getRBACFilter Fixtures.alice (Some (Generation.sql g)) = "1=1".
Proof.
apply (generateEntitySQL_filters_global_tables (Parser.listOf "projects")
         Fixtures.alice "projects"); [reflexivity | cbn; auto | cbn; auto].
Defined.

(** X18.  When the intent and the entity can be logged, [generateSQL] fails
    in two ways only: with the error of the provider, when the completion
    fails, and with "Failed to generate SQL query" once a completion has
    arrived.  The team lookup never makes it fail, and no error of the
    reading of the reply gets out as it is. *)
Theorem generateSQL_failures :
  forall (teamNames : Runtime.M (list string)) (e : Runtime.Env)
         (parsedQuery : Parser.ParsedQuery) (user : Runtime.AuthenticatedUser)
         (w w' : Runtime.World) (shown named message : string),
    Runtime.ToString e (Parser.intent parsedQuery) = Runtime.Ok shown ->
    Generation.inTemplate e (Parser.entity parsedQuery) = Runtime.Ok named ->
    Generation.generateSQL teamNames e parsedQuery user w
      = (Runtime.Throw message, w') ->
    Runtime.w_llm_calls w' > 0
    /\ (Runtime.llm_reply e (Nat.pred (Runtime.w_llm_calls w'))
          = Runtime.Throw message
        \/ (message = "Failed to generate SQL query"
            /\ exists response,
                 Runtime.llm_reply e (Nat.pred (Runtime.w_llm_calls w'))
                   = Runtime.Ok response)).
Proof.
intros teamNames e pq user w w' shown named message Hshown Hnamed.
rewrite (generateSQL_logged teamNames e pq user w shown named Hshown Hnamed).
destruct (Generation.generateEntitySQL pq user) as [g |]; [discriminate |].
destruct (preprocessTeamNames_returns teamNames pq w) as (q & w1 & Hq & _).
rewrite (bind_Ok _ _ _ _ _ Hq).
unfold Runtime.bind. rewrite chat_run.
destruct (Runtime.llm_reply e (Runtime.w_llm_calls w1)) as [response | failed]
  eqn:Hreply.
- unfold Runtime.try_catch, Runtime.from_res, Runtime.throw.
  destruct (Generation.readReply e user q response); [discriminate |].
  intros [= <- <-]. cbn. split; [lia |]. right. split; [reflexivity |].
  now exists response.
- intros [= <- <-]. cbn. split; [lia |]. now left.
Qed.

Lemma generateSQL_failures_witness :
  Runtime.w_llm_calls
    (Runtime.elapse 250 (Runtime.count_llm_call (Fixtures.world 0 []))) > 0
  /\ (Runtime.llm_reply (Fixtures.server 0 "SELECT 1")
        (Nat.pred (Runtime.w_llm_calls
           (Runtime.elapse 250 (Runtime.count_llm_call (Fixtures.world 0 [])))))
      = Runtime.Throw "Failed to generate SQL query"
      \/ ("Failed to generate SQL query" = "Failed to generate SQL query"
          /\ exists response,
               Runtime.llm_reply (Fixtures.server 0 "SELECT 1")
                 (Nat.pred (Runtime.w_llm_calls
                    (Runtime.elapse 250
                       (Runtime.count_llm_call (Fixtures.world 0 [])))))
               = Runtime.Ok response)).
Proof.
apply (generateSQL_failures (Runtime.ret []) (Fixtures.server 0 "SELECT 1")
         Parser.unknownQuery Fixtures.alice (Fixtures.world 0 [])
         (Runtime.elapse 250 (Runtime.count_llm_call (Fixtures.world 0 [])))
         "unknown" "undefined" "Failed to generate SQL query");
  reflexivity.
Defined.

(** X19.  A statement that [generateSQL] returns from a completion is never
    the reply's own text: the reply parsed to an object whose [sql] is a
    string, and the statement is that string after [postProcess].  Its
    parameters are decided by the statement: when it contains [$1] and [$2],
    the reply has no parameters (none, or an empty array) and the parsed
    query has a date range, they are the two ends of that date range; in
    every other case they are the parameters of the reply, an empty array
    when it has none. *)
Theorem generateSQL_reads_reply :
  forall (teamNames : Runtime.M (list string)) (e : Runtime.Env)
         (parsedQuery : Parser.ParsedQuery) (user : Runtime.AuthenticatedUser)
         (w w' : Runtime.World) (g : Generation.GeneratedSQL),
    Generation.generateEntitySQL parsedQuery user = None ->
    Generation.generateSQL teamNames e parsedQuery user w = (Runtime.Ok g, w') ->
    exists (response : string) (generated : list (string * Runtime.json))
           (text : string),
      Runtime.llm_reply e (Nat.pred (Runtime.w_llm_calls w')) = Runtime.Ok response
      /\ Runtime.JSON_parse e (JS.trim (Classifier.jsonStr response))
         = Runtime.Ok (Runtime.JObj generated)
      /\ Runtime.lookup "sql" generated = Some (Runtime.JStr text)
      /\ Generation.sql g = SqlGenerator.postProcess user text
      /\ let replied :=
           Classifier.or_else (Runtime.lookup "params" generated)
                              (Runtime.JArr []) in
         Generation.params g
         = match Runtime.lookup "dateRange" (Parser.filters parsedQuery) with
           | Some dateRange =>
               if JS.includes (Generation.sql g) "$1"
                  && JS.includes (Generation.sql g) "$2"
                  && Teams.lengthIsZero replied
                  && Runtime.truthy (Some dateRange)
               then Generation.DateRange (Generation.field dateRange "start")
                                         (Generation.field dateRange "end")
               else Generation.Replied replied
           | None => Generation.Replied replied
           end.
Proof.
intros teamNames e pq user w w' g Hdirect. unfold Generation.generateSQL.
rewrite Hdirect.
unfold Runtime.bind at 1, Runtime.from_res at 1.
destruct (Runtime.ToString e (Parser.intent pq)); [| discriminate].
unfold Runtime.bind at 1, Runtime.from_res at 1.
destruct (Generation.inTemplate e (Parser.entity pq)); [| discriminate].
destruct (preprocessTeamNames_returns teamNames pq w) as (q & w1 & Hq & Hfilters).
rewrite (bind_Ok _ _ _ _ _ Hq).
unfold Runtime.bind. rewrite chat_run.
destruct (Runtime.llm_reply e (Runtime.w_llm_calls w1)) as [response | failed]
  eqn:Hreply; [| discriminate].
unfold Runtime.try_catch, Runtime.from_res, Runtime.throw.
destruct (Generation.readReply e user q response) as [read |] eqn:Hread;
  [| discriminate].
intros [= -> <-]. cbn [Runtime.w_llm_calls Runtime.elapse Runtime.count_llm_call
                       Nat.pred].
unfold Generation.readReply in Hread.
destruct (Runtime.JSON_parse e (JS.trim (Classifier.jsonStr response)))
  as [value |] eqn:Hparse; [| discriminate].
cbn [Runtime.and_then] in Hread.
destruct value as [| ? | ? | ? | ? | generated];
  try discriminate Hread.
cbn [Runtime.get Runtime.and_then] in Hread.
destruct (Runtime.lookup "sql" generated) as [[| ? | ? | text | ? | ?] |]
  eqn:Hsql; try discriminate Hread.
exists response, generated, text.
split; [exact Hreply |]. split; [exact Hparse |]. split; [exact Hsql |].
rewrite <- (Hfilters "dateRange") by discriminate.
cbv zeta in Hread |- *. cbn [Runtime.and_then] in Hread.
injection Hread as <-. cbn [Generation.sql Generation.params].
split; [reflexivity |].
destruct (Runtime.lookup "dateRange" (Parser.filters q)) as [dateRange |].
- fold (Runtime.truthy (Some dateRange)).
  destruct (JS.includes (SqlGenerator.postProcess user text) "$1");
    [| reflexivity].
  destruct (JS.includes (SqlGenerator.postProcess user text) "$2");
    [| reflexivity].
  destruct (Teams.lengthIsZero _); reflexivity.
- destruct (JS.includes (SqlGenerator.postProcess user text) "$1");
    [| reflexivity].
  destruct (JS.includes (SqlGenerator.postProcess user text) "$2");
    [| reflexivity].
  destruct (Teams.lengthIsZero _); reflexivity.
Qed.

Lemma generateSQL_reads_reply_witness :
  exists (response : string) (generated : list (string * Runtime.json))
         (text : string),
    Runtime.llm_reply Samples.statement_server 0 = Runtime.Ok response
    /\ Runtime.JSON_parse Samples.statement_server
         (JS.trim (Classifier.jsonStr response))
       = Runtime.Ok (Runtime.JObj generated)
    /\ Runtime.lookup "sql" generated = Some (Runtime.JStr text)
    /\ "SELECT date FROM daily_usage WHERE user_id IN (SELECT id FROM users WHERE team_id = 't-1') AND date BETWEEN $1 AND $2"
       = SqlGenerator.postProcess Fixtures.alice text
    /\ Generation.DateRange (Some (Runtime.JStr "2025-12-01"))
                            (Some (Runtime.JStr "2025-12-15"))
       = match Runtime.lookup "dateRange" (Parser.filters Samples.december_query) with
         | Some dateRange =>
             if JS.includes
                  "SELECT date FROM daily_usage WHERE user_id IN (SELECT id FROM users WHERE team_id = 't-1') AND date BETWEEN $1 AND $2"
                  "$1"
                && JS.includes
                     "SELECT date FROM daily_usage WHERE user_id IN (SELECT id FROM users WHERE team_id = 't-1') AND date BETWEEN $1 AND $2"
                     "$2"
                && Teams.lengthIsZero
                     (Classifier.or_else (Runtime.lookup "params" generated)
                                         (Runtime.JArr []))
                && Runtime.truthy (Some dateRange)
             then Generation.DateRange (Generation.field dateRange "start")
                                       (Generation.field dateRange "end")
             else Generation.Replied
                    (Classifier.or_else (Runtime.lookup "params" generated)
                                        (Runtime.JArr []))
         | None =>
             Generation.Replied
               (Classifier.or_else (Runtime.lookup "params" generated)
                                   (Runtime.JArr []))
         end.
Proof.
apply (generateSQL_reads_reply (Runtime.ret []) Samples.statement_server
         Samples.december_query Fixtures.alice (Fixtures.world 0 [])
         (Runtime.elapse 250 (Runtime.count_llm_call (Fixtures.world 0 [])))
         {| Generation.sql :=
              "SELECT date FROM daily_usage WHERE user_id IN (SELECT id FROM users WHERE team_id = 't-1') AND date BETWEEN $1 AND $2";
            Generation.params :=
              Generation.DateRange (Some (Runtime.JStr "2025-12-01"))
                                   (Some (Runtime.JStr "2025-12-15"));
            Generation.description := Runtime.JStr "Query generated" |});
  [reflexivity | vm_compute; reflexivity].
Defined.

(* ------------------------------------------------------------------------- *)
(** ** Relative dates that follow the local calendar *)

Section CalendarFacts.
Import JS Runtime Dates.
Local Open Scope Z_scope.

Lemma every_day_spec (n : nat) (from : Z) (p : Z -> bool) :
  every_day n from p = true ->
  forall z, from <= z < from + Z.of_nat n -> p z = true.
Proof.
revert from. induction n as [| n IH]; intros from H z Hz; [lia |].
cbn [every_day] in H. apply andb_prop in H. destruct H as [Hfrom Hrest].
destruct (Z.eq_dec z from) as [-> | Hne]; [exact Hfrom |].
apply (IH (from + 1) Hrest). lia.
Qed.

Lemma LocalTime_UTC (e : Env) (t : Z) : LocalTime e (UTC e t) = t.
Proof. unfold LocalTime, UTC. lia. Qed.

Lemma Day_midnight (d : Z) : Day (d * msPerDay) = d.
Proof. unfold Day, msPerDay. now rewrite Z.div_mul. Qed.

Lemma Day_within (d t : Z) : 0 <= t < msPerDay -> Day (d * msPerDay + t) = d.
Proof.
intros Ht. unfold Day, msPerDay in *.
rewrite Z.add_comm, Z.div_add by lia. rewrite Z.div_small by lia. lia.
Qed.

(** The local day of [new Date(y, m, d)], and of a date whose hours are set. *)
Lemma Day_Date_of (e : Env) (y m d : Z) :
  Day (LocalTime e (Date_of e y m d))
  = MakeDay (if (0 <=? y) && (y <=? 99) then 1900 + y else y) m d.
Proof. unfold Date_of. cbv zeta. now rewrite LocalTime_UTC, Day_midnight. Qed.

Lemma Day_setHours (e : Env) (t h m s ms : Z) :
  0 <= ((h * 60 + m) * 60 + s) * 1000 + ms < msPerDay ->
  Day (LocalTime e (setHours e t h m s ms)) = Day (LocalTime e t).
Proof.
intros H. unfold setHours. rewrite LocalTime_UTC.
rewrite <- Z.add_assoc. now apply Day_within.
Qed.

End CalendarFacts.

Section LastMonthFacts.
Import JS Runtime Dates.
Local Open Scope Z_scope.

(** "last month" by the local day alone. *)
Lemma last_month_by_day (e : Env) (now : Z) (relative : string) :
  trim (toLowerCase relative) = "last month"%string
  \/ trim (toLowerCase relative) = "previous month"%string ->
  Parser.parseRelativeDate e now relative
  = let c := civil_of_day (Day (LocalTime e now)) in
    let y := if (0 <=? year c) && (year c <=? 99) then 1900 + year c else year c in
    let lastMonth := civil_of_day (MakeDay y (month c - 1) 1) in
    let lastDay := civil_of_day (MakeDay y (month c) 0) in
    Ok ((show (year lastMonth) ++ "-" ++ pad2 (month lastMonth + 1) ++ "-01")%string,
        (show (year lastDay) ++ "-" ++ pad2 (month lastDay + 1) ++ "-"
         ++ pad2 (day lastDay))%string).
Proof.
intros Hlower. unfold Parser.parseRelativeDate. cbv zeta.
assert (Htoday : Day (LocalTime e (setHours e now 23 59 59 999))
                 = Day (LocalTime e now))
  by (apply Day_setHours; unfold msPerDay; lia).
destruct Hlower as [-> | ->];
  cbn [includes String.prefix Ascii.eqb Bool.eqb andb orb Parser.same String.eqb
       String.length];
  unfold Parser.firstOf, Parser.ymd, getFullYear, getMonth, getDate;
  rewrite !Day_Date_of, !Htoday; reflexivity.
Qed.

(** The years from 1900 to 2100 print with four digits. *)
Lemma four_digits :
  every_day 201 1900
    (fun y => (0 <=? y) && (y <=? 9999) && (padStart 4 (show y) =? show y)%string)
  = true.
Proof. vm_compute. reflexivity. Qed.

Lemma isoDate_midnight (d : Z) :
  1900 <= year (civil_of_day d) < 2101 ->
  isoDate (d * msPerDay)
  = (show (year (civil_of_day d)) ++ "-" ++ pad2 (month (civil_of_day d) + 1)
     ++ "-" ++ pad2 (day (civil_of_day d)))%string.
Proof.
intros Hyear. unfold isoDate. rewrite Day_midnight. cbv zeta.
pose proof (every_day_spec _ _ _ four_digits (year (civil_of_day d))) as H.
cbv beta in H.
assert (Hin : 1900 <= year (civil_of_day d) < 1900 + Z.of_nat 201)
  by (replace (Z.of_nat 201) with 201 by reflexivity; lia).
specialize (H Hin). apply andb_prop in H. destruct H as [Hrange Hshow].
apply String.eqb_eq in Hshow. now rewrite Hrange, Hshow.
Qed.

(** The check of every day from 1900 to 2100: the first of the month before
    and the day before the first of the month, as the code builds them and
    as counted back from the day. *)
Lemma last_month_days :
  every_day 73415 (-25567)
    (fun d =>
       let c := civil_of_day d in
       let y := if (0 <=? year c) && (year c <=? 99) then 1900 + year c else year c in
       let lastMonth := civil_of_day (MakeDay y (month c - 1) 1) in
       let last := d - day c in
       let first := last - day (civil_of_day last) + 1 in
       (MakeDay y (month c - 1) 1 =? first) && (MakeDay y (month c) 0 =? last)
       && (day lastMonth =? 1)
       && (1900 <=? year lastMonth) && (year lastMonth <? 2101)
       && (1900 <=? year (civil_of_day last)) && (year (civil_of_day last) <? 2101)
       || (d <? -25536))
  = true.
Proof. vm_compute. reflexivity. Qed.

End LastMonthFacts.

(** X20.  "last month" and "previous month", in any case and with white
    space around, are resolved to the calendar month before the current
    one, in local time and whatever the offset from UTC: the range ends on
    the day before the first day of the current local month and begins on
    the first day of the month of that day.  (Shown of every local date
    from February 1900 to the end of 2100.) *)
Theorem parseRelativeDate_last_month :
  forall (e : Runtime.Env) (now : Z) (relative : string),
    let today := Dates.Day (Dates.LocalTime e now) in
    let last := (today - Dates.day (Dates.civil_of_day today))%Z in
    let first := (last - Dates.day (Dates.civil_of_day last) + 1)%Z in
    JS.trim (JS.toLowerCase relative) = "last month"
    \/ JS.trim (JS.toLowerCase relative) = "previous month" ->
    (-25536 <= today < 47848)%Z ->
    Parser.parseRelativeDate e now relative
    = Runtime.Ok (Dates.isoDate (first * Dates.msPerDay),
                  Dates.isoDate (last * Dates.msPerDay)).
Proof.
intros e now relative today last first Hlower Hrange.
rewrite (last_month_by_day e now relative Hlower).
pose proof (every_day_spec _ _ _ last_month_days today) as Hday.
cbv beta zeta in Hday |- *. fold today in Hday |- *.
assert (Hin : (-25567 <= today < -25567 + Z.of_nat 73415)%Z)
  by (replace (Z.of_nat 73415) with 73415%Z by (vm_compute; reflexivity); lia).
specialize (Hday Hin).
apply orb_prop in Hday. destruct Hday as [Hday | Hearly];
  [| apply Z.ltb_lt in Hearly; lia].
repeat (apply andb_prop in Hday; destruct Hday as [Hday ?]).
repeat match goal with
       | H : (_ =? _)%Z = true |- _ => apply Z.eqb_eq in H
       | H : (_ <=? _)%Z = true |- _ => apply Z.leb_le in H
       | H : (_ <? _)%Z = true |- _ => apply Z.ltb_lt in H
       end.
fold last in Hday |- *. fold last in H, H0, H1, H4. fold first in Hday.
rewrite !isoDate_midnight by (rewrite <- ?Hday; lia).
rewrite <- Hday, <- H4. cbv zeta. rewrite H3. reflexivity.
Qed.

Lemma parseRelativeDate_last_month_witness :
  Parser.parseRelativeDate (Fixtures.server (-300) "") Fixtures.wednesday
                           "  Last Month "
  = Runtime.Ok ("2025-11-01", "2025-11-30").
Proof.
apply (parseRelativeDate_last_month (Fixtures.server (-300) "")
         Fixtures.wednesday "  Last Month ");
  [left; reflexivity | split; [apply Z.leb_le | apply Z.ltb_lt]; reflexivity].
Defined.

(* ------------------------------------------------------------------------- *)
(** ** The classification agent when the provider fails *)

(** X21.  When the completion fails while the database answers,
    [classifyNewApp] for an application without a rule throws the error of
    the provider after logging it: no rule and no pending classification is
    written, and agent_audit_log gains one row, unsuccessful, with the
    message of the error. *)
Theorem classifyNewApp_logs_provider_failure :
  forall (e : Runtime.Env) (appName : string) (user : Runtime.AuthenticatedUser)
         (w : Runtime.World) (message : string),
    (forall n, Runtime.db_error e n = None) ->
    Classification.existing_rules appName w = [] ->
    Runtime.llm_reply e (Runtime.w_llm_calls w) = Runtime.Throw message ->
    exists (w' : Runtime.World) (row : Runtime.AuditRow),
      Classification.classifyNewApp e appName user w = (Runtime.Throw message, w')
      /\ Runtime.classification_rules w' = Runtime.classification_rules w
      /\ Runtime.pending_classifications w' = Runtime.pending_classifications w
      /\ Runtime.agent_audit_log w' = (Runtime.agent_audit_log w ++ [row])%list
      /\ Runtime.audit_agent_type row = Runtime.classification_agent
      /\ Runtime.audit_user_id row = Runtime.user_id user
      /\ Runtime.audit_query row = "Classify app: " ++ appName
      /\ Runtime.audit_success row = false
      /\ Runtime.audit_error_message row = AuditLogger.text_or_null (Some message).
Proof.
intros e appName user w message Hdb Hnone Hllm.
unfold Classification.classifyNewApp. rewrite bind_now.
set (w5 := Runtime.answered e (Runtime.answered e (Runtime.answered e
             (Runtime.answered e (Runtime.answered e w))))).
set (w6 := Runtime.elapse (Runtime.llm_latency e (Runtime.w_llm_calls w5))
             (Runtime.count_llm_call w5)).
match goal with
| |- exists w' row, Runtime.try_catch ?body ?handler w = _ /\ _ =>
    assert (Hbody : body w = (Runtime.Throw message, w6))
end.
{ rewrite (bind_Ok _ _ _ _ _ (read_Ok e _ w (Hdb _))).
  change (Classification.existing_rules appName (Runtime.answered e w))
    with (Classification.existing_rules appName w).
  rewrite Hnone.
  rewrite (bind_Ok _ _ _ _ _ (analyzeAppUsage_run e appName _ Hdb)).
  fold w5. unfold Classifier.classifyApp, Runtime.bind.
  rewrite chat_run.
  change (Runtime.w_llm_calls w5) with (Runtime.w_llm_calls w).
  now rewrite Hllm. }
rewrite (try_catch_Throw _ _ _ _ _ Hbody).
rewrite bind_now.
rewrite (bind_Ok _ _ _ _ _ (logAgentAction_run e _ w6 (Hdb _))).
unfold Runtime.throw.
eexists. eexists. split; [reflexivity |].
cbn. repeat (split; [reflexivity |]). reflexivity.
Qed.

Lemma classifyNewApp_logs_provider_failure_witness :
  exists (w' : Runtime.World) (row : Runtime.AuditRow),
    Classification.classifyNewApp Samples.silent_server "Steam" Fixtures.alice
      (Fixtures.world Fixtures.wednesday [])
    = (Runtime.Throw "Rate limit exceeded", w')
    /\ Runtime.classification_rules w' = []
    /\ Runtime.pending_classifications w' = []
    /\ Runtime.agent_audit_log w' = [row]
    /\ Runtime.audit_agent_type row = Runtime.classification_agent
    /\ Runtime.audit_user_id row = "u-1"
    /\ Runtime.audit_query row = "Classify app: Steam"
    /\ Runtime.audit_success row = false
    /\ Runtime.audit_error_message row = Some "Rate limit exceeded".
Proof.
exact (classifyNewApp_logs_provider_failure Samples.silent_server "Steam"
         Fixtures.alice (Fixtures.world Fixtures.wednesday [])
         "Rate limit exceeded" (fun _ => eq_refl) eq_refl eq_refl).
Defined.

(* ------------------------------------------------------------------------- *)
(** ** The query guard and what the specification says of it *)

Section GuardFacts.
Import JS Regex Words QueryExecutor Guard.




Lemma upper_of_lower (c : ascii) :
  is_lower c = true -> is_upper (upper_char c) = true.
Proof. destruct c as [[] [] [] [] [] [] [] []]; (reflexivity || discriminate). Qed.






End GuardFacts.

Section GuardPatterns.
Import JS Regex Words QueryExecutor Guard.











End GuardPatterns.

Section GuardTables.
Import JS Regex Words QueryExecutor Guard.












End GuardTables.

Section GuardDenylist.
Import JS Regex Words QueryExecutor Guard.


End GuardDenylist.

